(** * flickr_PAD: a shallow embedding of the Flickr library downloader

    The development follows [flickr_PAD.py]: the module-level configuration,
    the [FlickrDownloader] methods and [main].  The remote catalogue, the
    HTTP transfers and the interruption signal are collaborators of the
    program; they are gathered in an environment of oracles indexed by a
    clock that counts the external calls made so far, so that an answer may
    change from one call to the next (a transient error, a retry).  The
    file system, the process output and the Python objects that the code
    mutates are threaded explicitly.

    What the model takes for granted: the responses of the catalogue are
    well formed (every listed photo has an identifier, pages carry their
    totals); the local file operations of [log], [save_state] and
    [save_metadata] succeed; a call to a collaborator raises a FlickrError
    or some other subclass of Exception; Ctrl-C is delivered during a
    [time.sleep], where the process spends its idle time.

    A title is a Python [str], a sequence of Unicode code points, and so
    is the file name made from it.  Identifiers, formats, URLs and
    messages are kept as strings whose units are characters below U+0100.
    The file system may refuse a name: [Path.exists] then raises OSError
    (on Linux, ENAMETOOLONG for a name of more than 255 bytes in UTF-8);
    whether it does depends on the name alone. *)

From Stdlib Require Import ZArith Ascii String List Bool Lia.
From stdpp Require Import base option list sorting gmap strings.

Import ListNotations.
Local Open Scope string_scope.
Local Open Scope Z_scope.

(** ** Python strings *)

Module PyStr.

(** A Python [str] as the sequence of its code points: [len], slices and
    the character classes of [re] count code points. *)
Abbreviation text := (list N).

(** The text of a string whose units are characters below U+0100. *)
Fixpoint of_string (s : string) : text :=
  match s with
  | EmptyString => []
  | String c s' => N_of_ascii c :: of_string s'
  end.

(** The number of bytes of a code point, and of a text, in UTF-8. *)
Definition utf8_units (c : N) : nat :=
  if (c <? 128)%N then 1%nat
  else if (c <? 2048)%N then 2%nat
  else if (c <? 65536)%N then 3%nat
  else 4%nat.

Fixpoint utf8_length (t : text) : nat :=
  match t with
  | [] => 0%nat
  | c :: t' => (utf8_units c + utf8_length t')%nat
  end.

Fixpoint map (f : ascii -> ascii) (s : string) : string :=
  match s with
  | EmptyString => EmptyString
  | String c s' => String (f c) (map f s')
  end.

(** Membership of a character in a string, [c in "..."]. *)
Fixpoint mem (c : ascii) (s : string) : bool :=
  match s with
  | EmptyString => false
  | String d s' => Ascii.eqb c d || mem c s'
  end.

Fixpoint starts_with (p s : string) : bool :=
  match p, s with
  | EmptyString, _ => true
  | String _ _, EmptyString => false
  | String a p', String b s' => Ascii.eqb a b && starts_with p' s'
  end.

(** [p in s] for strings. *)
Fixpoint contains (p s : string) : bool :=
  starts_with p s ||
  match s with
  | EmptyString => false
  | String _ s' => contains p s'
  end.

(** [str.lower] on the letters A-Z; the other characters are kept.  The
    only use in the program searches the result for ["not found"], whose
    letters have no other upper-case form. *)
Definition lower_char (c : ascii) : ascii :=
  let n := nat_of_ascii c in
  if (Nat.leb 65 n && Nat.leb n 90)%bool then ascii_of_nat (n + 32) else c.

Definition lower : string -> string := map lower_char.

(** Truthiness of a string: the empty string is false. *)
Definition truthy (s : string) : bool :=
  match s with EmptyString => false | String _ _ => true end.

End PyStr.

(** ** Catalogue entries *)

(** The value found under [photo['urls']['url']]. *)
Inductive urls_value :=
| UrlList (contents : list string)   (* a list of entries, each with its '_content' *)
| UrlScalar.                        (* anything that is not a list *)

(** One entry of [page_data['photos']['photo']].  A key that may be missing
    from the dict is an [option]. *)
Record Photo := {
  photo_id : string;
  title : option PyStr.text;
  url_o : option string;
  url_k : option string;
  url_h : option string;
  url_l : option string;
  url_c : option string;
  urls : option (option urls_value);  (* 'urls' present, then 'url' present in it *)
  originalformat : option string;
  media : option string
}.

(** ** Pure methods of [FlickrDownloader] *)

(** The nine characters of the class that [sanitize_filename] replaces:
    less-than, greater-than, colon, double quote, slash, backslash, bar,
    question mark and star. *)
Definition invalid_chars : PyStr.text :=
  [60; 62; 58; 34; 47; 92; 124; 63; 42]%N.

(** The code point of the underscore. *)
Definition underscore : N := 95%N.

Definition replace_invalid (c : N) : N :=
  if bool_decide (c ∈ invalid_chars) then underscore else c.

Definition sanitize_filename (filename : PyStr.text) : PyStr.text :=
  let filename := List.map replace_invalid filename in
  let filename := take 200 filename in
  filename.

Definition get_file_extension (photo : Photo) : string :=
  match originalformat photo with
  | Some fmt => fmt
  | None =>
      match media photo with
      | Some m => if String.eqb m "video" then "mp4" else "jpg"
      | None => "jpg"
      end
  end.

(** [title = photo.get('title', 'untitled')] *)
Definition title_of (photo : Photo) : PyStr.text :=
  match title photo with Some t => t | None => PyStr.of_string "untitled" end.

(** [f"{photo_id}_{safe_title}.{extension}"] *)
Definition filename_of (photo : Photo) : PyStr.text :=
  let safe_title := sanitize_filename (title_of photo) in
  let extension := get_file_extension photo in
  (PyStr.of_string (photo_id photo) ++ PyStr.of_string "_" ++ safe_title
   ++ PyStr.of_string "." ++ PyStr.of_string extension)%list.

Definition first_present (candidates : list (option string)) : option string :=
  List.fold_right (fun c rest => match c with Some u => Some u | None => rest end)
                  None candidates.

Definition get_download_url (photo : Photo) : option string :=
  match first_present [url_o photo; url_k photo; url_h photo; url_l photo; url_c photo] with
  | Some u => Some u
  | None =>
      match urls photo with
      | Some (Some (UrlList (u :: _))) => Some u
      | _ => None
      end
  end.

(** ** Exceptions and collaborators *)

Inductive exn :=
| FlickrError (msg : string)      (* flickrapi.exceptions.FlickrError, with its str() *)
| OtherException (msg : string)   (* any other subclass of Exception *)
| KeyboardInterrupt.              (* a BaseException that is not an Exception *)

(** What [except Exception] catches. *)
Definition is_Exception (e : exn) : bool :=
  match e with KeyboardInterrupt => false | _ => true end.

(** What [except flickrapi.exceptions.FlickrError] catches. *)
Definition is_FlickrError (e : exn) : bool :=
  match e with FlickrError _ => true | _ => false end.

Definition str (e : exn) : string :=
  match e with
  | FlickrError msg => msg
  | OtherException msg => msg
  | KeyboardInterrupt => EmptyString
  end.

(** A call to a collaborator answers or raises; what it raises on its own
    is a subclass of [Exception]. *)
Inductive failure :=
| ApiFailure (msg : string)         (* raised as FlickrError *)
| TransportFailure (msg : string).  (* raised as some other Exception *)

Definition exn_of (f : failure) : exn :=
  match f with
  | ApiFailure msg => FlickrError msg
  | TransportFailure msg => OtherException msg
  end.

Inductive reply (A : Type) :=
| Answer (a : A)
| Failure (f : failure).
Arguments Answer {A} a.
Arguments Failure {A} f.

(** A parsed response of the catalogue is kept as an opaque document. *)
Definition doc := string.

(** [flickr.people.getPhotos(...)['photos']] *)
Record PhotosPage := {
  total : Z;
  pages : Z;
  photo : list Photo
}.

(** What [requests.get] followed by the copy loop of [download_photo] does. *)
Inductive transfer :=
| TransferDone (body : string)
    (* every chunk was written *)
| TransferRefused (f : failure)
    (* requests.get or raise_for_status raised: the file was not opened *)
| TransferBroken (partial : string) (f : failure).
    (* iter_content raised after the file was opened and [partial] written *)

(** The collaborators.  The first argument of each oracle is the clock. *)
Record Env := {
  token_valid : nat -> string -> string -> reply bool;
  authenticate_via_browser : nat -> reply unit;
  test_login : nat -> reply (string * string);     (* user id, username *)
  getPhotos : nat -> option string -> Z -> reply PhotosPage;
  getInfo : nat -> string -> reply doc;
  getExif : nat -> string -> reply doc;
  getComments : nat -> string -> reply doc;
  requests_get : nat -> string -> transfer;
  interrupted : nat -> bool;  (* Ctrl-C arrives during the time.sleep made at that clock *)
  exists_error : PyStr.text -> option string
    (* the OSError that Path.exists raises for a file name, if the file
       system refuses the name *)
}.

(** ** Program data *)

(** The dict kept in [STATE_FILE]. *)
Record State := {
  last_page : Z;
  downloaded : list string;
  failed : list string
}.

(** [self.stats] *)
Module Stats.
Record t := {
  downloaded : Z;
  failed : Z;
  skipped : Z;
  total : Z
}.
Definition zero : t := {| downloaded := 0; failed := 0; skipped := 0; total := 0 |}.
End Stats.

(** The dict written by [save_metadata]; [None] is JSON null, and
    [list_info] is the key added by [download_library]. *)
Record Metadata := {
  info : doc;
  exif : option doc;
  comments : option doc;
  list_info : option Photo
}.

(** Messages, one constructor per call site of [self.log] and [print]. *)
Inductive message :=
| MsgRule | MsgStarting | MsgTargetDirectory
| MsgResuming (start_page : Z)
| MsgPreviously (n : nat)
| MsgFetchingList
| MsgTotalPhotos (n : Z)
| MsgTotalPages (n : Z)
| MsgDashes
| MsgProcessingPage (page total_pages : Z)
| MsgFound (n : nat)
| MsgSkippingProcessed (photo_id : string)
| MsgPhoto (progress total_photos : Z) (photo_id : string) (title : PyStr.text)
| MsgNoMetadata (photo_id : string)
| MsgNoUrl (photo_id : string)
| MsgPageComplete (page : Z)
| MsgCounters (s : Stats.t)
| MsgErrorOnPage (page : Z) (e : exn)
| MsgSavingState
| MsgDownloadComplete
| MsgSummaryTotal (n : Z) | MsgSummaryDownloaded (n : Z)
| MsgSummarySkipped (n : Z) | MsgSummaryFailed (n : Z)
| MsgPhotosSavedTo | MsgMetadataSavedTo
| MsgSkippingExisting (filename : PyStr.text)
| MsgDownloading (filename : PyStr.text)
| MsgSuccess (filename : PyStr.text)
| MsgDownloadFailed (filename : PyStr.text) (e : exn)
| MsgExifWarning (photo_id : string) (e : exn)
| MsgCommentsWarning (photo_id : string) (e : exn)
| MsgMetadataError (photo_id : string) (e : exn)
| MsgAuthenticating | MsgNoToken | MsgAuthenticated
| MsgLoggedIn (username user_id : string)
| MsgSetCredentials | MsgGetCredentials | MsgCredentialsUrl
| MsgInterrupted | MsgRunAgain
| MsgFatal (e : exn) | MsgTraceback (e : exn).

(** What the process does that can be observed from outside. *)
Inductive event :=
| EvPrint (m : message)            (* print: console only *)
| EvLog (m : message)              (* self.log: console and LOG_FILE *)
| EvMkdir (path : string)
| EvTokenValid | EvBrowser | EvLogin
| EvGetPhotos (page : Z)
| EvGetInfo (photo_id : string)
| EvGetExif (photo_id : string)
| EvGetComments (photo_id : string)
| EvRequestsGet (url : string)
| EvSleep (milliseconds : Z)
| EvLoadState
| EvSaveState (st : State)
| EvSaveMetadata (photo_id : string).

(** The process and the world it runs in. *)
Record Proc := {
  clock : nat;                          (* external calls made so far *)
  dirs : gset string;                   (* directories that exist *)
  photos_dir : gmap PyStr.text string;  (* files of PHOTOS_DIR, by name *)
  metadata_dir : gmap string Metadata;  (* files of METADATA_DIR, by photo id *)
  state_file : option State;            (* STATE_FILE, when it exists *)
  trace : list event;                   (* the events so far, the latest first *)
  user_id : option string;              (* self.user_id *)
  stats : Stats.t;                      (* self.stats *)
  state : State                         (* the dict [state] of download_library *)
}.

Definition set_clock (f : nat -> nat) (w : Proc) : Proc :=
  {| clock := f (clock w); dirs := dirs w; photos_dir := photos_dir w;
     metadata_dir := metadata_dir w; state_file := state_file w; trace := trace w;
     user_id := user_id w; stats := stats w; state := state w |}.
Definition set_dirs (f : gset string -> gset string) (w : Proc) : Proc :=
  {| clock := clock w; dirs := f (dirs w); photos_dir := photos_dir w;
     metadata_dir := metadata_dir w; state_file := state_file w; trace := trace w;
     user_id := user_id w; stats := stats w; state := state w |}.
Definition set_photos_dir (f : gmap PyStr.text string -> gmap PyStr.text string)
           (w : Proc) : Proc :=
  {| clock := clock w; dirs := dirs w; photos_dir := f (photos_dir w);
     metadata_dir := metadata_dir w; state_file := state_file w; trace := trace w;
     user_id := user_id w; stats := stats w; state := state w |}.
Definition set_metadata_dir (f : gmap string Metadata -> gmap string Metadata) (w : Proc) : Proc :=
  {| clock := clock w; dirs := dirs w; photos_dir := photos_dir w;
     metadata_dir := f (metadata_dir w); state_file := state_file w; trace := trace w;
     user_id := user_id w; stats := stats w; state := state w |}.
Definition set_state_file (f : option State -> option State) (w : Proc) : Proc :=
  {| clock := clock w; dirs := dirs w; photos_dir := photos_dir w;
     metadata_dir := metadata_dir w; state_file := f (state_file w); trace := trace w;
     user_id := user_id w; stats := stats w; state := state w |}.
Definition set_trace (f : list event -> list event) (w : Proc) : Proc :=
  {| clock := clock w; dirs := dirs w; photos_dir := photos_dir w;
     metadata_dir := metadata_dir w; state_file := state_file w; trace := f (trace w);
     user_id := user_id w; stats := stats w; state := state w |}.
Definition set_user_id (f : option string -> option string) (w : Proc) : Proc :=
  {| clock := clock w; dirs := dirs w; photos_dir := photos_dir w;
     metadata_dir := metadata_dir w; state_file := state_file w; trace := trace w;
     user_id := f (user_id w); stats := stats w; state := state w |}.
Definition set_stats (f : Stats.t -> Stats.t) (w : Proc) : Proc :=
  {| clock := clock w; dirs := dirs w; photos_dir := photos_dir w;
     metadata_dir := metadata_dir w; state_file := state_file w; trace := trace w;
     user_id := user_id w; stats := f (stats w); state := state w |}.
Definition set_state (f : State -> State) (w : Proc) : Proc :=
  {| clock := clock w; dirs := dirs w; photos_dir := photos_dir w;
     metadata_dir := metadata_dir w; state_file := state_file w; trace := trace w;
     user_id := user_id w; stats := stats w; state := f (state w) |}.

Definition set_last_page (p : Z) (st : State) : State :=
  {| last_page := p; downloaded := downloaded st; failed := failed st |}.
Definition append_downloaded (i : string) (st : State) : State :=
  {| last_page := last_page st; downloaded := downloaded st ++ [i]; failed := failed st |}.
Definition append_failed (i : string) (st : State) : State :=
  {| last_page := last_page st; downloaded := downloaded st; failed := failed st ++ [i] |}.

Definition count_downloaded (s : Stats.t) : Stats.t :=
  {| Stats.downloaded := Stats.downloaded s + 1; Stats.failed := Stats.failed s;
     Stats.skipped := Stats.skipped s; Stats.total := Stats.total s |}.
Definition count_failed (s : Stats.t) : Stats.t :=
  {| Stats.downloaded := Stats.downloaded s; Stats.failed := Stats.failed s + 1;
     Stats.skipped := Stats.skipped s; Stats.total := Stats.total s |}.
Definition count_skipped (s : Stats.t) : Stats.t :=
  {| Stats.downloaded := Stats.downloaded s; Stats.failed := Stats.failed s;
     Stats.skipped := Stats.skipped s + 1; Stats.total := Stats.total s |}.
Definition set_total (n : Z) (s : Stats.t) : Stats.t :=
  {| Stats.downloaded := Stats.downloaded s; Stats.failed := Stats.failed s;
     Stats.skipped := Stats.skipped s; Stats.total := n |}.

(** ** State and exceptions *)

Inductive outcome (A : Type) :=
| Return (a : A)
| Raise (e : exn).
Arguments Return {A} a.
Arguments Raise {A} e.

(** A statement runs in a process and leaves a process, also when it
    raises: what it changed before the exception stays changed. *)
Definition M (A : Type) : Type := Proc -> outcome A * Proc.

Definition ret {A} (a : A) : M A := fun w => (Return a, w).

Definition bind {A B} (m : M A) (k : A -> M B) : M B :=
  fun w =>
    match m w with
    | (Return a, w') => k a w'
    | (Raise e, w') => (Raise e, w')
    end.

Declare Scope py_scope.
Delimit Scope py_scope with py.
Notation "x <- m ;; k" := (bind m (fun x => k))
  (at level 100, m at next level, right associativity) : py_scope.
Notation "m ;; k" := (bind m (fun _ => k))
  (at level 100, right associativity) : py_scope.
Local Open Scope py_scope.

Definition gets {A} (f : Proc -> A) : M A := fun w => (Return (f w), w).
Definition modify (f : Proc -> Proc) : M unit := fun w => (Return tt, f w).

(** [try: body except C as e: handler e], where [catches] decides
    membership in the class [C]. *)
Definition try_except {A} (body : M A) (catches : exn -> bool) (handler : exn -> M A) : M A :=
  fun w =>
    match body w with
    | (Return a, w') => (Return a, w')
    | (Raise e, w') => if catches e then handler e w' else (Raise e, w')
    end.

(** [for x in l: body x] *)
Fixpoint for_each {A} (l : list A) (body : A -> M unit) : M unit :=
  match l with
  | [] => ret tt
  | x :: l' => body x;; for_each l' body
  end.

Definition when (b : bool) (m : M unit) : M unit := if b then m else ret tt.

(** [range(a, b)] *)
Definition range (a b : Z) : list Z :=
  List.map (fun k => a + Z.of_nat k) (seq 0 (Z.to_nat (b - a))).

(** [enumerate(l, start)] *)
Fixpoint enumerate {A} (start : Z) (l : list A) : list (Z * A) :=
  match l with
  | [] => []
  | x :: l' => (start, x) :: enumerate (start + 1) l'
  end.

Definition emit (e : event) : M unit := modify (set_trace (cons e)).
Definition log (m : message) : M unit := emit (EvLog m).
Definition print (m : message) : M unit := emit (EvPrint m).

(** A call to a collaborator: it is recorded, the clock advances, and the
    oracle's failure is raised as the exception it stands for. *)
Definition call {A} (ev : event) (oracle : nat -> reply A) : M A :=
  fun w =>
    let w' := set_clock S (set_trace (cons ev) w) in
    match oracle (clock w) with
    | Answer a => (Return a, w')
    | Failure f => (Raise (exn_of f), w')
    end.

(** ** Module-level configuration *)

Definition API_KEY : string := "YOUR_KEY".
Definition API_SECRET : string := "YOUR_SECRET".
Definition DOWNLOAD_DIR : string := "/YOURFOLDERPATH".
Definition METADATA_DIR : string := DOWNLOAD_DIR ++ "/metadata".
Definition PHOTOS_DIR : string := DOWNLOAD_DIR ++ "/photos".

(** [path.mkdir(exist_ok=True)] *)
Definition mkdir (path : string) : M unit :=
  emit (EvMkdir path);; modify (set_dirs (fun d => {[path]} ∪ d)).

(** The statements under [# Create directories], run when the module loads. *)
Definition create_directories : M unit :=
  mkdir DOWNLOAD_DIR;; mkdir METADATA_DIR;; mkdir PHOTOS_DIR.

(** ** FlickrDownloader *)

Section FlickrDownloader.

Variable env : Env.

(** [time.sleep], given in milliseconds. *)
Definition sleep (milliseconds : Z) : M unit :=
  fun w =>
    let w' := set_clock S (set_trace (cons (EvSleep milliseconds)) w) in
    if interrupted env (clock w) then (Raise KeyboardInterrupt, w') else (Return tt, w').

Definition authenticate (key secret : string) : M unit :=
  log MsgAuthenticating;;
  valid <- call EvTokenValid (fun t => token_valid env t key secret);;
  when (negb valid)
    (log MsgNoToken;; call EvBrowser (authenticate_via_browser env));;
  log MsgAuthenticated;;
  user_info <- call EvLogin (test_login env);;
  modify (set_user_id (fun _ => Some (fst user_info)));;
  log (MsgLoggedIn (snd user_info) (fst user_info)).

Definition load_state : M State :=
  emit EvLoadState;;
  gets (fun w =>
          match state_file w with
          | Some st => st
          | None => {| last_page := 0; downloaded := []; failed := [] |}
          end).

Definition save_state (st : State) : M unit :=
  emit (EvSaveState st);; modify (set_state_file (fun _ => Some st)).

(** An optional sub-query of [get_photo_metadata]: the inner try blocks. *)
Definition optional_query (ev : event) (oracle : nat -> reply doc)
           (warning : exn -> message) : M (option doc) :=
  try_except
    (d <- call ev oracle;; ret (Some d))
    is_FlickrError
    (fun e =>
       when (negb (PyStr.contains "not found" (PyStr.lower (str e))))
         (log (warning e));;
       ret None).

Definition get_photo_metadata (photo_id : string) : M (option Metadata) :=
  try_except
    (info <- call (EvGetInfo photo_id) (fun t => getInfo env t photo_id);;
     exif <- optional_query (EvGetExif photo_id) (fun t => getExif env t photo_id)
               (MsgExifWarning photo_id);;
     comments <- optional_query (EvGetComments photo_id)
                   (fun t => getComments env t photo_id)
                   (MsgCommentsWarning photo_id);;
     ret (Some {| info := info; exif := exif; comments := comments;
                  list_info := None |}))
    is_Exception
    (fun e => log (MsgMetadataError photo_id e);; ret None).

Definition save_metadata (photo_id : string) (metadata : Metadata) : M unit :=
  emit (EvSaveMetadata photo_id);;
  modify (set_metadata_dir (fun d => <[photo_id := metadata]> d)).

(** [filepath.exists()] for a file of PHOTOS_DIR: it raises the OSError
    of a name that the file system refuses. *)
Definition file_exists (filename : PyStr.text) : M bool :=
  fun w =>
    match exists_error env filename with
    | Some msg => (Raise (OtherException msg), w)
    | None =>
        (Return (match photos_dir w !! filename with Some _ => true | None => false end), w)
    end.

(** [requests.get], [raise_for_status] and the copy of the chunks. *)
Definition stream_to_file (url : string) (filename : PyStr.text) : M unit :=
  fun w =>
    let w' := set_clock S (set_trace (cons (EvRequestsGet url)) w) in
    match requests_get env (clock w) url with
    | TransferDone body =>
        (Return tt, set_photos_dir (fun d => <[filename := body]> d) w')
    | TransferRefused f =>
        (Raise (exn_of f), w')
    | TransferBroken partial f =>
        (Raise (exn_of f), set_photos_dir (fun d => <[filename := partial]> d) w')
    end.

Definition download_photo (photo_id url : string) (filename : PyStr.text) : M bool :=
  present <- file_exists filename;;
  if present then
    log (MsgSkippingExisting filename);;
    modify (set_stats count_skipped);;
    ret true
  else
    try_except
      (log (MsgDownloading filename);;
       stream_to_file url filename;;
       log (MsgSuccess filename);;
       modify (set_stats count_downloaded);;
       ret true)
      is_Exception
      (fun e =>
         log (MsgDownloadFailed filename e);;
         modify (set_stats count_failed);;
         ret false).

(** The end of the body of the loop over the photos of a page, from
    [# Get download URL] to [# Rate limiting]. *)
Definition fetch_and_checkpoint (page : Z) (photo : Photo) : M unit :=
  let url := get_download_url photo in
  match url with
  | Some u =>
      if PyStr.truthy u then
        let filename := filename_of photo in
        success <- download_photo (photo_id photo) u filename;;
        (* [success or PHOTOS_DIR.joinpath(filename).exists()] *)
        recorded <- (if success then ret true else file_exists filename);;
        if recorded
        then modify (set_state (append_downloaded (photo_id photo)))
        else modify (set_state (append_failed (photo_id photo)))
      else
        log (MsgNoUrl (photo_id photo));;
        modify (set_state (append_failed (photo_id photo)))
  | None =>
      log (MsgNoUrl (photo_id photo));;
      modify (set_state (append_failed (photo_id photo)))
  end;;
  modify (set_state (set_last_page page));;
  st <- gets state;;
  save_state st;;
  sleep 500.

(** The body of [for i, photo in enumerate(photos, 1)]. *)
Definition process_photo (page total_photos : Z) (entry : Z * Photo) : M unit :=
  let (i, photo) := entry in
  st <- gets state;;
  if decide (photo_id photo ∈ downloaded st) then
    log (MsgSkippingProcessed (photo_id photo))
  else
    let progress := Z.of_nat (length (downloaded st)) + i in
    log (MsgPhoto progress total_photos (photo_id photo) (title_of photo));;
    metadata <- get_photo_metadata (photo_id photo);;
    match metadata with
    | Some md =>
        save_metadata (photo_id photo)
          {| info := info md; exif := exif md; comments := comments md;
             list_info := Some photo |}
    | None => log (MsgNoMetadata (photo_id photo))
    end;;
    fetch_and_checkpoint page photo.

(** The body of [for page in range(start_page, total_pages + 1)]. *)
Definition process_page (start_page : Z) (first_page : PhotosPage) (page : Z) : M unit :=
  log MsgDashes;;
  log (MsgProcessingPage page (pages first_page));;
  try_except
    (page_data <-
       (if ((page =? 1) && (start_page =? 1))%bool then ret first_page
        else uid <- gets user_id;;
             call (EvGetPhotos page) (fun t => getPhotos env t uid page));;
     let photos := photo page_data in
     log (MsgFound (length photos));;
     for_each (enumerate 1 photos) (process_photo page (total first_page));;
     log (MsgPageComplete page);;
     s <- gets stats;;
     log (MsgCounters s))
    is_Exception
    (fun e =>
       log (MsgErrorOnPage page e);;
       log MsgSavingState;;
       modify (set_state (set_last_page (page - 1)));;
       st <- gets state;;
       save_state st;;
       sleep 5000).

Definition download_library : M unit :=
  log MsgRule;; log MsgStarting;; log MsgTargetDirectory;; log MsgRule;;
  st <- load_state;;
  modify (set_state (fun _ => st));;
  let start_page := last_page st + 1 in
  when (1 <? start_page)
    (log (MsgResuming start_page);;
     log (MsgPreviously (length (downloaded st))));;
  log MsgFetchingList;;
  uid <- gets user_id;;
  first_page <- call (EvGetPhotos 1) (fun t => getPhotos env t uid 1);;
  log (MsgTotalPhotos (total first_page));;
  log (MsgTotalPages (pages first_page));;
  modify (set_stats (set_total (total first_page)));;
  for_each (range start_page (pages first_page + 1))
           (process_page start_page first_page);;
  s <- gets stats;;
  log MsgRule;; log MsgDownloadComplete;;
  log (MsgSummaryTotal (Stats.total s));;
  log (MsgSummaryDownloaded (Stats.downloaded s));;
  log (MsgSummarySkipped (Stats.skipped s));;
  log (MsgSummaryFailed (Stats.failed s));;
  log MsgPhotosSavedTo;; log MsgMetadataSavedTo;; log MsgRule.

(** [main], which returns the exit status of the process.  The imports
    of flickrapi and requests are repeated from the top of the module,
    where they succeeded, so the second check cannot fail. *)
Definition main (key secret : string) : M Z :=
  if (String.eqb key "YOUR_API_KEY_HERE" || String.eqb secret "YOUR_API_SECRET_HERE")%bool
  then
    print MsgSetCredentials;; print MsgGetCredentials;; print MsgCredentialsUrl;;
    ret 1
  else
    modify (set_user_id (fun _ => None));;
    modify (set_stats (fun _ => Stats.zero));;
    fun w =>
      match (authenticate key secret;; download_library) w with
      | (Return _, w') => (Return 0, w')
      | (Raise KeyboardInterrupt, w') =>
          (log MsgInterrupted;; log MsgRunAgain;; ret 0) w'
      | (Raise e, w') =>
          (log (MsgFatal e);; log (MsgTraceback e);; ret 1) w'
      end.

(** Running the file as a script: the module body, then [main]. *)
Definition script (key secret : string) : M Z :=
  create_directories;; main key secret.

End FlickrDownloader.

(** A catalogue entry that carries only an identifier, a title and a
    declared format. *)
Definition plain_photo (i : string) (t : PyStr.text) (fmt : string) : Photo :=
  {| photo_id := i; title := Some t; url_o := None; url_k := None; url_h := None;
     url_l := None; url_c := None; urls := None; originalformat := Some fmt;
     media := None |}.

(** ** Concrete worlds *)

(** A process that starts on an empty disk. *)
Definition fresh : Proc :=
  {| clock := 0; dirs := ∅; photos_dir := ∅; metadata_dir := ∅;
     state_file := None; trace := []; user_id := None; stats := Stats.zero;
     state := {| last_page := 0; downloaded := []; failed := [] |} |}.

(** The file system of a Linux host: a name of more than 255 bytes is
    refused with ENAMETOOLONG. *)
Definition name_too_long (name : PyStr.text) : option string :=
  if (255 <? PyStr.utf8_length name)%nat
  then Some "[Errno 36] File name too long"
  else None.

(** A listed photo with an original-size URL, or with none of the URL keys. *)
Definition listed (i : string) (with_url : bool) : Photo :=
  {| photo_id := i; title := Some (PyStr.of_string ("photo " ++ i));
     url_o := if with_url then Some ("https://live.example/" ++ i ++ "_o.jpg") else None;
     url_k := None; url_h := None; url_l := None; url_c := None; urls := None;
     originalformat := Some "jpg"; media := Some "photo" |}.

(** A service in good health that lists [catalogue page] on each page. *)
Definition service (n_photos n_pages : Z) (catalogue : Z -> list Photo) : Env :=
  {| token_valid := fun _ _ _ => Answer true;
     authenticate_via_browser := fun _ => Answer tt;
     test_login := fun _ => Answer ("12345@N00", "owner");
     getPhotos := fun _ _ page =>
       Answer {| total := n_photos; pages := n_pages; photo := catalogue page |};
     getInfo := fun _ i => Answer ("info of " ++ i);
     getExif := fun _ i => Answer ("exif of " ++ i);
     getComments := fun _ i => Answer ("comments of " ++ i);
     requests_get := fun _ url => TransferDone ("bytes of " ++ url);
     interrupted := fun _ => false;
     exists_error := name_too_long |}.

(** The same service with one collaborator replaced. *)
Definition with_getPhotos (f : nat -> option string -> Z -> reply PhotosPage) (env : Env) : Env :=
  {| token_valid := token_valid env;
     authenticate_via_browser := authenticate_via_browser env;
     test_login := test_login env; getPhotos := f; getInfo := getInfo env;
     getExif := getExif env; getComments := getComments env;
     requests_get := requests_get env; interrupted := interrupted env;
     exists_error := exists_error env |}.

Definition with_getExif (f : nat -> string -> reply doc) (env : Env) : Env :=
  {| token_valid := token_valid env;
     authenticate_via_browser := authenticate_via_browser env;
     test_login := test_login env; getPhotos := getPhotos env; getInfo := getInfo env;
     getExif := f; getComments := getComments env;
     requests_get := requests_get env; interrupted := interrupted env;
     exists_error := exists_error env |}.

Definition with_getComments (f : nat -> string -> reply doc) (env : Env) : Env :=
  {| token_valid := token_valid env;
     authenticate_via_browser := authenticate_via_browser env;
     test_login := test_login env; getPhotos := getPhotos env; getInfo := getInfo env;
     getExif := getExif env; getComments := f;
     requests_get := requests_get env; interrupted := interrupted env;
     exists_error := exists_error env |}.

Definition with_requests_get (f : nat -> string -> transfer) (env : Env) : Env :=
  {| token_valid := token_valid env;
     authenticate_via_browser := authenticate_via_browser env;
     test_login := test_login env; getPhotos := getPhotos env; getInfo := getInfo env;
     getExif := getExif env; getComments := getComments env;
     requests_get := f; interrupted := interrupted env;
     exists_error := exists_error env |}.

Definition with_interrupted (f : nat -> bool) (env : Env) : Env :=
  {| token_valid := token_valid env;
     authenticate_via_browser := authenticate_via_browser env;
     test_login := test_login env; getPhotos := getPhotos env; getInfo := getInfo env;
     getExif := getExif env; getComments := getComments env;
     requests_get := requests_get env; interrupted := f;
     exists_error := exists_error env |}.

(** The end-to-end scenario of the spec: three items on two pages, the
    second item without any URL.  Both ways of cutting the pages. *)
Definition two_then_one (page : Z) : list Photo :=
  if page =? 1 then [listed "1" true; listed "2" false]
  else if page =? 2 then [listed "3" true]
  else [].

Definition one_then_two (page : Z) : list Photo :=
  if page =? 1 then [listed "1" true]
  else if page =? 2 then [listed "2" false; listed "3" true]
  else [].

Definition single_photo (page : Z) : list Photo :=
  if page =? 1 then [listed "1" true] else [].

(** A service whose transfers all break after the first bytes were written. *)
Definition breaking_service (catalogue : Z -> list Photo) (n_photos n_pages : Z) : Env :=
  with_requests_get
    (fun _ _ => TransferBroken "first bytes" (TransportFailure "connection reset by peer"))
    (service n_photos n_pages catalogue).

(** A service whose optional sub-queries answer as given. *)
Definition service_with_metadata (exif_reply comments_reply : reply doc) : Env :=
  with_getComments (fun _ _ => comments_reply)
    (with_getExif (fun _ _ => exif_reply) (service 1 1 single_photo)).

Definition one_per_page (page : Z) : list Photo :=
  if (1 <=? page) && (page <=? 5) then
    [listed (String (ascii_of_nat (48 + Z.to_nat page)) EmptyString) true]
  else [].

(** Five pages of one photo each; the request for page 3 made at clock
    [outage] fails, and the same request made at any other time succeeds. *)
Definition service_with_outage (outage : nat) : Env :=
  with_getPhotos
    (fun t _ page =>
       if (page =? 3) && Nat.eqb t outage
       then Failure (TransportFailure "503 Service Unavailable")
       else Answer {| total := 5; pages := 5; photo := one_per_page page |})
    (service 5 5 one_per_page).

Definition two_on_one_page (page : Z) : list Photo :=
  if page =? 1 then [listed "1" true; listed "2" true] else [].

(** One page of two photos; Ctrl-C arrives during the sleep made at clock
    [at_clock]. *)
Definition service_interrupted (at_clock : nat) : Env :=
  with_interrupted (fun t => Nat.eqb t at_clock) (service 2 1 two_on_one_page).

(** Two pages that list the same photo: the listing moved by one entry
    between the two requests.  The transfer requested at clock [refused]
    fails before anything is written; every other transfer succeeds. *)
Definition service_relisting (refused : nat) : Env :=
  with_requests_get
    (fun t url =>
       if Nat.eqb t refused then TransferRefused (TransportFailure "Read timed out")
       else TransferDone ("bytes of " ++ url))
    (service 2 2 (fun page => if (1 <=? page) && (page <=? 2)
                              then [listed "1" true] else [])).

(** ** Processes and statements named in the properties *)

Definition called (ev : event) (w : Proc) : Proc :=
  set_clock S (set_trace (cons ev) w).

Definition logged (m : message) (w : Proc) : Proc :=
  set_trace (cons (EvLog m)) w.

(** What the script does when [main] finds a placeholder credential. *)
Definition aborted_at_start (w : Proc) : Proc :=
  set_trace (fun t => [EvPrint MsgCredentialsUrl; EvPrint MsgGetCredentials;
                       EvPrint MsgSetCredentials; EvMkdir PHOTOS_DIR;
                       EvMkdir METADATA_DIR; EvMkdir DOWNLOAD_DIR] ++ t)%list
    (set_dirs (fun d => {[PHOTOS_DIR]} ∪ ({[METADATA_DIR]} ∪ ({[DOWNLOAD_DIR]} ∪ d))) w).

(** What [fetch_and_checkpoint] does once the identifier has been appended
    to one of the two lists. *)
Definition checkpoint (env : Env) (page : Z) : M unit :=
  modify (set_state (set_last_page page));;
  st <- gets state;;
  save_state st;;
  sleep env 500.

(** What an optional sub-query leaves in the document. *)
Definition answered (r : reply doc) : option doc :=
  match r with Answer d => Some d | Failure _ => None end.

(** Whether the sub-query failed with something else than a FlickrError. *)
Definition transport (r : reply doc) : bool :=
  match r with Failure (TransportFailure _) => true | _ => false end.

(** The warning that a failed optional sub-query adds to the log. *)
Definition warning_of (warning : exn -> message) (r : reply doc) : list event :=
  match r with
  | Failure (ApiFailure msg) =>
      if PyStr.contains "not found" (PyStr.lower msg) then []
      else [EvLog (warning (FlickrError msg))]
  | _ => []
  end.

(** [download_library] once the checkpoint has been loaded into [state]. *)
Definition resume (env : Env) (st : State) : M unit :=
  let start_page := last_page st + 1 in
  when (1 <? start_page)
    (log (MsgResuming start_page);;
     log (MsgPreviously (length (downloaded st))));;
  log MsgFetchingList;;
  uid <- gets user_id;;
  first_page <- call (EvGetPhotos 1) (fun t => getPhotos env t uid 1);;
  log (MsgTotalPhotos (total first_page));;
  log (MsgTotalPages (pages first_page));;
  modify (set_stats (set_total (total first_page)));;
  for_each (range start_page (pages first_page + 1))
           (process_page env start_page first_page);;
  s <- gets stats;;
  log MsgRule;; log MsgDownloadComplete;;
  log (MsgSummaryTotal (Stats.total s));;
  log (MsgSummaryDownloaded (Stats.downloaded s));;
  log (MsgSummarySkipped (Stats.skipped s));;
  log (MsgSummaryFailed (Stats.failed s));;
  log MsgPhotosSavedTo;; log MsgMetadataSavedTo;; log MsgRule.

(** The checkpoint that a process would load. *)
Definition on_disk (w : Proc) : State :=
  match state_file w with
  | Some st => st
  | None => {| last_page := 0; downloaded := []; failed := [] |}
  end.

(** The process once the banner is logged and the checkpoint loaded. *)
Definition loaded (w : Proc) : Proc :=
  set_state (fun _ => on_disk w)
    (set_trace (fun t => EvLoadState :: EvLog MsgRule :: EvLog MsgTargetDirectory
                         :: EvLog MsgStarting :: EvLog MsgRule :: t) w).

(** The log lines that announce a resumed run. *)
Definition announced (st : State) (w : Proc) : Proc :=
  logged MsgFetchingList
    (if 1 <? last_page st + 1
     then logged (MsgPreviously (length (downloaded st)))
                 (logged (MsgResuming (last_page st + 1)) w)
     else w).

(** The process when the loop over the pages starts. *)
Definition counted (fp : PhotosPage) (w : Proc) : Proc :=
  set_stats (set_total (total fp))
    (logged (MsgTotalPages (pages fp))
       (logged (MsgTotalPhotos (total fp)) (called (EvGetPhotos 1) w))).

(** The final summary. *)
Definition summarized (w : Proc) : Proc :=
  let s := stats w in
  logged MsgRule (logged MsgMetadataSavedTo (logged MsgPhotosSavedTo
    (logged (MsgSummaryFailed (Stats.failed s))
      (logged (MsgSummarySkipped (Stats.skipped s))
        (logged (MsgSummaryDownloaded (Stats.downloaded s))
          (logged (MsgSummaryTotal (Stats.total s))
            (logged MsgDownloadComplete (logged MsgRule w)))))))).

(** ** Observations on the trace *)

(** The events of a process in the order in which they happened. *)
Definition chronological (w : Proc) : list event := rev (trace w).

Definition pages_requested (es : list event) : list Z :=
  omap (fun e => match e with EvGetPhotos page => Some page | _ => None end) es.

Definition page_errors (es : list event) : list (Z * exn) :=
  omap (fun e => match e with
                 | EvLog (MsgErrorOnPage page e) => Some (page, e)
                 | _ => None
                 end) es.

Definition pauses (es : list event) : list Z :=
  omap (fun e => match e with EvSleep ms => Some ms | _ => None end) es.

Definition checkpoints_saved (es : list event) : list State :=
  omap (fun e => match e with EvSaveState st => Some st | _ => None end) es.

Definition transfers_requested (es : list event) : list string :=
  omap (fun e => match e with EvRequestsGet url => Some url | _ => None end) es.

Definition items_attempted (es : list event) : list string :=
  omap (fun e => match e with EvLog (MsgPhoto _ _ i _) => Some i | _ => None end) es.

(** The events between [w] and [w'], in the order in which they happened. *)
Definition events_between (w w' : Proc) (new : list event) : Prop :=
  trace w' = (rev new ++ trace w)%list.

(** ** Relations between the processes before and after a statement *)

(** Whatever its outcome, the statement takes a process to a related one. *)
Definition relates (R : Proc -> Proc -> Prop) {A} (m : M A) : Prop :=
  forall w, R w (snd (m w)).

Definition quietly (w w' : Proc) : Prop :=
  (exists new, events_between w w' new
               /\ checkpoints_saved new = [] /\ items_attempted new = [])
  /\ state w' = state w
  /\ state_file w' = state_file w
  /\ user_id w' = user_id w.

Definition quiet {A} (m : M A) : Prop := relates quietly m.

(** An event that is neither a saved checkpoint nor the start of an item. *)
Definition plain (e : event) : Prop :=
  checkpoints_saved [e] = [] /\ items_attempted [e] = [].

(** The service never delivers Ctrl-C. *)
Definition never_interrupted (env : Env) : Prop :=
  forall t, interrupted env t = false.

(** The identifier joins one of the two lists, the page number is
    written, and the checkpoint is saved. *)
Definition attempt_recorded (page : Z) (i : string) (st st' : State) : Prop :=
  st' = set_last_page page (append_downloaded i st)
  \/ st' = set_last_page page (append_failed i st).

(** Both lists of [b] extend those of [a]. *)
Definition grows (a b : State) : Prop :=
  downloaded a `prefix_of` downloaded b /\ failed a `prefix_of` failed b.

(** No identifier is in both lists. *)
Definition disjoint_lists (st : State) : Prop :=
  forall x, x ∈ downloaded st -> x ∉ failed st.

(** How the checkpoint evolves between two points of a run: the states
    saved in between, in order, each extend the ones before; an identifier
    enters the failed list only by being attempted; disjointness is kept as
    long as the attempted identifiers are distinct and were not in the
    failed list; the file holds the last state saved. *)
Definition journal (w w' : Proc) : Prop :=
  exists new,
    events_between w w' new
    /\ StronglySorted grows (state w :: checkpoints_saved new ++ [state w'])
    /\ (forall x, x ∈ failed (state w') ->
                  x ∈ failed (state w) \/ x ∈ items_attempted new)
    /\ (disjoint_lists (state w) -> NoDup (items_attempted new) ->
        (forall x, x ∈ items_attempted new -> x ∉ failed (state w)) ->
        Forall disjoint_lists (checkpoints_saved new ++ [state w']))
    /\ state_file w' = from_option Some (state_file w) (last (checkpoints_saved new))
    /\ user_id w' = user_id w.

Definition keeps_journal {A} (m : M A) : Prop := relates journal m.



(** The answer of the listing for a page, whenever it is asked. *)
Definition listing (env : Env) (uid : option string) (page : Z) : reply PhotosPage :=
  getPhotos env 0 uid page.

(** Every photo that the page lists is in the complete list [D]. *)
Definition page_skips (env : Env) (uid : option string) (D : list string) (page : Z) : Prop :=
  exists pg, listing env uid page = Answer pg
             /\ forall ph, ph ∈ photo pg -> photo_id ph ∈ D.



(** ** Notions used by the further properties *)

(** The title has none of the nine replaced characters. *)
Definition clean_title (t : PyStr.text) : Prop :=
  forall c, c ∈ invalid_chars -> c ∉ t.

(** The URLs that a catalogue entry offers, the best first. *)
Definition candidate_urls (p : Photo) : list string :=
  (omap (fun c => c) [url_o p; url_k p; url_h p; url_l p; url_c p]
   ++ match urls p with
      | Some (Some (UrlList l)) => l
      | _ => []
      end)%list.

(** The statement lets no exception out but KeyboardInterrupt. *)
Definition only_interrupt {A} (m : M A) : Prop :=
  forall w e, fst (m w) = Raise e -> e = KeyboardInterrupt.

(** The process when [main] has built its [FlickrDownloader]. *)
Definition constructed (w : Proc) : Proc :=
  set_stats (fun _ => Stats.zero) (set_user_id (fun _ => None) w).

(** Whether [main] finds one of its two placeholders. *)
Definition placeholder (key secret : string) : bool :=
  (String.eqb key "YOUR_API_KEY_HERE" || String.eqb secret "YOUR_API_SECRET_HERE")%bool.

(** A service that rejects the API key. *)
Definition service_rejecting_key : Env :=
  {| token_valid := fun _ _ _ => Failure (ApiFailure "Error: 100: Invalid API Key");
     authenticate_via_browser := fun _ => Answer tt;
     test_login := fun _ => Answer ("12345@N00", "owner");
     getPhotos := fun _ _ page =>
       Answer {| total := 0; pages := 0; photo := [] |};
     getInfo := fun _ i => Answer ("info of " ++ i);
     getExif := fun _ i => Answer ("exif of " ++ i);
     getComments := fun _ i => Answer ("comments of " ++ i);
     requests_get := fun _ url => TransferDone ("bytes of " ++ url);
     interrupted := fun _ => false;
     exists_error := name_too_long |}.

(** A service on which everything fails but the login and the first
    listing request. *)
Definition service_mostly_down : Env :=
  {| token_valid := fun _ _ _ => Answer true;
     authenticate_via_browser := fun _ => Answer tt;
     test_login := fun _ => Answer ("12345@N00", "owner");
     getPhotos := fun t _ page =>
       if Nat.eqb t 2
       then Answer {| total := 3; pages := 2; photo := two_then_one page |}
       else Failure (TransportFailure "503 Service Unavailable");
     getInfo := fun _ _ => Failure (ApiFailure "Error: 105: Service currently unavailable");
     getExif := fun _ _ => Failure (TransportFailure "Read timed out");
     getComments := fun _ _ => Failure (TransportFailure "Read timed out");
     requests_get := fun _ _ => TransferRefused (TransportFailure "Read timed out");
     interrupted := fun _ => false;
     exists_error := name_too_long |}.

(** A service whose listing is down. *)
Definition service_listing_down : Env :=
  with_getPhotos (fun _ _ _ => Failure (TransportFailure "503 Service Unavailable"))
                 (service 3 2 two_then_one).

(** Between [w] and [w'] the files and the checkpoint stayed as they were,
    and the process asked for no listing, attempted no item, transferred
    nothing and saved no checkpoint. *)
Definition untouched (w w' : Proc) : Prop :=
  photos_dir w' = photos_dir w
  /\ metadata_dir w' = metadata_dir w
  /\ state_file w' = state_file w
  /\ exists new, events_between w w' new
                 /\ pages_requested new = [] /\ transfers_requested new = []
                 /\ checkpoints_saved new = [] /\ items_attempted new = [].

(** The end of the handler of a page error: the last page is set back,
    the checkpoint saved, and the process sleeps five seconds. *)
Definition rollback (env : Env) (page : Z) : M unit :=
  modify (set_state (set_last_page (page - 1)));;
  st <- gets state;;
  save_state st;;
  sleep env 5000.

(** What a stretch of a run does to the files and the counters, where
    [I] holds of the identifiers that it may work on: photo files are only
    added; a metadata file is written only for an identifier of [I], with
    the listing entry of that item in it; only identifiers of [I] are
    attempted; and every transfer requested is counted once, as a download
    or as a failure. *)
Definition books (I : string -> Prop) (w w' : Proc) : Prop :=
  photos_dir w ⊆ photos_dir w'
  /\ (forall i, metadata_dir w' !! i = metadata_dir w !! i
                \/ (I i /\ exists md p, metadata_dir w' !! i = Some md
                                        /\ list_info md = Some p /\ photo_id p = i))
  /\ Stats.skipped (stats w) <= Stats.skipped (stats w')
  /\ exists new,
       events_between w w' new
       /\ (forall x, x ∈ items_attempted new -> I x)
       /\ Z.of_nat (length (transfers_requested new))
          = Stats.downloaded (stats w') - Stats.downloaded (stats w)
            + (Stats.failed (stats w') - Stats.failed (stats w)).

(** The same along a run, where the identifiers worked on are those that
    are not in the complete list. *)
Definition run_books (w w' : Proc) : Prop :=
  downloaded (state w) `prefix_of` downloaded (state w')
  /\ books (fun i => i ∉ downloaded (state w)) w w'.

(** A process with a checkpoint on disk and nothing else. *)
Definition checkpointed : Proc :=
  set_state_file
    (fun _ => Some {| last_page := 1; downloaded := ["1"]; failed := ["2"] |}) fresh.

(** The pages whose listing was requested between [w] and [w'] are those
    of [l], in that order. *)
Definition requests (l : list Z) (w w' : Proc) : Prop :=
  exists new, events_between w w' new /\ pages_requested new = l.

(** The first page that a run started at [start_page] requests in its
    loop: page 1 is not requested again by a run that starts there. *)
Definition first_requested (start_page : Z) : Z :=
  if start_page =? 1 then 2 else start_page.

(** The entry has a URL: its file is looked for in the photo directory. *)
Definition has_url (p : Photo) : bool :=
  match get_download_url p with Some u => PyStr.truthy u | None => false end.

(** The attempt of the entry reaches its checkpoint: the entry has no URL,
    or the file system accepts its file name. *)
Definition recordable (env : Env) (p : Photo) : Prop :=
  has_url p = true -> exists_error env (filename_of p) = None.

(** The file system accepts the name of every photo that the listing
    returns. *)
Definition names_accepted (env : Env) : Prop :=
  forall t uid page pg ph,
    getPhotos env t uid page = Answer pg -> ph ∈ photo pg ->
    exists_error env (filename_of ph) = None.




(** * Properties *)

(** ** Filenames *)

Lemma of_string_length (s : string) : length (PyStr.of_string s) = String.length s.
Proof. induction s as [|c s IH]; simpl; [reflexivity | now rewrite IH]. Qed.

Lemma replace_invalid_valid (c : N) : replace_invalid c ∉ invalid_chars.
Proof.
  unfold replace_invalid. destruct (bool_decide (c ∈ invalid_chars)) eqn:E.
  - unfold underscore, invalid_chars. intros H.
    apply (bool_decide_pack _) in H. vm_compute in H. exact H.
  - apply bool_decide_eq_false in E. exact E.
Qed.

Lemma sanitize_filename_length (t : PyStr.text) :
  length (sanitize_filename t) = Nat.min 200 (length t).
Proof. unfold sanitize_filename. rewrite length_take, length_map. reflexivity. Qed.

Lemma sanitize_filename_lookup (t : PyStr.text) (k : nat) (c : N) :
  (k < 200)%nat -> t !! k = Some c ->
  sanitize_filename t !! k = Some (replace_invalid c).
Proof.
  intros Hk Hc. unfold sanitize_filename. cbv zeta.
  rewrite lookup_take_lt by exact Hk.
  change (List.map replace_invalid t) with (replace_invalid <$> t).
  rewrite list_lookup_fmap, Hc. reflexivity.
Qed.

Lemma sanitize_filename_clean (c : N) (t : PyStr.text) :
  c ∈ invalid_chars -> c ∉ sanitize_filename t.
Proof.
  intros Hc H. unfold sanitize_filename in H. cbv zeta in H.
  apply elem_of_take in H as (k & H & _).
  change (List.map replace_invalid t) with (replace_invalid <$> t) in H.
  rewrite list_lookup_fmap in H.
  destruct (t !! k) as [d|]; [|discriminate]. injection H as <-.
  exact (replace_invalid_valid d Hc).
Qed.

(** C8, as the spec words it, fails on the example it gives: the blank and
    the exclamation mark are not in the class of replaced characters, so the
    name of photo 123 titled "My Trip!" keeps both. *)
Lemma example_filename_keeps_blank_and_bang :
  filename_of (plain_photo "123" (PyStr.of_string "My Trip!") "jpg") = (PyStr.of_string "123_My Trip!.jpg")
  /\ filename_of (plain_photo "123" (PyStr.of_string "My Trip!") "jpg") <> (PyStr.of_string "123_My_Trip_.jpg").
Proof. split; [reflexivity | discriminate]. Qed.

(** C8 (amended): the destination name is a function of the catalogue entry
    alone (no process state enters it): identifier, underscore, sanitized
    title, dot, declared format.  The sanitized title is the title cut
    after its first 200 code points, in which each of the nine characters
    less-than, greater-than, colon, double quote, slash, backslash, bar,
    question mark and star (code points 60, 62, 58, 34, 47, 92, 124, 63 and
    42) is replaced by the underscore (code point 95) and every other
    character is kept, so the name has at most 202 characters more than
    identifier and format together; for identifier 123, title "My Trip!"
    and format "jpg" it is [123_My Trip!.jpg]. *)
Theorem filename_deterministic :
  (forall i t uo uk uh ul uc us fmt m,
      filename_of {| photo_id := i; title := Some t; url_o := uo; url_k := uk;
                     url_h := uh; url_l := ul; url_c := uc; urls := us;
                     originalformat := Some fmt; media := m |}
      = (PyStr.of_string i ++ PyStr.of_string "_" ++ sanitize_filename t
         ++ PyStr.of_string "." ++ PyStr.of_string fmt)%list)
  /\ (forall t, length (sanitize_filename t) = Nat.min 200 (length t))
  /\ (forall t k c,
         (k < 200)%nat -> t !! k = Some c ->
         sanitize_filename t !! k
         = Some (if bool_decide (c ∈ [60; 62; 58; 34; 47; 92; 124; 63; 42]%N)
                 then 95%N else c))
  /\ (forall i t fmt,
         (length (filename_of (plain_photo i t fmt))
          <= String.length i + String.length fmt + 202)%nat)
  /\ filename_of (plain_photo "123" (PyStr.of_string "My Trip!") "jpg") = (PyStr.of_string "123_My Trip!.jpg").
Proof.
  split; [reflexivity|].
  split; [apply sanitize_filename_length|].
  split; [intros t k c Hk Hc; apply (sanitize_filename_lookup t k c Hk Hc)|].
  split; [|reflexivity].
  intros i t fmt. unfold filename_of, plain_photo, title_of, get_file_extension.
  cbn [photo_id title originalformat]. cbv zeta.
  rewrite !length_app, !of_string_length, sanitize_filename_length.
  change (String.length "_") with 1%nat. change (String.length ".") with 1%nat. lia.
Qed.

Lemma filename_deterministic_witness :
  sanitize_filename (repeat 233%N 150 ++ PyStr.of_string "a/b") !! 151%nat = Some 95%N.
Proof.
  apply (proj1 (proj2 (proj2 filename_deterministic))
           (repeat 233%N 150 ++ PyStr.of_string "a/b")%list 151%nat 47%N);
    [lia | reflexivity].
Defined.

(** ** The end-to-end scenario *)

(** C4: in the scenario of the spec the run ends with item 2 in the failed
    list, items 1 and 3 in the complete list and last page 2, as claimed,
    but the statistics count no failure: only [download_photo] increments
    the failed counter, and an item without URL never reaches it. *)
Theorem end_to_end_scenario_counts_no_failure :
  forall catalogue, catalogue = two_then_one \/ catalogue = one_then_two ->
  let (r, w) := script (service 3 2 catalogue) "key" "secret" fresh in
  r = Return 0
  /\ state_file w = Some {| last_page := 2; downloaded := ["1"; "3"]; failed := ["2"] |}
  /\ stats w = {| Stats.downloaded := 2; Stats.failed := 0;
                  Stats.skipped := 0; Stats.total := 3 |}
  /\ Stats.failed (stats w) <> 1.
Proof.
  intros catalogue [-> | ->]; vm_compute; repeat split; discriminate.
Qed.

Lemma end_to_end_scenario_witness :
  let (r, w) := script (service 3 2 two_then_one) "key" "secret" fresh in
  r = Return 0
  /\ state_file w = Some {| last_page := 2; downloaded := ["1"; "3"]; failed := ["2"] |}
  /\ stats w = {| Stats.downloaded := 2; Stats.failed := 0;
                  Stats.skipped := 0; Stats.total := 3 |}
  /\ Stats.failed (stats w) <> 1.
Proof.
  apply (end_to_end_scenario_counts_no_failure two_then_one). left; reflexivity.
Defined.

(** ** Start of the process *)

Lemma script_placeholder (env : Env) (key secret : string) (w : Proc) :
  key = "YOUR_API_KEY_HERE" \/ secret = "YOUR_API_SECRET_HERE" ->
  script env key secret w = (Return 1, aborted_at_start w).
Proof.
  intros H. unfold script, main.
  assert (E : (String.eqb key "YOUR_API_KEY_HERE"
               || String.eqb secret "YOUR_API_SECRET_HERE")%bool = true).
  { destruct H as [-> | ->]; rewrite String.eqb_refl; [reflexivity | apply orb_true_r]. }
  rewrite E. reflexivity.
Qed.

Lemma download_dir_created (w : Proc) : DOWNLOAD_DIR ∈ dirs (aborted_at_start w).
Proof. unfold aborted_at_start; simpl. set_solver. Qed.

(** C9, as the spec words it, fails: the three directories are made when
    the module loads, before [main] looks at the credentials. *)
Lemma directories_created_before_credentials_check :
  let (r, w) := script (service 0 0 (fun _ => [])) "YOUR_API_KEY_HERE"
                       "YOUR_API_SECRET_HERE" fresh in
  r = Return 1
  /\ DOWNLOAD_DIR ∈ dirs w
  /\ dirs w <> dirs fresh.
Proof.
  rewrite script_placeholder by (left; reflexivity).
  split; [reflexivity|].
  pose proof (download_dir_created fresh) as H.
  split; [exact H|].
  intros E. rewrite E in H. simpl in H. set_solver.
Qed.

(** C9 (amended): when the key is the placeholder YOUR_API_KEY_HERE or the
    secret is the placeholder YOUR_API_SECRET_HERE, the script prints its
    three lines and exits with status 1; the three directories were made
    when the module loaded, and nothing else happened: no call to a
    collaborator, no line in the log, no checkpoint read or written, no
    file in the photo or metadata directories touched. *)
Theorem placeholder_credentials_abort (env : Env) (key secret : string) (w : Proc) :
  key = "YOUR_API_KEY_HERE" \/ secret = "YOUR_API_SECRET_HERE" ->
  exists w',
    script env key secret w = (Return 1, w')
    /\ dirs w' = {[PHOTOS_DIR]} ∪ ({[METADATA_DIR]} ∪ ({[DOWNLOAD_DIR]} ∪ dirs w))
    /\ trace w' = ([EvPrint MsgCredentialsUrl; EvPrint MsgGetCredentials;
                   EvPrint MsgSetCredentials; EvMkdir PHOTOS_DIR;
                   EvMkdir METADATA_DIR; EvMkdir DOWNLOAD_DIR] ++ trace w)%list
    /\ clock w' = clock w
    /\ state_file w' = state_file w
    /\ photos_dir w' = photos_dir w
    /\ metadata_dir w' = metadata_dir w
    /\ state w' = state w /\ stats w' = stats w /\ user_id w' = user_id w.
Proof.
  intros H. exists (aborted_at_start w).
  split; [apply script_placeholder, H|].
  repeat split.
Qed.

Lemma placeholder_credentials_abort_witness :
  exists w',
    script (service 0 0 (fun _ => [])) "YOUR_API_KEY_HERE" "secret" fresh = (Return 1, w')
    /\ dirs w' = {[PHOTOS_DIR]} ∪ ({[METADATA_DIR]} ∪ ({[DOWNLOAD_DIR]} ∪ dirs fresh))
    /\ trace w' = ([EvPrint MsgCredentialsUrl; EvPrint MsgGetCredentials;
                   EvPrint MsgSetCredentials; EvMkdir PHOTOS_DIR;
                   EvMkdir METADATA_DIR; EvMkdir DOWNLOAD_DIR] ++ trace fresh)%list
    /\ clock w' = clock fresh
    /\ state_file w' = state_file fresh
    /\ photos_dir w' = photos_dir fresh
    /\ metadata_dir w' = metadata_dir fresh
    /\ state w' = state fresh /\ stats w' = stats fresh /\ user_id w' = user_id fresh.
Proof.
  apply (placeholder_credentials_abort (service 0 0 (fun _ => []))
           "YOUR_API_KEY_HERE" "secret" fresh).
  left; reflexivity.
Defined.

(** The placeholders that the file ships with are not the ones [main]
    compares with: with the configuration untouched the check passes and
    the process goes on to authenticate, writing to the log. *)
Lemma shipped_placeholders_pass_the_check :
  let (r, w) := main (service 0 0 (fun _ => [])) API_KEY API_SECRET fresh in
  r = Return 0
  /\ take 3 (rev (trace w)) = [EvLog MsgAuthenticating; EvTokenValid; EvLog MsgAuthenticated].
Proof. vm_compute. split; reflexivity. Qed.

(** ** Running statements *)

Lemma is_Exception_exn_of (f : failure) : is_Exception (exn_of f) = true.
Proof. destruct f; reflexivity. Qed.

Ltac unfold_statements :=
  unfold when, log, print, emit, save_state, save_metadata, file_exists,
    stream_to_file, call, sleep, try_except, bind, gets, modify, ret in *.

(** ** The content fetcher *)

(** The existence check of [download_photo] is made before its try block:
    what it raises leaves the method. *)
Lemma download_photo_refused (env : Env) (i u : string) (fn : PyStr.text) (w : Proc)
      (msg : string) :
  exists_error env fn = Some msg ->
  download_photo env i u fn w = (Raise (OtherException msg), w).
Proof.
  intros H. unfold download_photo; unfold_statements. rewrite H. reflexivity.
Qed.

Lemma download_photo_existing (env : Env) (i u : string) (fn : PyStr.text) (w : Proc) :
  exists_error env fn = None ->
  is_Some (photos_dir w !! fn) ->
  download_photo env i u fn w
  = (Return true, set_stats count_skipped (logged (MsgSkippingExisting fn) w)).
Proof.
  intros He [body H]. unfold download_photo; unfold_statements. rewrite He, H.
  reflexivity.
Qed.

Lemma download_photo_absent (env : Env) (i u : string) (fn : PyStr.text) (w : Proc) :
  exists_error env fn = None ->
  photos_dir w !! fn = None ->
  download_photo env i u fn w
  = let w1 := called (EvRequestsGet u) (logged (MsgDownloading fn) w) in
    match requests_get env (clock w) u with
    | TransferDone body =>
        (Return true,
         set_stats count_downloaded
           (logged (MsgSuccess fn) (set_photos_dir (fun d => <[fn := body]> d) w1)))
    | TransferRefused f =>
        (Return false,
         set_stats count_failed (logged (MsgDownloadFailed fn (exn_of f)) w1))
    | TransferBroken partial f =>
        (Return false,
         set_stats count_failed
           (logged (MsgDownloadFailed fn (exn_of f))
                   (set_photos_dir (fun d => <[fn := partial]> d) w1)))
    end.
Proof.
  intros He H. unfold download_photo; unfold_statements. rewrite He, H. simpl.
  destruct (requests_get env (clock w) u) as [body | f | partial f]; simpl;
    [reflexivity | | ]; rewrite is_Exception_exn_of; reflexivity.
Qed.

Lemma checkpoint_fields (env : Env) (page : Z) (w : Proc) :
  let w' := snd (checkpoint env page w) in
  state w' = set_last_page page (state w)
  /\ state_file w' = Some (state w')
  /\ photos_dir w' = photos_dir w
  /\ metadata_dir w' = metadata_dir w
  /\ stats w' = stats w.
Proof.
  unfold checkpoint; unfold_statements; simpl.
  destruct (interrupted env (clock w)); simpl; repeat split.
Qed.

Lemma fetch_and_checkpoint_usable (env : Env) (page : Z) (p : Photo) (u : string) (w : Proc) :
  get_download_url p = Some u -> PyStr.truthy u = true ->
  fetch_and_checkpoint env page p w
  = match download_photo env (photo_id p) u (filename_of p) w with
    | (Return success, w1) =>
        let present := match photos_dir w1 !! filename_of p with
                       | Some _ => true | None => false end in
        checkpoint env page
          (set_state (if (success || present)%bool
                      then append_downloaded (photo_id p)
                      else append_failed (photo_id p)) w1)
    | (Raise e, w1) => (Raise e, w1)
    end.
Proof.
  intros Hu Ht. unfold fetch_and_checkpoint, checkpoint. rewrite Hu, Ht.
  destruct (exists_error env (filename_of p)) as [msg|] eqn:He.
  - cbv zeta. unfold bind at 1. unfold bind at 1.
    rewrite (download_photo_refused env _ u _ w msg He). reflexivity.
  - unfold_statements. rewrite He.
    destruct (download_photo env (photo_id p) u (filename_of p) w) as [[success|e] w1];
      [|reflexivity].
    destruct success; [reflexivity|]. cbn [orb].
    destruct (photos_dir w1 !! filename_of p); reflexivity.
Qed.

(** C5, as the spec words it, fails when the transfer breaks after the file
    was opened: the fetch fails and is counted as failed, the partial file
    stays, and because the file now exists the identifier is appended to
    the complete list, not to the failed list. *)
Lemma broken_transfer_recorded_as_complete :
  let (r, w) := script (breaking_service single_photo 1 1) "key" "secret" fresh in
  r = Return 0
  /\ photos_dir w !! filename_of (listed "1" true) = Some "first bytes"
  /\ Stats.failed (stats w) = 1
  /\ state_file w = Some {| last_page := 1; downloaded := ["1"]; failed := [] |}.
Proof. vm_compute. repeat split. Qed.

(** C5 (amended): for an item whose file name the file system accepts (the
    existence check of [download_photo] answers), when the transfer raises,
    [download_photo] returns False and counts one failure, and what was
    written of the file stays.  If the error came before the file was
    opened, no file exists and the identifier is appended to the failed
    list; if it came after, the partial file exists, and the identifier is
    appended to the complete list instead.  In both cases the checkpoint is
    then saved. *)
Theorem transfer_error_recorded (env : Env) (page : Z) (p : Photo) (u : string)
        (w : Proc) (f : failure) :
  get_download_url p = Some u -> PyStr.truthy u = true ->
  exists_error env (filename_of p) = None ->
  photos_dir w !! filename_of p = None ->
  (requests_get env (clock w) u = TransferRefused f ->
   fst (download_photo env (photo_id p) u (filename_of p) w) = Return false
   /\ let w' := snd (fetch_and_checkpoint env page p w) in
      photos_dir w' = photos_dir w
      /\ stats w' = count_failed (stats w)
      /\ failed (state w') = (failed (state w) ++ [photo_id p])%list
      /\ downloaded (state w') = downloaded (state w)
      /\ state_file w' = Some (state w'))
  /\ (forall partial, requests_get env (clock w) u = TransferBroken partial f ->
   fst (download_photo env (photo_id p) u (filename_of p) w) = Return false
   /\ let w' := snd (fetch_and_checkpoint env page p w) in
      photos_dir w' = <[filename_of p := partial]> (photos_dir w)
      /\ stats w' = count_failed (stats w)
      /\ downloaded (state w') = (downloaded (state w) ++ [photo_id p])%list
      /\ failed (state w') = failed (state w)
      /\ state_file w' = Some (state w')).
Proof.
  intros Hu Ht He Hfile. split.
  - intros Hr.
    rewrite (fetch_and_checkpoint_usable env page p u w Hu Ht).
    rewrite (download_photo_absent env _ u _ w He Hfile), Hr. cbv zeta.
    split; [reflexivity|].
    cbn [set_stats logged called set_trace set_clock photos_dir].
    rewrite Hfile. cbn [orb].
    match goal with |- context [checkpoint env page ?w0] =>
      destruct (checkpoint_fields env page w0) as (Hs & Hf & Hp & _ & Hst) end.
    cbv zeta in *. rewrite Hp, Hst, Hf, Hs. repeat split.
  - intros partial Hr.
    rewrite (fetch_and_checkpoint_usable env page p u w Hu Ht).
    rewrite (download_photo_absent env _ u _ w He Hfile), Hr. cbv zeta.
    split; [reflexivity|].
    cbn [set_stats logged called set_trace set_clock set_photos_dir photos_dir].
    rewrite lookup_insert_eq. cbn [orb].
    match goal with |- context [checkpoint env page ?w0] =>
      destruct (checkpoint_fields env page w0) as (Hs & Hf & Hp & _ & Hst) end.
    cbv zeta in *. rewrite Hp, Hst, Hf, Hs. repeat split.
Qed.

Lemma transfer_error_recorded_witness :
  let env := breaking_service single_photo 1 1 in
  let p := listed "1" true in
  let u := "https://live.example/1_o.jpg" in
  let f := TransportFailure "connection reset by peer" in
  (requests_get env (clock fresh) u = TransferRefused f ->
   fst (download_photo env (photo_id p) u (filename_of p) fresh) = Return false
   /\ let w' := snd (fetch_and_checkpoint env 1 p fresh) in
      photos_dir w' = photos_dir fresh
      /\ stats w' = count_failed (stats fresh)
      /\ failed (state w') = (failed (state fresh) ++ [photo_id p])%list
      /\ downloaded (state w') = downloaded (state fresh)
      /\ state_file w' = Some (state w'))
  /\ (forall partial, requests_get env (clock fresh) u = TransferBroken partial f ->
   fst (download_photo env (photo_id p) u (filename_of p) fresh) = Return false
   /\ let w' := snd (fetch_and_checkpoint env 1 p fresh) in
      photos_dir w' = <[filename_of p := partial]> (photos_dir fresh)
      /\ stats w' = count_failed (stats fresh)
      /\ downloaded (state w') = (downloaded (state fresh) ++ [photo_id p])%list
      /\ failed (state w') = failed (state fresh)
      /\ state_file w' = Some (state w')).
Proof.
  apply (transfer_error_recorded (breaking_service single_photo 1 1) 1
           (listed "1" true) "https://live.example/1_o.jpg" fresh
           (TransportFailure "connection reset by peer")); reflexivity.
Defined.

(** ** The metadata aggregator *)

Lemma optional_query_eq (ev : event) (oracle : nat -> reply doc)
      (warning : exn -> message) (w : Proc) :
  optional_query ev oracle warning w
  = match oracle (clock w) with
    | Failure (TransportFailure msg) => (Raise (OtherException msg), called ev w)
    | r => (Return (answered r),
            set_trace (fun t => warning_of warning r ++ t)%list (called ev w))
    end.
Proof.
  unfold optional_query; unfold_statements.
  destruct (oracle (clock w)) as [d | [msg | msg]]; simpl; try reflexivity.
  destruct (PyStr.contains "not found" (PyStr.lower msg)); reflexivity.
Qed.

Lemma get_photo_metadata_eq (env : Env) (i : string) (w : Proc) :
  get_photo_metadata env i w
  = match getInfo env (clock w) i with
    | Failure f =>
        (Return None, logged (MsgMetadataError i (exn_of f)) (called (EvGetInfo i) w))
    | Answer core =>
        let w1 := called (EvGetInfo i) w in
        match optional_query (EvGetExif i) (fun t => getExif env t i)
                             (MsgExifWarning i) w1 with
        | (Raise e, w2) =>
            if is_Exception e then (Return None, logged (MsgMetadataError i e) w2)
            else (Raise e, w2)
        | (Return x, w2) =>
            match optional_query (EvGetComments i) (fun t => getComments env t i)
                                 (MsgCommentsWarning i) w2 with
            | (Raise e, w3) =>
                if is_Exception e then (Return None, logged (MsgMetadataError i e) w3)
                else (Raise e, w3)
            | (Return c, w3) =>
                (Return (Some {| info := core; exif := x; comments := c;
                                 list_info := None |}), w3)
            end
        end
    end.
Proof.
  unfold get_photo_metadata.
  unfold try_except at 1. unfold bind at 1. unfold call at 1.
  destruct (getInfo env (clock w) i) as [core | f]; simpl.
  - unfold bind at 1. fold (called (EvGetInfo i) w).
    destruct (optional_query _ _ _ (called (EvGetInfo i) w)) as [[x|e] w2]; [|reflexivity].
    unfold bind at 1.
    destruct (optional_query _ _ _ w2) as [[c|e] w3]; reflexivity.
  - rewrite is_Exception_exn_of. reflexivity.
Qed.

(** The photo loop on an identifier that is not in the complete list. *)
Lemma process_photo_new (env : Env) (page total_photos i : Z) (p : Photo) (w : Proc) :
  photo_id p ∉ downloaded (state w) ->
  process_photo env page total_photos (i, p) w
  = let w0 := logged (MsgPhoto (Z.of_nat (length (downloaded (state w))) + i)
                               total_photos (photo_id p) (title_of p)) w in
    match get_photo_metadata env (photo_id p) w0 with
    | (Return (Some md), w1) =>
        fetch_and_checkpoint env page p
          (set_metadata_dir
             (fun d => <[photo_id p := {| info := info md; exif := exif md;
                                          comments := comments md;
                                          list_info := Some p |}]> d)
             (set_trace (cons (EvSaveMetadata (photo_id p))) w1))
    | (Return None, w1) =>
        fetch_and_checkpoint env page p (logged (MsgNoMetadata (photo_id p)) w1)
    | (Raise e, w1) => (Raise e, w1)
    end.
Proof.
  intros Hnew. unfold process_photo.
  unfold bind at 1. unfold gets at 1.
  destruct (decide (photo_id p ∈ downloaded (state w))) as [Hin|_]; [contradiction|].
  unfold bind at 1. unfold log at 1, emit at 1, modify at 1. cbv zeta.
  unfold bind at 1. fold (logged (MsgPhoto (Z.of_nat (length (downloaded (state w))) + i)
                               total_photos (photo_id p) (title_of p)) w).
  destruct (get_photo_metadata env (photo_id p) _) as [[[md|]|e] w1]; reflexivity.
Qed.

Lemma process_photo_known (env : Env) (page total_photos i : Z) (p : Photo) (w : Proc) :
  photo_id p ∈ downloaded (state w) ->
  process_photo env page total_photos (i, p) w
  = (Return tt, logged (MsgSkippingProcessed (photo_id p)) w).
Proof.
  intros Hin. unfold process_photo.
  unfold bind at 1. unfold gets at 1.
  destruct (decide (photo_id p ∈ downloaded (state w))) as [_|Hn]; [reflexivity|contradiction].
Qed.

Lemma checkpoint_trace (env : Env) (page : Z) (w : Proc) :
  trace (snd (checkpoint env page w))
  = EvSleep 500 :: EvSaveState (set_last_page page (state w)) :: trace w.
Proof.
  unfold checkpoint; unfold_statements; simpl.
  destruct (interrupted env (clock w)); reflexivity.
Qed.

(** The first of the URLs that the entry offers is the one that
    [get_download_url] returns. *)
Lemma candidate_urls_head (p : Photo) (u : string) :
  head (candidate_urls p) = Some u -> get_download_url p = Some u.
Proof.
  unfold get_download_url, candidate_urls, first_present.
  destruct p as [i t uo uk uh ul uc us fmt m]; simpl.
  destruct uo, uk, uh, ul, uc; simpl; try (intros H; exact H).
  destruct us as [[[[|u' l]|]|]|]; simpl; intros H; try discriminate; exact H.
Qed.

(** With a URL, a name that the file system accepts and no file at the
    destination, the rest of the loop body requests one transfer, of the
    first URL that the entry offers. *)
Lemma fetch_and_checkpoint_transfers (env : Env) (page : Z) (p : Photo) (u : string)
      (w : Proc) :
  head (candidate_urls p) = Some u -> PyStr.truthy u = true ->
  exists_error env (filename_of p) = None ->
  photos_dir w !! filename_of p = None ->
  exists new,
    events_between w (snd (fetch_and_checkpoint env page p w)) new
    /\ transfers_requested new = [u].
Proof.
  intros Hu Ht He Hfile. apply candidate_urls_head in Hu.
  rewrite (fetch_and_checkpoint_usable env page p u w Hu Ht).
  rewrite (download_photo_absent env _ u _ w He Hfile). cbv zeta.
  unfold events_between.
  destruct (requests_get env (clock w) u) as [body | f | partial f];
    rewrite checkpoint_trace;
    cbn [trace set_state set_stats logged called set_trace set_clock set_photos_dir];
    match goal with |- context [EvSaveState ?st] =>
      first
        [ exists [EvLog (MsgDownloading (filename_of p)); EvRequestsGet u;
                  EvLog (MsgSuccess (filename_of p)); EvSaveState st; EvSleep 500];
          split; reflexivity
        | exists [EvLog (MsgDownloading (filename_of p)); EvRequestsGet u;
                  EvLog (MsgDownloadFailed (filename_of p) (exn_of f));
                  EvSaveState st; EvSleep 500];
          split; reflexivity ]
    end.
Qed.

(** [fetch_and_checkpoint] writes no metadata file. *)
Lemma fetch_and_checkpoint_metadata_dir (env : Env) (page : Z) (p : Photo) (w : Proc) :
  metadata_dir (snd (fetch_and_checkpoint env page p w)) = metadata_dir w.
Proof.
  assert (Hno : forall w0,
             metadata_dir (snd (checkpoint env page
               (set_state (append_failed (photo_id p))
                          (logged (MsgNoUrl (photo_id p)) w0)))) = metadata_dir w0).
  { intros w0.
    match goal with |- context [checkpoint env page ?w1] =>
      destruct (checkpoint_fields env page w1) as (_ & _ & _ & Hm & _) end.
    cbv zeta in Hm. rewrite Hm. reflexivity. }
  destruct (get_download_url p) as [u|] eqn:Hu.
  - destruct (PyStr.truthy u) eqn:Ht.
    + rewrite (fetch_and_checkpoint_usable env page p u w Hu Ht).
      assert (Hd : forall r w1, download_photo env (photo_id p) u (filename_of p) w = (r, w1) ->
                                metadata_dir w1 = metadata_dir w).
      { intros r w1. destruct (exists_error env (filename_of p)) as [msg|] eqn:He.
        { rewrite (download_photo_refused env _ u _ w msg He).
          intros E; inversion E; reflexivity. }
        destruct (photos_dir w !! filename_of p) as [body|] eqn:Hfile.
        - rewrite (download_photo_existing env _ u _ w He) by (rewrite Hfile; eauto).
          intros E; inversion E; reflexivity.
        - rewrite (download_photo_absent env _ u _ w He Hfile). cbv zeta.
          destruct (requests_get env (clock w) u); intros E; inversion E; reflexivity. }
      destruct (download_photo env (photo_id p) u (filename_of p) w) as [[s|e] w1] eqn:E;
        pose proof (Hd _ _ eq_refl) as Hw1; [|exact Hw1].
      cbv zeta.
      match goal with |- context [checkpoint env page ?w2] =>
        destruct (checkpoint_fields env page w2) as (_ & _ & _ & Hm & _) end.
      cbv zeta in Hm. rewrite Hm. exact Hw1.
    + unfold fetch_and_checkpoint. rewrite Hu, Ht. apply (Hno w).
  - unfold fetch_and_checkpoint. rewrite Hu. apply (Hno w).
Qed.

(** The aggregation when no sub-query fails with anything but a FlickrError. *)
Lemma get_photo_metadata_answered (env : Env) (i : string) (w : Proc) (core : doc) :
  getInfo env (clock w) i = Answer core ->
  transport (getExif env (S (clock w)) i) = false ->
  transport (getComments env (S (S (clock w))) i) = false ->
  get_photo_metadata env i w
  = (Return (Some {| info := core;
                     exif := answered (getExif env (S (clock w)) i);
                     comments := answered (getComments env (S (S (clock w))) i);
                     list_info := None |}),
     set_trace (fun t => warning_of (MsgCommentsWarning i) (getComments env (S (S (clock w))) i)
                         ++ EvGetComments i
                         :: warning_of (MsgExifWarning i) (getExif env (S (clock w)) i)
                         ++ EvGetExif i :: EvGetInfo i :: t)%list
               (set_clock (fun c => S (S (S c))) w)).
Proof.
  intros Hinfo Hre Hrc.
  rewrite get_photo_metadata_eq, Hinfo. cbv zeta.
  rewrite optional_query_eq.
  change (clock (called (EvGetInfo i) w)) with (S (clock w)).
  destruct (getExif env (S (clock w)) i) as [x | [mx | mx]]; [| |discriminate Hre].
  all: cbv beta iota zeta; rewrite optional_query_eq;
    cbn [clock set_trace set_clock called];
    destruct (getComments env (S (S (clock w))) i) as [c | [mc | mc]];
    [| |discriminate Hrc]; destruct w; reflexivity.
Qed.

(** C7, as the spec words it, fails for a failure that is not a
    FlickrError: a timeout of the EXIF sub-query is not a not-found error,
    yet nothing is stored as null: the aggregation returns no document, no
    EXIF warning is logged and no metadata file is written. *)
Lemma transport_failure_is_a_hard_failure :
  let env := service_with_metadata (Failure (TransportFailure "Read timed out"))
                                   (Answer "comments of 1") in
  let w := snd (process_photo env 1 1 (1, listed "1" true) fresh) in
  fst (get_photo_metadata env "1" fresh) = Return None
  /\ metadata_dir w !! "1" = None
  /\ rev (trace w)
     = [EvLog (MsgPhoto 1 1 "1" (PyStr.of_string "photo 1")); EvGetInfo "1"; EvGetExif "1";
        EvLog (MsgMetadataError "1" (OtherException "Read timed out"));
        EvLog (MsgNoMetadata "1");
        EvLog (MsgDownloading (PyStr.of_string "1_photo 1.jpg"));
        EvRequestsGet "https://live.example/1_o.jpg";
        EvLog (MsgSuccess (PyStr.of_string "1_photo 1.jpg"));
        EvSaveState {| last_page := 1; downloaded := ["1"]; failed := [] |};
        EvSleep 500].
Proof. vm_compute. repeat split. Qed.

(** C7 (amended): when the core record is answered and each optional
    sub-query (EXIF, comments) either answers or fails with a FlickrError,
    the aggregation returns a document in which a failed sub-query is null;
    a FlickrError whose message contains "not found" (in any case) adds
    nothing to the log, any other FlickrError adds one warning.  The
    document is saved with the listing entry, and the item goes on to URL
    resolution and download: when the entry offers a URL, the file system
    accepts the file name and no file is at the destination, the events
    that follow the saving of the document request one transfer, of the
    first URL that the entry offers. *)
Theorem optional_failure_isolated (env : Env) (page total_photos i : Z) (p : Photo)
        (w : Proc) (core : doc) :
  photo_id p ∉ downloaded (state w) ->
  getInfo env (clock w) (photo_id p) = Answer core ->
  let re := getExif env (S (clock w)) (photo_id p) in
  let rc := getComments env (S (S (clock w))) (photo_id p) in
  transport re = false -> transport rc = false ->
  let w0 := logged (MsgPhoto (Z.of_nat (length (downloaded (state w))) + i)
                             total_photos (photo_id p) (title_of p)) w in
  exists w1 w2,
    get_photo_metadata env (photo_id p) w0
    = (Return (Some {| info := core; exif := answered re; comments := answered rc;
                       list_info := None |}), w1)
    /\ trace w1 = (warning_of (MsgCommentsWarning (photo_id p)) rc
                   ++ EvGetComments (photo_id p)
                   :: warning_of (MsgExifWarning (photo_id p)) re
                   ++ EvGetExif (photo_id p) :: EvGetInfo (photo_id p) :: trace w0)%list
    /\ process_photo env page total_photos (i, p) w = fetch_and_checkpoint env page p w2
    /\ metadata_dir w2
       = <[photo_id p := {| info := core; exif := answered re; comments := answered rc;
                            list_info := Some p |}]> (metadata_dir w)
    /\ trace w2 = EvSaveMetadata (photo_id p) :: trace w1
    /\ photos_dir w2 = photos_dir w /\ state w2 = state w
    /\ (forall u, head (candidate_urls p) = Some u -> PyStr.truthy u = true ->
                  exists_error env (filename_of p) = None ->
                  photos_dir w !! filename_of p = None ->
                  exists new,
                    events_between w2
                      (snd (process_photo env page total_photos (i, p) w)) new
                    /\ transfers_requested new = [u]).
Proof.
  intros Hnew Hinfo re rc Hre Hrc w0.
  pose proof (get_photo_metadata_answered env (photo_id p) w0 core Hinfo Hre Hrc) as Hmd.
  change (clock w0) with (clock w) in Hmd. fold re rc in Hmd.
  rewrite (process_photo_new env page total_photos i p w Hnew). cbv zeta. fold w0.
  rewrite Hmd. cbn [info exif comments].
  match type of Hmd with
  | _ = (_, ?w1) =>
      exists w1;
      exists (set_metadata_dir
                (fun d => <[photo_id p := {| info := core; exif := answered re;
                                             comments := answered rc;
                                             list_info := Some p |}]> d)
                (set_trace (cons (EvSaveMetadata (photo_id p))) w1))
  end.
  split; [reflexivity|]. split; [reflexivity|]. split; [reflexivity|].
  split; [reflexivity|]. split; [reflexivity|]. split; [reflexivity|].
  split; [reflexivity|].
  intros u Hu Ht He Hfile. apply fetch_and_checkpoint_transfers; assumption.
Qed.

Lemma optional_failure_isolated_witness :
  let env := service_with_metadata (Failure (ApiFailure "Error: 2: Photo not found"))
               (Failure (ApiFailure "Error: 105: Service currently unavailable")) in
  let p := listed "1" true in
  exists w1 w2,
    get_photo_metadata env "1" (logged (MsgPhoto 1 1 "1" (PyStr.of_string "photo 1")) fresh)
    = (Return (Some {| info := "info of 1"; exif := None; comments := None;
                       list_info := None |}), w1)
    /\ trace w1
       = [EvLog (MsgCommentsWarning "1"
                   (FlickrError "Error: 105: Service currently unavailable"));
          EvGetComments "1"; EvGetExif "1"; EvGetInfo "1";
          EvLog (MsgPhoto 1 1 "1" (PyStr.of_string "photo 1"))]
    /\ process_photo env 1 1 (1, p) fresh = fetch_and_checkpoint env 1 p w2
    /\ metadata_dir w2
       = <["1" := {| info := "info of 1"; exif := None; comments := None;
                     list_info := Some p |}]> (metadata_dir fresh)
    /\ trace w2 = EvSaveMetadata "1" :: trace w1
    /\ photos_dir w2 = photos_dir fresh /\ state w2 = state fresh
    /\ exists new,
         events_between w2 (snd (process_photo env 1 1 (1, p) fresh)) new
         /\ transfers_requested new = ["https://live.example/1_o.jpg"].
Proof.
  destruct (optional_failure_isolated
              (service_with_metadata (Failure (ApiFailure "Error: 2: Photo not found"))
                 (Failure (ApiFailure "Error: 105: Service currently unavailable")))
              1 1 1 (listed "1" true) fresh "info of 1")
    as (w1 & w2 & H1 & H2 & H3 & H4 & H5 & H6 & H7 & H8).
  - simpl. apply not_elem_of_nil.
  - reflexivity.
  - reflexivity.
  - reflexivity.
  - exists w1, w2. repeat (split; [assumption|]).
    apply H8; reflexivity.
Defined.

(** The aggregation when an optional sub-query fails with something else
    than a FlickrError: the outer handler takes over. *)
Lemma get_photo_metadata_transport (env : Env) (i : string) (w : Proc) (core : doc)
      (msg : string) :
  getInfo env (clock w) i = Answer core ->
  getExif env (S (clock w)) i = Failure (TransportFailure msg)
  \/ (transport (getExif env (S (clock w)) i) = false
      /\ getComments env (S (S (clock w))) i = Failure (TransportFailure msg)) ->
  exists w1,
    get_photo_metadata env i w = (Return None, w1)
    /\ head (trace w1) = Some (EvLog (MsgMetadataError i (OtherException msg)))
    /\ metadata_dir w1 = metadata_dir w
    /\ photos_dir w1 = photos_dir w
    /\ state w1 = state w.
Proof.
  intros Hinfo H.
  rewrite get_photo_metadata_eq, Hinfo. cbv zeta.
  rewrite optional_query_eq.
  change (clock (called (EvGetInfo i) w)) with (S (clock w)).
  destruct H as [He | [He Hc]].
  - rewrite He. cbv beta iota zeta. cbn [is_Exception].
    eexists. split; [reflexivity|]. repeat split.
  - destruct (getExif env (S (clock w)) i) as [x | [mx | mx]]; [| |discriminate He].
    all: cbv beta iota zeta; rewrite optional_query_eq;
      cbn [clock set_trace set_clock called]; rewrite Hc;
      cbv beta iota zeta; cbn [is_Exception];
      eexists; split; [reflexivity|]; repeat split.
Qed.

(** C10: when the core record is answered and an optional sub-query raises
    an exception that is not a FlickrError, the aggregation logs the error
    and returns no document; no metadata file is written for the item, and
    the item goes on to URL resolution and download exactly as any other:
    when the entry offers a URL, the file system accepts the file name and
    no file is at the destination, the events that follow the warning
    request one transfer, of the first URL that the entry offers. *)
Theorem transport_failure_drops_metadata (env : Env) (page total_photos i : Z)
        (p : Photo) (w : Proc) (core : doc) (msg : string) :
  photo_id p ∉ downloaded (state w) ->
  getInfo env (clock w) (photo_id p) = Answer core ->
  getExif env (S (clock w)) (photo_id p) = Failure (TransportFailure msg)
  \/ (transport (getExif env (S (clock w)) (photo_id p)) = false
      /\ getComments env (S (S (clock w))) (photo_id p) = Failure (TransportFailure msg)) ->
  let w0 := logged (MsgPhoto (Z.of_nat (length (downloaded (state w))) + i)
                             total_photos (photo_id p) (title_of p)) w in
  exists w1,
    get_photo_metadata env (photo_id p) w0 = (Return None, w1)
    /\ head (trace w1) = Some (EvLog (MsgMetadataError (photo_id p) (OtherException msg)))
    /\ metadata_dir w1 = metadata_dir w
    /\ process_photo env page total_photos (i, p) w
       = fetch_and_checkpoint env page p (logged (MsgNoMetadata (photo_id p)) w1)
    /\ metadata_dir (snd (process_photo env page total_photos (i, p) w)) = metadata_dir w
    /\ (forall u, head (candidate_urls p) = Some u -> PyStr.truthy u = true ->
                  exists_error env (filename_of p) = None ->
                  photos_dir w !! filename_of p = None ->
                  exists new,
                    events_between (logged (MsgNoMetadata (photo_id p)) w1)
                      (snd (process_photo env page total_photos (i, p) w)) new
                    /\ transfers_requested new = [u]).
Proof.
  intros Hnew Hinfo H w0.
  destruct (get_photo_metadata_transport env (photo_id p) w0 core msg Hinfo H)
    as (w1 & Hmd & Hhead & Hm & Hp & Hs).
  exists w1.
  rewrite (process_photo_new env page total_photos i p w Hnew). cbv zeta. fold w0.
  rewrite Hmd.
  split; [reflexivity|]. split; [exact Hhead|]. split; [exact Hm|].
  split; [reflexivity|].
  split.
  - rewrite fetch_and_checkpoint_metadata_dir. exact Hm.
  - intros u Hu Ht He Hfile. apply fetch_and_checkpoint_transfers; try assumption.
    cbn [logged set_trace photos_dir]. rewrite Hp. exact Hfile.
Qed.

Lemma transport_failure_drops_metadata_witness :
  let env := service_with_metadata (Answer "exif of 1")
                                   (Failure (TransportFailure "Read timed out")) in
  let p := listed "1" true in
  let w0 := logged (MsgPhoto 1 1 "1" (PyStr.of_string "photo 1")) fresh in
  exists w1,
    get_photo_metadata env "1" w0 = (Return None, w1)
    /\ head (trace w1) = Some (EvLog (MsgMetadataError "1" (OtherException "Read timed out")))
    /\ metadata_dir w1 = metadata_dir fresh
    /\ process_photo env 1 1 (1, p) fresh
       = fetch_and_checkpoint env 1 p (logged (MsgNoMetadata "1") w1)
    /\ metadata_dir (snd (process_photo env 1 1 (1, p) fresh)) = metadata_dir fresh
    /\ exists new,
         events_between (logged (MsgNoMetadata "1") w1)
           (snd (process_photo env 1 1 (1, p) fresh)) new
         /\ transfers_requested new = ["https://live.example/1_o.jpg"].
Proof.
  destruct (transport_failure_drops_metadata
              (service_with_metadata (Answer "exif of 1")
                                     (Failure (TransportFailure "Read timed out")))
              1 1 1 (listed "1" true) fresh "info of 1" "Read timed out")
    as (w1 & H1 & H2 & H3 & H4 & H5 & H6).
  - simpl. apply not_elem_of_nil.
  - reflexivity.
  - right. split; reflexivity.
  - exists w1. repeat (split; [assumption|]).
    apply H6; reflexivity.
Defined.

(** ** Page failures *)

(** C1: with a transient error on page 3 of 5 the run logs the error, saves
    the checkpoint with last page 2, sleeps five seconds and goes on, and no
    exception leaves the run, as claimed; but page 3 is requested once
    only.  Page 4 puts the last page forward again, the run ends with last
    page 5 and the photo of page 3 in neither list, and a second run asks
    for page 1 alone: page 3 is never attempted again. *)
Theorem failed_page_is_not_retried :
  let env := service_with_outage 14 in
  let (r, w) := script env "key" "secret" fresh in
  let (r', w') := script env "key" "secret" w in
  r = Return 0
  /\ pages_requested (chronological w) = [1; 2; 3; 4; 5]
  /\ page_errors (chronological w) = [(3, OtherException "503 Service Unavailable")]
  /\ pauses (chronological w) = [500; 500; 5000; 500; 500]
  /\ checkpoints_saved (chronological w)
     = [ {| last_page := 1; downloaded := ["1"]; failed := [] |};
         {| last_page := 2; downloaded := ["1"; "2"]; failed := [] |};
         {| last_page := 2; downloaded := ["1"; "2"]; failed := [] |};
         {| last_page := 4; downloaded := ["1"; "2"; "4"]; failed := [] |};
         {| last_page := 5; downloaded := ["1"; "2"; "4"; "5"]; failed := [] |} ]
  /\ items_attempted (chronological w) = ["1"; "2"; "4"; "5"]
  /\ r' = Return 0
  /\ pages_requested (chronological w') = [1; 2; 3; 4; 5; 1]
  /\ items_attempted (chronological w') = ["1"; "2"; "4"; "5"]
  /\ state_file w'
     = Some {| last_page := 5; downloaded := ["1"; "2"; "4"; "5"]; failed := [] |}
  /\ photos_dir w' !! filename_of (listed "3" true) = None.
Proof. vm_compute. repeat split. Qed.

(** ** Interruption *)

(** C2: the checkpoint gets the number of the current page after each
    photo, not after the page.  Interrupted during the pause that follows
    the first of two photos of page 1, the process exits with status 0 and
    leaves last page 1 on disk; the next run starts at page 2, beyond the
    last page, and the second photo of page 1 is never attempted: it is in
    neither list and has no file. *)
Theorem interrupted_page_is_not_resumed :
  let env := service_interrupted 7 in
  let (r, w) := script env "key" "secret" fresh in
  let (r', w') := script env "key" "secret" w in
  r = Return 0
  /\ head (trace w) = Some (EvLog MsgRunAgain)
  /\ state_file w = Some {| last_page := 1; downloaded := ["1"]; failed := [] |}
  /\ r' = Return 0
  /\ head (trace w') = Some (EvLog MsgRule)
  /\ items_attempted (chronological w') = ["1"]
  /\ state_file w' = Some {| last_page := 1; downloaded := ["1"]; failed := [] |}
  /\ photos_dir w' !! filename_of (listed "2" true) = None.
Proof. vm_compute. repeat split. Qed.

(** ** Statements as relations between processes *)

Section Relations.

Variable R : Proc -> Proc -> Prop.

Hypothesis R_refl : forall w, R w w.

Hypothesis R_trans : forall w1 w2 w3, R w1 w2 -> R w2 w3 -> R w1 w3.

Lemma relates_ret {A} (a : A) : relates R (ret a).
Proof. intros w; apply R_refl. Qed.

Lemma relates_gets {A} (f : Proc -> A) : relates R (gets f).
Proof. intros w; apply R_refl. Qed.

Lemma relates_bind {A B} (m : M A) (k : A -> M B) :
  relates R m -> (forall a, relates R (k a)) -> relates R (bind m k).
Proof.
  intros Hm Hk w. unfold bind. specialize (Hm w).
  destruct (m w) as [[a|e] w1]; simpl in *; [|exact Hm].
  eapply R_trans; [exact Hm | apply Hk].
Qed.

Lemma relates_file_exists (env : Env) (filename : PyStr.text) :
  relates R (file_exists env filename).
Proof. intros w. unfold file_exists. destruct (exists_error env filename); apply R_refl. Qed.

Lemma relates_when (b : bool) (m : M unit) : relates R m -> relates R (when b m).
Proof. intros Hm; destruct b; [exact Hm | apply relates_ret]. Qed.

Lemma relates_try_except {A} (body : M A) (catches : exn -> bool) (handler : exn -> M A) :
  relates R body -> (forall e, relates R (handler e)) ->
  relates R (try_except body catches handler).
Proof.
  intros Hb Hh w. unfold try_except. specialize (Hb w).
  destruct (body w) as [[a|e] w1]; simpl in *; [exact Hb|].
  destruct (catches e); simpl; [|exact Hb].
  eapply R_trans; [exact Hb | apply Hh].
Qed.

Lemma relates_for_each {A} (l : list A) (body : A -> M unit) :
  (forall x, relates R (body x)) -> relates R (for_each l body).
Proof.
  intros Hb; induction l as [|x l IH]; simpl.
  - apply relates_ret.
  - apply relates_bind; [apply Hb | intros _; exact IH].
Qed.

End Relations.

(** ** Statements that leave the checkpoint alone *)

Lemma events_between_refl (w : Proc) : events_between w w [].
Proof. reflexivity. Qed.

Lemma events_between_trans (w1 w2 w3 : Proc) (n1 n2 : list event) :
  events_between w1 w2 n1 -> events_between w2 w3 n2 ->
  events_between w1 w3 (n1 ++ n2).
Proof.
  unfold events_between; intros H1 H2.
  rewrite H2, H1, rev_app_distr, app_assoc. reflexivity.
Qed.

Lemma quietly_refl (w : Proc) : quietly w w.
Proof. split; [exists []; repeat split | repeat split]. Qed.

Lemma quietly_trans (w1 w2 w3 : Proc) : quietly w1 w2 -> quietly w2 w3 -> quietly w1 w3.
Proof.
  intros [(n1 & E1 & S1 & A1) (Hs1 & Hf1 & Hu1)] [(n2 & E2 & S2 & A2) (Hs2 & Hf2 & Hu2)].
  split.
  - exists (n1 ++ n2)%list. split; [eapply events_between_trans; eassumption|].
    unfold checkpoints_saved, items_attempted in *.
    rewrite !omap_app, S1, S2, A1, A2. split; reflexivity.
  - repeat split; congruence.
Qed.

Lemma quiet_emit (e : event) : plain e -> quiet (emit e).
Proof.
  intros [Hs Ha] w. split; [|repeat split].
  exists [e]. repeat split; assumption.
Qed.

Lemma quiet_log (m : message) :
  (forall a b i t, m <> MsgPhoto a b i t) -> quiet (log m).
Proof.
  intros Hm. apply quiet_emit. split; [reflexivity|].
  destruct m; try reflexivity. exfalso; eapply Hm; reflexivity.
Qed.

Lemma quiet_call {A} (ev : event) (oracle : nat -> reply A) :
  plain ev -> quiet (call ev oracle).
Proof.
  intros [Hs Ha] w. unfold call.
  destruct (oracle (clock w)); (split; [|repeat split]);
    exists [ev]; repeat split; assumption.
Qed.

Lemma quiet_sleep (env : Env) (ms : Z) : quiet (sleep env ms).
Proof.
  intros w. unfold sleep.
  destruct (interrupted env (clock w)); (split; [|repeat split]);
    exists [EvSleep ms]; repeat split.
Qed.

Lemma quiet_modify (f : Proc -> Proc) :
  (forall w, trace (f w) = trace w /\ state (f w) = state w
             /\ state_file (f w) = state_file w /\ user_id (f w) = user_id w) ->
  quiet (modify f).
Proof.
  intros Hf w. destruct (Hf w) as (Ht & Hs & Hfile & Hu).
  split; [|repeat split; assumption].
  exists []. repeat split. exact Ht.
Qed.

Lemma quiet_stream_to_file (env : Env) (url : string) (filename : PyStr.text) :
  quiet (stream_to_file env url filename).
Proof.
  intros w. unfold stream_to_file.
  destruct (requests_get env (clock w) url); (split; [|repeat split]);
    exists [EvRequestsGet url]; repeat split.
Qed.

Lemma quiet_ret {A} (a : A) : quiet (ret a).
Proof. apply relates_ret, quietly_refl. Qed.

Lemma quiet_gets {A} (f : Proc -> A) : quiet (gets f).
Proof. apply relates_gets, quietly_refl. Qed.

Lemma quiet_file_exists (env : Env) (filename : PyStr.text) :
  quiet (file_exists env filename).
Proof. apply relates_file_exists, quietly_refl. Qed.

Lemma quiet_bind {A B} (m : M A) (k : A -> M B) :
  quiet m -> (forall a, quiet (k a)) -> quiet (bind m k).
Proof. apply relates_bind, quietly_trans. Qed.

Lemma quiet_when (b : bool) (m : M unit) : quiet m -> quiet (when b m).
Proof. apply relates_when, quietly_refl. Qed.

Lemma quiet_try_except {A} (body : M A) (catches : exn -> bool) (handler : exn -> M A) :
  quiet body -> (forall e, quiet (handler e)) -> quiet (try_except body catches handler).
Proof. apply relates_try_except, quietly_trans. Qed.

Ltac quiet_step :=
  first
    [ apply quiet_bind; [ | intros ?]
    | apply quiet_try_except; [ | intros ?]
    | apply quiet_when
    | apply quiet_ret
    | apply quiet_gets
    | apply quiet_file_exists
    | apply quiet_log; intros; discriminate
    | apply quiet_call; split; reflexivity
    | apply quiet_emit; split; reflexivity
    | apply quiet_sleep
    | apply quiet_stream_to_file
    | apply quiet_modify; intros; repeat split ].

Lemma quiet_optional_query (ev : event) (oracle : nat -> reply doc)
      (warning : exn -> message) :
  plain ev -> (forall e a b i t, warning e <> MsgPhoto a b i t) ->
  quiet (optional_query ev oracle warning).
Proof.
  intros Hev Hw. unfold optional_query.
  quiet_step; [quiet_step; [apply quiet_call; exact Hev | quiet_step]|].
  quiet_step; [|quiet_step].
  quiet_step. apply quiet_log. intros; apply Hw.
Qed.

Lemma quiet_get_photo_metadata (env : Env) (i : string) :
  quiet (get_photo_metadata env i).
Proof.
  unfold get_photo_metadata.
  quiet_step; [|repeat quiet_step].
  quiet_step; [quiet_step|].
  quiet_step; [apply quiet_optional_query; [split; reflexivity | intros; discriminate]|].
  quiet_step; [apply quiet_optional_query; [split; reflexivity | intros; discriminate]|].
  quiet_step.
Qed.

Lemma quiet_download_photo (env : Env) (i u : string) (fn : PyStr.text) :
  quiet (download_photo env i u fn).
Proof.
  unfold download_photo.
  quiet_step; [quiet_step|].
  match goal with |- context [if ?b then _ else _] => destruct b end; repeat quiet_step.
Qed.

Lemma quiet_save_metadata (i : string) (md : Metadata) : quiet (save_metadata i md).
Proof. unfold save_metadata. repeat quiet_step. Qed.

(** ** Statements that always return *)

Lemma optional_query_outcome (ev : event) (oracle : nat -> reply doc)
      (warning : exn -> message) (w : Proc) :
  (exists x, fst (optional_query ev oracle warning w) = Return x)
  \/ (exists msg, fst (optional_query ev oracle warning w) = Raise (OtherException msg)).
Proof.
  rewrite optional_query_eq.
  destruct (oracle (clock w)) as [d | [msg | msg]]; simpl; eauto.
Qed.

Lemma get_photo_metadata_returns (env : Env) (i : string) (w : Proc) :
  exists md, fst (get_photo_metadata env i w) = Return md.
Proof.
  rewrite get_photo_metadata_eq.
  destruct (getInfo env (clock w) i) as [core | f]; [|simpl; eauto].
  cbv zeta.
  match goal with |- context [optional_query ?ev ?o ?wa ?w1] =>
    destruct (optional_query_outcome ev o wa w1) as [[x H] | [msg H]];
    destruct (optional_query ev o wa w1) as [r1 w2]; simpl in H; subst r1
  end; [|simpl; eauto].
  match goal with |- context [optional_query ?ev ?o ?wa ?w1] =>
    destruct (optional_query_outcome ev o wa w1) as [[c H] | [msg H]];
    destruct (optional_query ev o wa w1) as [r1 w3]; simpl in H; subst r1
  end; simpl; eauto.
Qed.

Lemma download_photo_returns (env : Env) (i u : string) (fn : PyStr.text) (w : Proc) :
  exists_error env fn = None ->
  exists success, fst (download_photo env i u fn w) = Return success.
Proof.
  intros He. destruct (photos_dir w !! fn) as [body|] eqn:Hfile.
  - rewrite (download_photo_existing env i u fn w He) by (rewrite Hfile; eauto).
    simpl; eauto.
  - rewrite (download_photo_absent env i u fn w He Hfile). cbv zeta.
    destruct (requests_get env (clock w) u); simpl; eauto.
Qed.

Lemma names_accepted_recordable (env : Env) (t : nat) (uid : option string) (page : Z)
      (pg : PhotosPage) (ph : Photo) :
  names_accepted env -> getPhotos env t uid page = Answer pg -> ph ∈ photo pg ->
  recordable env ph.
Proof. intros H Hpg Hph _. exact (H t uid page pg ph Hpg Hph). Qed.

Lemma recordable_or_refused (env : Env) (p : Photo) :
  recordable env p
  \/ (has_url p = true /\ exists msg, exists_error env (filename_of p) = Some msg).
Proof.
  unfold recordable. destruct (has_url p); [|left; discriminate].
  destruct (exists_error env (filename_of p)) as [msg|]; [right | left]; eauto.
Qed.

(** ** What an attempt does to the checkpoint *)

Lemma checkpoint_effect (env : Env) (page : Z) (w : Proc) :
  let w' := snd (checkpoint env page w) in
  events_between w w' [EvSaveState (set_last_page page (state w)); EvSleep 500]
  /\ state w' = set_last_page page (state w)
  /\ state_file w' = Some (state w')
  /\ user_id w' = user_id w
  /\ (never_interrupted env -> fst (checkpoint env page w) = Return tt).
Proof.
  unfold checkpoint, events_between; unfold_statements; simpl.
  destruct (interrupted env (clock w)) eqn:E; simpl; repeat split.
  intros H. rewrite H in E. discriminate.
Qed.

Lemma fetch_and_checkpoint_no_url (env : Env) (page : Z) (p : Photo) (w : Proc) :
  match get_download_url p with Some u => PyStr.truthy u | None => false end = false ->
  fetch_and_checkpoint env page p w
  = checkpoint env page
      (set_state (append_failed (photo_id p)) (logged (MsgNoUrl (photo_id p)) w)).
Proof.
  intros H. unfold fetch_and_checkpoint, checkpoint.
  destruct (get_download_url p) as [u|]; [rewrite H|]; reflexivity.
Qed.

(** When the file system refuses the name, the existence check raises
    and nothing is recorded for the item. *)
Lemma fetch_and_checkpoint_refused (env : Env) (page : Z) (p : Photo) (w : Proc)
      (msg : string) :
  has_url p = true -> exists_error env (filename_of p) = Some msg ->
  fetch_and_checkpoint env page p w = (Raise (OtherException msg), w).
Proof.
  unfold has_url. intros Hurl He.
  destruct (get_download_url p) as [u|] eqn:Hu; [|discriminate].
  rewrite (fetch_and_checkpoint_usable env page p u w Hu Hurl).
  rewrite (download_photo_refused env _ u _ w msg He). reflexivity.
Qed.

Lemma fetch_and_checkpoint_effect (env : Env) (page : Z) (p : Photo) (w : Proc) :
  recordable env p ->
  let w' := snd (fetch_and_checkpoint env page p w) in
  exists new,
    events_between w w' new
    /\ checkpoints_saved new = [state w']
    /\ items_attempted new = []
    /\ attempt_recorded page (photo_id p) (state w) (state w')
    /\ state_file w' = Some (state w')
    /\ user_id w' = user_id w
    /\ (never_interrupted env -> fst (fetch_and_checkpoint env page p w) = Return tt).
Proof.
  intros Hrecordable.
  assert (Hcp : forall (f : State -> State) (w1 : Proc),
             quietly w w1 ->
             attempt_recorded page (photo_id p) (state w)
                              (set_last_page page (f (state w))) ->
             let w' := snd (checkpoint env page (set_state f w1)) in
             exists new,
               events_between w w' new
               /\ checkpoints_saved new = [state w']
               /\ items_attempted new = []
               /\ attempt_recorded page (photo_id p) (state w) (state w')
               /\ state_file w' = Some (state w')
               /\ user_id w' = user_id w
               /\ (never_interrupted env ->
                   fst (checkpoint env page (set_state f w1)) = Return tt)).
  { intros f w1 [(n1 & E1 & S1 & A1) (Hs1 & Hf1 & Hu1)] Hrec.
    destruct (checkpoint_effect env page (set_state f w1)) as (E2 & Hs2 & Hf2 & Hu2 & Hr).
    cbv zeta. cbn [state set_state] in Hs2.
    exists (n1 ++ [EvSaveState (set_last_page page (f (state w1))); EvSleep 500])%list.
    split.
    { eapply events_between_trans; [|exact E2].
      unfold events_between in *. exact E1. }
    unfold checkpoints_saved, items_attempted in *.
    rewrite !omap_app, S1, A1, Hs2, Hs1. simpl.
    split; [reflexivity|]. split; [reflexivity|].
    split; [exact Hrec|].
    split; [rewrite Hf2, Hs2, Hs1; reflexivity|].
    split; [rewrite Hu2; exact Hu1 | exact Hr]. }
  destruct (match get_download_url p with Some u => PyStr.truthy u | None => false end)
    eqn:Hurl.
  - pose proof (Hrecordable Hurl) as He.
    destruct (get_download_url p) as [u|] eqn:Hu; [|discriminate].
    rewrite (fetch_and_checkpoint_usable env page p u w Hu Hurl).
    pose proof (quiet_download_photo env (photo_id p) u (filename_of p) w) as Hq.
    destruct (download_photo_returns env (photo_id p) u (filename_of p) w He)
      as [success Hret].
    destruct (download_photo env (photo_id p) u (filename_of p) w) as [r w1].
    simpl in Hret, Hq. subst r. cbv zeta.
    apply Hcp; [exact Hq|].
    destruct (success || _)%bool; [left | right]; reflexivity.
  - rewrite (fetch_and_checkpoint_no_url env page p w Hurl).
    apply Hcp; [|right; reflexivity].
    apply (quiet_log (MsgNoUrl (photo_id p))). intros; discriminate.
Qed.

Lemma process_photo_effect (env : Env) (page total_photos i : Z) (p : Photo) (w : Proc) :
  photo_id p ∉ downloaded (state w) ->
  recordable env p ->
  let w' := snd (process_photo env page total_photos (i, p) w) in
  exists new,
    events_between w w' new
    /\ checkpoints_saved new = [state w']
    /\ items_attempted new = [photo_id p]
    /\ attempt_recorded page (photo_id p) (state w) (state w')
    /\ state_file w' = Some (state w')
    /\ user_id w' = user_id w
    /\ (never_interrupted env ->
        fst (process_photo env page total_photos (i, p) w) = Return tt).
Proof.
  intros Hnew Hrecordable.
  rewrite (process_photo_new env page total_photos i p w Hnew). cbv zeta.
  set (w0 := logged _ w).
  pose proof (quiet_get_photo_metadata env (photo_id p) w0) as Hq.
  destruct (get_photo_metadata_returns env (photo_id p) w0) as [md Hret].
  destruct (get_photo_metadata env (photo_id p) w0) as [r w1].
  simpl in Hret, Hq. subst r.
  assert (Hfin : forall w2, quietly w1 w2 ->
             let w' := snd (fetch_and_checkpoint env page p w2) in
             exists new,
               events_between w w' new
               /\ checkpoints_saved new = [state w']
               /\ items_attempted new = [photo_id p]
               /\ attempt_recorded page (photo_id p) (state w) (state w')
               /\ state_file w' = Some (state w')
               /\ user_id w' = user_id w
               /\ (never_interrupted env ->
                   fst (fetch_and_checkpoint env page p w2) = Return tt)).
  { intros w2 Hq2.
    destruct (quietly_trans _ _ _ Hq Hq2) as [(n1 & E1 & S1 & A1) (Hs1 & Hf1 & Hu1)].
    destruct (fetch_and_checkpoint_effect env page p w2 Hrecordable)
      as (n2 & E2 & S2 & A2 & Hrec & Hf2 & Hu2 & Hr).
    cbv zeta.
    exists ([EvLog (MsgPhoto (Z.of_nat (length (downloaded (state w))) + i)
                             total_photos (photo_id p) (title_of p))] ++ n1 ++ n2)%list.
    split.
    { apply (events_between_trans w w0); [reflexivity|].
      eapply events_between_trans; eassumption. }
    unfold checkpoints_saved, items_attempted in *.
    rewrite !omap_app, S1, S2, A1, A2. simpl.
    split; [reflexivity|]. split; [reflexivity|].
    split; [rewrite Hs1 in Hrec; exact Hrec|].
    split; [exact Hf2|].
    split; [rewrite Hu2; exact Hu1 | exact Hr]. }
  destruct md as [md|]; apply Hfin.
  - apply (quiet_save_metadata (photo_id p)).
  - apply (quiet_log (MsgNoMetadata (photo_id p))). intros; discriminate.
Qed.

(** An attempt whose existence check raises: the item was started, its
    metadata fetched, and nothing is recorded for it. *)
Lemma process_photo_refused (env : Env) (page total_photos i : Z) (p : Photo) (w : Proc)
      (msg : string) :
  photo_id p ∉ downloaded (state w) ->
  has_url p = true -> exists_error env (filename_of p) = Some msg ->
  fst (process_photo env page total_photos (i, p) w) = Raise (OtherException msg)
  /\ let w' := snd (process_photo env page total_photos (i, p) w) in
     exists new,
       events_between w w' new
       /\ checkpoints_saved new = []
       /\ items_attempted new = [photo_id p]
       /\ state w' = state w
       /\ state_file w' = state_file w
       /\ user_id w' = user_id w.
Proof.
  intros Hnew Hurl He.
  rewrite (process_photo_new env page total_photos i p w Hnew). cbv zeta.
  set (w0 := logged _ w).
  pose proof (quiet_get_photo_metadata env (photo_id p) w0) as Hq.
  destruct (get_photo_metadata_returns env (photo_id p) w0) as [md Hret].
  destruct (get_photo_metadata env (photo_id p) w0) as [r w1].
  simpl in Hret, Hq. subst r.
  assert (Hfin : forall w2, quietly w1 w2 ->
             exists new,
               events_between w w2 new
               /\ checkpoints_saved new = []
               /\ items_attempted new = [photo_id p]
               /\ state w2 = state w
               /\ state_file w2 = state_file w
               /\ user_id w2 = user_id w).
  { intros w2 Hq2.
    destruct (quietly_trans _ _ _ Hq Hq2) as [(n1 & E1 & S1 & A1) (Hs1 & Hf1 & Hu1)].
    exists ([EvLog (MsgPhoto (Z.of_nat (length (downloaded (state w))) + i)
                             total_photos (photo_id p) (title_of p))] ++ n1)%list.
    split; [apply (events_between_trans w w0); [reflexivity | exact E1]|].
    unfold checkpoints_saved, items_attempted in *.
    rewrite !omap_app, S1, A1. simpl. repeat split; assumption. }
  destruct md as [md|]; rewrite (fetch_and_checkpoint_refused env page p _ msg Hurl He);
    (split; [reflexivity|]); apply Hfin.
  - apply (quiet_save_metadata (photo_id p)).
  - apply (quiet_log (MsgNoMetadata (photo_id p))). intros; discriminate.
Qed.

(** ** The checkpoint along a run *)

Lemma grows_refl (a : State) : grows a a.
Proof. split; reflexivity. Qed.

Lemma grows_trans (a b c : State) : grows a b -> grows b c -> grows a c.
Proof. intros [H1 H2] [H3 H4]; split; etrans; eassumption. Qed.

Lemma grows_same_lists (a b : State) :
  downloaded b = downloaded a -> failed b = failed a -> grows a b.
Proof. intros H1 H2; split; [rewrite H1 | rewrite H2]; reflexivity. Qed.

Lemma disjoint_same_lists (a b : State) :
  downloaded b = downloaded a -> failed b = failed a ->
  disjoint_lists a -> disjoint_lists b.
Proof. unfold disjoint_lists; intros H1 H2 H x; rewrite H1, H2; apply H. Qed.

(** A step that keeps both lists and saves the states [saved], all with the
    same lists too. *)
Lemma journal_same_lists (w w' : Proc) (new : list event) :
  events_between w w' new ->
  items_attempted new = [] ->
  Forall (fun st => downloaded st = downloaded (state w)
                    /\ failed st = failed (state w))
         (checkpoints_saved new ++ [state w']) ->
  state_file w' = from_option Some (state_file w) (last (checkpoints_saved new)) ->
  user_id w' = user_id w ->
  journal w w'.
Proof.
  intros E A Hall Hfile Hu. exists new.
  split; [exact E|]. split.
  { apply StronglySorted_cons. split.
    - eapply Forall_impl; [exact Hall|]. intros st [H1 H2]. apply grows_same_lists; assumption.
    - induction (checkpoints_saved new ++ [state w'])%list as [|a l IH];
        [constructor|].
      apply Forall_cons in Hall as [[Ha1 Ha2] Hl].
      apply StronglySorted_cons. split; [|apply IH; exact Hl].
      eapply Forall_impl; [exact Hl|]. intros st [H1 H2].
      apply grows_same_lists; congruence. }
  split.
  { intros x Hx. left.
    apply Forall_app in Hall as [_ Hlast]. apply Forall_singleton in Hlast as [_ H2].
    rewrite <- H2. exact Hx. }
  split; [|split; assumption].
  intros Hd _ _. eapply Forall_impl; [exact Hall|].
  intros st [H1 H2]. eapply disjoint_same_lists; eassumption.
Qed.

Lemma journal_refl (w : Proc) : journal w w.
Proof.
  apply (journal_same_lists w w []); try reflexivity.
  simpl. constructor; [split; reflexivity | constructor].
Qed.

Lemma quietly_journal (w w' : Proc) : quietly w w' -> journal w w'.
Proof.
  intros [(new & E & S & A) (Hs & Hf & Hu)].
  apply (journal_same_lists w w' new); try assumption.
  - rewrite S, Hs. simpl. constructor; [split; reflexivity | constructor].
  - rewrite S. exact Hf.
Qed.

Lemma checkpoints_saved_app (a b : list event) :
  checkpoints_saved (a ++ b) = (checkpoints_saved a ++ checkpoints_saved b)%list.
Proof. apply omap_app. Qed.

Lemma items_attempted_app (a b : list event) :
  items_attempted (a ++ b) = (items_attempted a ++ items_attempted b)%list.
Proof. apply omap_app. Qed.

Lemma journal_trans (w1 w2 w3 : Proc) : journal w1 w2 -> journal w2 w3 -> journal w1 w3.
Proof.
  intros (n1 & E1 & S1 & F1 & D1 & Hf1 & Hu1) (n2 & E2 & S2 & F2 & D2 & Hf2 & Hu2).
  exists (n1 ++ n2)%list.
  rewrite checkpoints_saved_app, items_attempted_app.
  set (s1 := checkpoints_saved n1) in *. set (s2 := checkpoints_saved n2) in *.
  set (a1 := items_attempted n1) in *. set (a2 := items_attempted n2) in *.
  split; [eapply events_between_trans; eassumption|].
  split.
  { change (StronglySorted grows ((state w1 :: s1) ++ (s2 ++ [state w3]))%list)
      || (rewrite <- app_assoc;
          change (StronglySorted grows ((state w1 :: s1) ++ (s2 ++ [state w3]))%list)).
    apply StronglySorted_app. split; [|split].
    - intros x1 x2 Hx1 Hx2.
      apply grows_trans with (state w2).
      + change (state w1 :: s1 ++ [state w2])%list
          with ((state w1 :: s1) ++ [state w2])%list in S1.
        apply StronglySorted_app in S1 as (Hc & _ & _).
        apply Hc; [exact Hx1 | apply list_elem_of_singleton; reflexivity].
      + apply StronglySorted_cons in S2 as [Hall _].
        rewrite Forall_forall in Hall. apply Hall, Hx2.
    - change (state w1 :: s1 ++ [state w2])%list
        with ((state w1 :: s1) ++ [state w2])%list in S1.
      apply StronglySorted_app in S1 as (_ & H & _). exact H.
    - apply StronglySorted_cons in S2 as [_ H]. exact H. }
  split.
  { intros x Hx. destruct (F2 x Hx) as [H | H].
    - destruct (F1 x H) as [H' | H']; [left; exact H' | right].
      apply elem_of_app; left; exact H'.
    - right. apply elem_of_app; right; exact H. }
  split.
  { intros Hd Hnd Hfresh.
    apply NoDup_app in Hnd as (Hnd1 & Hcross & Hnd2).
    assert (H1 : Forall disjoint_lists (s1 ++ [state w2])).
    { apply D1; [exact Hd | exact Hnd1 |].
      intros x Hx. apply Hfresh, elem_of_app; left; exact Hx. }
    apply Forall_app in H1 as [H1 H1'].
    apply Forall_inv in H1'.
    assert (H2 : Forall disjoint_lists (s2 ++ [state w3])).
    { apply D2; [exact H1' | exact Hnd2 |].
      intros x Hx Hin. destruct (F1 x Hin) as [H | H].
      - revert H. apply Hfresh, elem_of_app; right; exact Hx.
      - exact (Hcross x H Hx). }
    rewrite <- app_assoc. apply Forall_app. split; assumption. }
  split; [|congruence].
  rewrite Hf2, Hf1, last_app. destruct (last s2); reflexivity.
Qed.

Lemma quiet_keeps_journal {A} (m : M A) : quiet m -> keeps_journal m.
Proof. intros H w. apply quietly_journal, H. Qed.

Lemma journal_bind {A B} (m : M A) (k : A -> M B) :
  keeps_journal m -> (forall a, keeps_journal (k a)) -> keeps_journal (bind m k).
Proof. apply relates_bind, journal_trans. Qed.

Lemma journal_try_except {A} (body : M A) (catches : exn -> bool) (handler : exn -> M A) :
  keeps_journal body -> (forall e, keeps_journal (handler e)) ->
  keeps_journal (try_except body catches handler).
Proof. apply relates_try_except, journal_trans. Qed.

Lemma journal_for_each {A} (l : list A) (body : A -> M unit) :
  (forall x, keeps_journal (body x)) -> keeps_journal (for_each l body).
Proof. apply relates_for_each; [exact journal_refl | exact journal_trans]. Qed.

Lemma journal_set_last_page (page : Z) :
  keeps_journal (modify (set_state (set_last_page page))).
Proof.
  intros w. apply (journal_same_lists _ _ []); try reflexivity.
  simpl. constructor; [split; reflexivity | constructor].
Qed.

(** [self.save_state(state)], the argument being the dict of the run. *)
Lemma journal_save_state {A} (k : M A) :
  keeps_journal k ->
  keeps_journal (st <- gets state;; save_state st;; k).
Proof.
  intros Hk w. unfold bind at 1. unfold gets at 1. unfold bind at 1.
  unfold save_state at 1. unfold bind at 1, emit at 1, modify at 1 2.
  eapply journal_trans; [|apply Hk].
  apply (journal_same_lists _ _ [EvSaveState (state w)]); try reflexivity.
  simpl. repeat constructor.
Qed.

Lemma attempt_recorded_grows (page : Z) (i : string) (st st' : State) :
  attempt_recorded page i st st' -> grows st st'.
Proof.
  intros [-> | ->]; split; simpl; try reflexivity; apply prefix_app_r; reflexivity.
Qed.

Lemma attempt_recorded_failed (page : Z) (i : string) (st st' : State) (x : string) :
  attempt_recorded page i st st' -> x ∈ failed st' -> x ∈ failed st \/ x = i.
Proof.
  intros [-> | ->]; simpl; [tauto|].
  intros H. apply elem_of_app in H as [H | H]; [left; exact H | right].
  apply list_elem_of_singleton in H. exact H.
Qed.

Lemma attempt_recorded_disjoint (page : Z) (i : string) (st st' : State) :
  attempt_recorded page i st st' ->
  i ∉ downloaded st -> i ∉ failed st ->
  disjoint_lists st -> disjoint_lists st'.
Proof.
  unfold disjoint_lists. intros [-> | ->] Hd Hf H x; simpl.
  - intros Hx. apply elem_of_app in Hx as [Hx | Hx]; [apply H, Hx|].
    apply list_elem_of_singleton in Hx. subst x. exact Hf.
  - intros Hx Hin. apply elem_of_app in Hin as [Hin | Hin]; [exact (H x Hx Hin)|].
    apply list_elem_of_singleton in Hin. subst x. exact (Hd Hx).
Qed.

Lemma journal_process_photo (env : Env) (page total_photos : Z) (entry : Z * Photo) :
  keeps_journal (process_photo env page total_photos entry).
Proof.
  destruct entry as [i p]. intros w.
  destruct (decide (photo_id p ∈ downloaded (state w))) as [Hin | Hnew].
  - rewrite process_photo_known by exact Hin. simpl.
    apply quietly_journal, (quiet_log (MsgSkippingProcessed (photo_id p))).
    intros; discriminate.
  - destruct (recordable_or_refused env p) as [Hok | (Hurl & msg & He)]; cycle 1.
    { destruct (process_photo_refused env page total_photos i p w msg Hnew Hurl He)
        as (_ & new & E & S & A & Hs & Hf & Hu).
      cbv zeta in *. exists new. rewrite S, A, Hs.
      split; [exact E|]. split.
      { repeat first [ apply SSorted_cons | apply SSorted_nil
                     | apply List.Forall_cons | apply List.Forall_nil
                     | apply grows_refl ]. }
      split; [intros x Hx; left; exact Hx|].
      split; [|split; [exact Hf | exact Hu]].
      intros Hd _ _.
      repeat first [ apply List.Forall_cons | apply List.Forall_nil | exact Hd ]. }
    destruct (process_photo_effect env page total_photos i p w Hnew Hok)
      as (new & E & S & A & Hrec & Hf & Hu & _).
    exists new. rewrite S, A.
    pose proof (attempt_recorded_grows _ _ _ _ Hrec) as Hg.
    split; [exact E|]. split.
    { repeat first [ apply SSorted_cons | apply SSorted_nil
                   | apply List.Forall_cons | apply List.Forall_nil
                   | exact Hg | apply grows_refl ]. }
    split.
    { intros x Hx. destruct (attempt_recorded_failed _ _ _ _ x Hrec Hx) as [H | ->];
        [left; exact H | right; apply list_elem_of_singleton; reflexivity]. }
    split; [|split; [exact Hf | exact Hu]].
    intros Hd _ Hfresh.
    assert (Hd' : disjoint_lists (state (snd (process_photo env page total_photos (i, p) w)))).
    { eapply attempt_recorded_disjoint; [exact Hrec | exact Hnew | | exact Hd].
      apply Hfresh, list_elem_of_singleton. reflexivity. }
    repeat first [ apply List.Forall_cons | apply List.Forall_nil | exact Hd' ].
Qed.

Ltac journal_step :=
  first
    [ apply journal_save_state
    | apply journal_set_last_page
    | apply journal_process_photo
    | apply journal_for_each; intros ?
    | apply journal_bind; [ | intros ?]
    | apply journal_try_except; [ | intros ?]
    | solve [apply quiet_keeps_journal; repeat quiet_step] ].

Lemma journal_process_page (env : Env) (start_page : Z) (first_page : PhotosPage)
      (page : Z) :
  keeps_journal (process_page env start_page first_page page).
Proof.
  unfold process_page.
  journal_step; [journal_step|].
  journal_step; [journal_step|].
  journal_step.
  - journal_step.
    + destruct ((page =? 1) && (start_page =? 1))%bool; repeat journal_step.
    + repeat journal_step.
  - repeat journal_step.
Qed.

Lemma download_library_resume (env : Env) (w : Proc) :
  download_library env w = resume env (on_disk w) (loaded w).
Proof. reflexivity. Qed.

Lemma journal_resume (env : Env) (st : State) : keeps_journal (resume env st).
Proof.
  unfold resume.
  repeat (apply journal_bind; [ | intros ?]);
    try solve [apply quiet_keeps_journal; repeat quiet_step].
  apply journal_for_each. intros page. apply journal_process_page.
Qed.

(** C3, as the spec words it, fails: only the complete list is looked at
    before an item is processed.  An identifier that failed and is listed
    again is attempted again, and when the second attempt succeeds it is in
    both lists. *)
Lemma relisted_failure_ends_in_both_lists :
  let (r, w) := script (service_relisting 6) "key" "secret" fresh in
  r = Return 0
  /\ state_file w = Some {| last_page := 2; downloaded := ["1"]; failed := ["1"] |}
  /\ ~ disjoint_lists (on_disk w).
Proof.
  vm_compute. split; [reflexivity|]. split; [reflexivity|].
  intros H. apply (H "1"); constructor.
Qed.

(** C3 (amended): within a run both lists only ever grow: each checkpoint
    saved, and the state at the end, extends the checkpoint that was loaded
    and every checkpoint saved before it, and the file holds the last one
    saved.  The two lists are not kept disjoint in general (the failed list
    is never looked at); they stay disjoint, at every checkpoint, when the
    loaded checkpoint is disjoint and the identifiers attempted in the run
    are distinct and none of them was in the loaded failed list. *)
Theorem checkpoint_lists_grow (env : Env) (w : Proc) :
  let w' := snd (download_library env w) in
  exists new,
    events_between w w' new
    /\ StronglySorted grows (on_disk w :: checkpoints_saved new ++ [state w'])
    /\ state_file w' = from_option Some (state_file w) (last (checkpoints_saved new))
    /\ (disjoint_lists (on_disk w) ->
        NoDup (items_attempted new) ->
        (forall x, x ∈ items_attempted new -> x ∉ failed (on_disk w)) ->
        Forall disjoint_lists (checkpoints_saved new ++ [state w'])).
Proof.
  cbv zeta. rewrite download_library_resume.
  destruct (journal_resume env (on_disk w) (loaded w)) as (new & E & S & _ & D & Hf & _).
  set (banner := [EvLog MsgRule; EvLog MsgStarting; EvLog MsgTargetDirectory;
                  EvLog MsgRule; EvLoadState]).
  exists (banner ++ new)%list.
  rewrite checkpoints_saved_app, items_attempted_app.
  change (checkpoints_saved banner) with (@nil State).
  change (items_attempted banner) with (@nil string).
  rewrite !app_nil_l.
  split; [apply (events_between_trans w (loaded w)); [reflexivity | exact E]|].
  split; [exact S|]. split; [exact Hf | exact D].
Qed.

Lemma checkpoint_lists_grow_witness :
  disjoint_lists (state (snd (download_library (service 3 2 two_then_one) fresh))).
Proof.
  destruct (checkpoint_lists_grow (service 3 2 two_then_one) fresh)
    as (new & E & _ & _ & D).
  remember (snd (download_library (service 3 2 two_then_one) fresh)) as w' eqn:Hw'.
  assert (Hatt : items_attempted new = ["1"; "2"; "3"]).
  { unfold events_between in E. change (trace fresh) with (@nil event) in E.
    rewrite app_nil_r in E. apply (f_equal (@rev event)) in E.
    rewrite rev_involutive in E. rewrite <- E, Hw'. vm_compute. reflexivity. }
  rewrite Hatt in D.
  assert (Hall : Forall disjoint_lists (checkpoints_saved new ++ [state w'])).
  { apply D.
    - intros x Hx. inversion Hx.
    - refine (bool_decide_unpack _ _). vm_compute. exact I.
    - intros x _ Hx. inversion Hx. }
  apply Forall_app in Hall as [_ Hlast]. apply Forall_inv in Hlast. exact Hlast.
Defined.

(** ** Runs that have nothing left to do *)

Lemma transfers_requested_app (a b : list event) :
  transfers_requested (a ++ b) = (transfers_requested a ++ transfers_requested b)%list.
Proof. apply omap_app. Qed.




Lemma range_nil (a b : Z) : b <= a -> range a b = [].
Proof.
  intros H. unfold range. replace (Z.to_nat (b - a)) with O by lia. reflexivity.
Qed.

Lemma range_cons (a b : Z) : a < b -> range a b = a :: range (a + 1) b.
Proof.
  intros H. unfold range.
  replace (Z.to_nat (b - a)) with (S (Z.to_nat (b - (a + 1)))) by lia.
  cbn [seq List.map]. f_equal; [lia|].
  rewrite <- seq_shift, List.map_map.
  apply List.map_ext. intros k. lia.
Qed.





Lemma page_skips_mono (env : Env) (uid : option string) (D D' : list string) (page : Z) :
  D `prefix_of` D' -> page_skips env uid D page -> page_skips env uid D' page.
Proof.
  intros [k ->] (pg & Hl & Hall). exists pg. split; [exact Hl|].
  intros ph Hph. apply elem_of_app; left. apply Hall, Hph.
Qed.










Lemma range_nat (a : Z) (n : nat) :
  range a (a + Z.of_nat (S n)) = a :: range (a + 1) (a + 1 + Z.of_nat n).
Proof.
  rewrite range_cons by lia. f_equal. f_equal. lia.
Qed.

Lemma range_span (a b : Z) : range a b = range a (a + Z.of_nat (Z.to_nat (b - a))).
Proof. unfold range. f_equal. f_equal. lia. Qed.




Lemma resume_eq (env : Env) (st : State) (w : Proc) :
  resume env st w
  = let w0 := announced st w in
    match getPhotos env (clock w0) (user_id w0) 1 with
    | Failure f => (Raise (exn_of f), called (EvGetPhotos 1) w0)
    | Answer fp =>
        match for_each (range (last_page st + 1) (pages fp + 1))
                       (process_page env (last_page st + 1) fp) (counted fp w0) with
        | (Return _, w1) => (Return tt, summarized w1)
        | (Raise e, w1) => (Raise e, w1)
        end
    end.
Proof.
  unfold resume, announced, counted, summarized. unfold_statements.
  unfold logged, called. cbv zeta.
  destruct (1 <? last_page st + 1); simpl;
    (match goal with |- context [getPhotos env ?c ?u 1] =>
       destruct (getPhotos env c u 1) as [fp | f] end; [|reflexivity]);
    simpl;
    (match goal with |- context [for_each ?l ?b ?w0] =>
       destruct (for_each l b w0) as [[[]|e] w1] end); reflexivity.
Qed.









Lemma names_accepted_two_then_one : names_accepted (service 3 2 two_then_one).
Proof.
  intros t uid page pg ph Hpg Hph. injection Hpg as <-.
  cbn [photo] in Hph. unfold two_then_one in Hph.
  destruct (page =? 1); [|destruct (page =? 2)];
    repeat (apply elem_of_cons in Hph as [-> | Hph]; [reflexivity|]);
    inversion Hph.
Qed.


(** * Further properties *)

(** ** Sanitized titles *)

Lemma replace_invalid_idempotent (c : N) :
  replace_invalid (replace_invalid c) = replace_invalid c.
Proof.
  unfold replace_invalid at 1.
  rewrite bool_decide_eq_false_2 by apply replace_invalid_valid. reflexivity.
Qed.

Lemma map_replace_idempotent (t : PyStr.text) :
  List.map replace_invalid (List.map replace_invalid t) = List.map replace_invalid t.
Proof.
  induction t as [|c t IH]; simpl; [reflexivity|].
  rewrite replace_invalid_idempotent, IH. reflexivity.
Qed.

Lemma map_take (n : nat) (t : PyStr.text) :
  List.map replace_invalid (take n t) = take n (List.map replace_invalid t).
Proof. apply (fmap_take replace_invalid). Qed.

(** X1: sanitizing a title twice gives what sanitizing it once gives. *)
Theorem sanitize_filename_idempotent (t : PyStr.text) :
  sanitize_filename (sanitize_filename t) = sanitize_filename t.
Proof.
  unfold sanitize_filename. cbv zeta.
  rewrite map_take, map_replace_idempotent, take_take, Nat.min_id. reflexivity.
Qed.

Lemma map_replace_clean (t : PyStr.text) :
  List.map replace_invalid t = t <-> clean_title t.
Proof.
  unfold clean_title. induction t as [|d t IH].
  - split; [intros _ c _ H; inversion H | reflexivity].
  - cbn [List.map]. split.
    + intros H. injection H as Hd Ht. intros c Hc Hin.
      apply elem_of_cons in Hin as [-> | Hin].
      * apply (replace_invalid_valid d). rewrite Hd. exact Hc.
      * exact (proj1 IH Ht c Hc Hin).
    + intros H. f_equal.
      * unfold replace_invalid. destruct (bool_decide (d ∈ invalid_chars)) eqn:E;
          [|reflexivity].
        apply bool_decide_eq_true in E. exfalso.
        apply (H d E), elem_of_cons. left; reflexivity.
      * apply IH. intros c Hc Hin. apply (H c Hc), elem_of_cons. right; exact Hin.
Qed.

(** X2: the titles that [sanitize_filename] returns unchanged are exactly
    those of at most 200 characters (code points) with none of the nine
    replaced characters. *)
Theorem sanitize_filename_fixed_points (t : PyStr.text) :
  sanitize_filename t = t <-> clean_title t /\ (length t <= 200)%nat.
Proof.
  split.
  - intros H.
    assert (Hlen : (length t <= 200)%nat).
    { pose proof (sanitize_filename_length t) as Hl. rewrite H in Hl. lia. }
    split; [|exact Hlen].
    apply map_replace_clean. unfold sanitize_filename in H. cbv zeta in H.
    rewrite take_ge in H by (rewrite length_map; exact Hlen). exact H.
  - intros [Hc Hlen]. unfold sanitize_filename. cbv zeta.
    apply map_replace_clean in Hc. rewrite Hc. apply take_ge, Hlen.
Qed.

(** ** Names of the asset files *)

Lemma underscore_unit (d : ascii) : N_of_ascii d = 95%N -> Ascii.eqb "_" d = true.
Proof.
  intros H. rewrite <- (ascii_N_embedding d), H. reflexivity.
Qed.

Lemma append_separator (a b : string) (x y : PyStr.text) :
  PyStr.mem "_" a = false -> PyStr.mem "_" b = false ->
  (PyStr.of_string a ++ PyStr.of_string "_" ++ x
   = PyStr.of_string b ++ PyStr.of_string "_" ++ y)%list ->
  a = b.
Proof.
  revert b; induction a as [|c a IH]; intros [|d b] Ha Hb H; cbn in H.
  - reflexivity.
  - injection H as Hd _. symmetry in Hd. apply underscore_unit in Hd.
    change (PyStr.mem "_" (String d b))
      with (Ascii.eqb "_" d || PyStr.mem "_" b)%bool in Hb.
    rewrite Hd in Hb. discriminate.
  - injection H as Hc _. apply underscore_unit in Hc.
    change (PyStr.mem "_" (String c a))
      with (Ascii.eqb "_" c || PyStr.mem "_" a)%bool in Ha.
    rewrite Hc in Ha. discriminate.
  - injection H as Hc H.
    assert (c = d) by (rewrite <- (ascii_N_embedding c), <- (ascii_N_embedding d), Hc;
                       reflexivity).
    subst d.
    change (PyStr.mem "_" (String c a))
      with (Ascii.eqb "_" c || PyStr.mem "_" a)%bool in Ha.
    change (PyStr.mem "_" (String c b))
      with (Ascii.eqb "_" c || PyStr.mem "_" b)%bool in Hb.
    apply orb_false_iff in Ha as [_ Ha]. apply orb_false_iff in Hb as [_ Hb].
    f_equal. apply IH; assumption.
Qed.

(** X3: the name of the asset file tells the photo: two entries whose
    identifiers have no underscore (Flickr identifiers are digits) and whose
    file names are the same have the same identifier, so no photo takes the
    file of another. *)
Theorem filename_identifies_photo (p q : Photo) :
  PyStr.mem "_" (photo_id p) = false ->
  PyStr.mem "_" (photo_id q) = false ->
  filename_of p = filename_of q ->
  photo_id p = photo_id q.
Proof.
  intros Hp Hq H. unfold filename_of in H. cbv zeta in H.
  eapply append_separator; [exact Hp | exact Hq | exact H].
Qed.

Lemma filename_identifies_photo_witness :
  photo_id (listed "52" true) = photo_id (plain_photo "52" (PyStr.of_string "photo 52") "jpg").
Proof.
  apply (filename_identifies_photo (listed "52" true) (plain_photo "52" (PyStr.of_string "photo 52") "jpg"));
    reflexivity.
Defined.

(** X4: [get_download_url] returns the first of the URLs that the entry
    offers, in the order url_o, url_k, url_h, url_l, url_c and then the
    entries of the generic list, and nothing exactly when it offers none. *)
Theorem get_download_url_first_candidate (p : Photo) :
  get_download_url p = head (candidate_urls p).
Proof.
  unfold get_download_url, candidate_urls, first_present.
  destruct p as [i t uo uk uh ul uc us fmt m]; simpl.
  destruct uo, uk, uh, ul, uc; simpl; try reflexivity.
  destruct us as [[[[|u l]|]|]|]; reflexivity.
Qed.

(** ** Messages of the catalogue *)

Lemma lower_app (a b : string) :
  PyStr.lower (a ++ b) = (PyStr.lower a ++ PyStr.lower b)%string.
Proof.
  unfold PyStr.lower. induction a as [|c a IH]; simpl; [reflexivity | now rewrite IH].
Qed.

Lemma starts_with_app (p b : string) : PyStr.starts_with p (p ++ b) = true.
Proof.
  induction p as [|c p IH]; simpl; [reflexivity|].
  rewrite Ascii.eqb_refl, IH. reflexivity.
Qed.

Lemma contains_app (p a b : string) : PyStr.contains p (a ++ p ++ b) = true.
Proof.
  induction a as [|c a IH].
  - change ((EmptyString ++ p ++ b)%string) with ((p ++ b)%string).
    destruct (p ++ b)%string eqn:E; unfold PyStr.contains; fold PyStr.contains;
      rewrite <- E, starts_with_app; reflexivity.
  - change ((String c a ++ p ++ b)%string) with (String c (a ++ p ++ b)).
    unfold PyStr.contains; fold PyStr.contains. rewrite IH. apply orb_true_r.
Qed.

(** X5: an optional sub-query that fails with a FlickrError whose message
    has the words "not found" somewhere, in whatever mix of upper and lower
    case, returns nothing and logs no warning. *)
Theorem not_found_in_any_case_is_silent (ev : event) (oracle : nat -> reply doc)
        (warning : exn -> message) (w : Proc) (a x b : string) :
  PyStr.lower x = "not found" ->
  oracle (clock w) = Failure (ApiFailure (a ++ x ++ b)) ->
  optional_query ev oracle warning w = (Return None, called ev w).
Proof.
  intros Hx Ho. rewrite optional_query_eq, Ho. cbn [answered warning_of].
  rewrite !lower_app, Hx, contains_app. destruct w; reflexivity.
Qed.

Lemma not_found_in_any_case_is_silent_witness :
  optional_query (EvGetExif "1")
    (fun _ => Failure (ApiFailure "Error: 1: Photo NOT Found (id 1)"))
    (MsgExifWarning "1") fresh
  = (Return None, called (EvGetExif "1") fresh).
Proof.
  apply (not_found_in_any_case_is_silent (EvGetExif "1")
           (fun _ => Failure (ApiFailure "Error: 1: Photo NOT Found (id 1)"))
           (MsgExifWarning "1") fresh "Error: 1: Photo " "NOT Found" " (id 1)");
    reflexivity.
Defined.

(** ** Exceptions that leave the run *)

Lemma only_interrupt_bind {A B} (m : M A) (k : A -> M B) :
  only_interrupt m -> (forall a, only_interrupt (k a)) -> only_interrupt (bind m k).
Proof.
  intros Hm Hk w e. unfold bind. specialize (Hm w).
  destruct (m w) as [[a|e'] w1]; simpl in *; [apply Hk|].
  intros H. injection H as <-. apply Hm. reflexivity.
Qed.

Lemma only_interrupt_for_each {A} (l : list A) (body : A -> M unit) :
  (forall x, only_interrupt (body x)) -> only_interrupt (for_each l body).
Proof.
  intros Hb; induction l as [|x l IH]; simpl.
  - intros w e H. discriminate H.
  - apply only_interrupt_bind; [apply Hb | intros _; exact IH].
Qed.

(** Whatever the body raises, [except Exception] lets only
    KeyboardInterrupt through. *)
Lemma only_interrupt_except_Exception {A} (body : M A) (handler : exn -> M A) :
  (forall e, only_interrupt (handler e)) ->
  only_interrupt (try_except body is_Exception handler).
Proof.
  intros Hh w e. unfold try_except.
  destruct (body w) as [[a|e'] w1]; simpl; [discriminate|].
  destruct (is_Exception e') eqn:E; [apply Hh|].
  simpl. intros H. injection H as <-. destruct e'; try discriminate E. reflexivity.
Qed.

Lemma only_interrupt_modify (f : Proc -> Proc) : only_interrupt (modify f).
Proof. intros w e H. discriminate H. Qed.

Lemma only_interrupt_gets {A} (f : Proc -> A) : only_interrupt (gets f).
Proof. intros w e H. discriminate H. Qed.

Lemma only_interrupt_sleep (env : Env) (ms : Z) : only_interrupt (sleep env ms).
Proof.
  intros w e. unfold sleep. destruct (interrupted env (clock w)); simpl; [|discriminate].
  intros H. injection H as <-. reflexivity.
Qed.

Lemma only_interrupt_process_page (env : Env) (s : Z) (fp : PhotosPage) (p : Z) :
  only_interrupt (process_page env s fp p).
Proof.
  unfold process_page.
  apply only_interrupt_bind; [apply only_interrupt_modify | intros _].
  apply only_interrupt_bind; [apply only_interrupt_modify | intros _].
  apply only_interrupt_except_Exception. intros e.
  apply only_interrupt_bind; [apply only_interrupt_modify | intros _].
  apply only_interrupt_bind; [apply only_interrupt_modify | intros _].
  apply only_interrupt_bind; [apply only_interrupt_modify | intros _].
  apply only_interrupt_bind; [apply only_interrupt_gets | intros st].
  apply only_interrupt_bind; [|intros _; apply only_interrupt_sleep].
  unfold save_state.
  apply only_interrupt_bind; [apply only_interrupt_modify | intros _].
  apply only_interrupt_modify.
Qed.

Lemma announced_clock (st : State) (w : Proc) :
  clock (announced st w) = clock w /\ user_id (announced st w) = user_id w.
Proof. unfold announced. destruct (1 <? last_page st + 1); split; reflexivity. Qed.

(** The ways in which [download_library] ends. *)
Lemma download_library_outcome (env : Env) (w : Proc) :
  match getPhotos env (clock w) (user_id w) 1 with
  | Failure f =>
      download_library env w
      = (Raise (exn_of f), called (EvGetPhotos 1) (announced (on_disk w) (loaded w)))
  | Answer fp =>
      fst (download_library env w) = Return tt
      \/ fst (download_library env w) = Raise KeyboardInterrupt
  end.
Proof.
  rewrite download_library_resume, resume_eq. cbv zeta.
  destruct (announced_clock (on_disk w) (loaded w)) as [Hc Hu].
  rewrite Hc, Hu. change (clock (loaded w)) with (clock w).
  change (user_id (loaded w)) with (user_id w).
  destruct (getPhotos env (clock w) (user_id w) 1) as [fp | f]; [|reflexivity].
  match goal with |- context [for_each ?l ?b ?w0] =>
    pose proof (only_interrupt_for_each l b
                  (only_interrupt_process_page env _ fp) w0) as Hoi;
    destruct (for_each l b w0) as [[[]|e] w1]
  end; simpl in *; [left; reflexivity | right].
  rewrite (Hoi e eq_refl). reflexivity.
Qed.

(** X6: the only exceptions that leave [download_library] are
    KeyboardInterrupt and the failure of the first listing request, which is
    made outside the try block; no failure of a later listing request, of a
    metadata query or of a transfer leaves the loop over the pages. *)
Theorem page_and_item_errors_are_contained (env : Env) (w : Proc) (e : exn) :
  fst (download_library env w) = Raise e ->
  e = KeyboardInterrupt
  \/ exists f, getPhotos env (clock w) (user_id w) 1 = Failure f /\ e = exn_of f.
Proof.
  intros H. pose proof (download_library_outcome env w) as Ho.
  destruct (getPhotos env (clock w) (user_id w) 1) as [fp | f].
  - left. destruct Ho as [Ho | Ho]; rewrite Ho in H; [discriminate|].
    injection H as <-. reflexivity.
  - right. exists f. split; [reflexivity|]. rewrite Ho in H. simpl in H.
    injection H as <-. reflexivity.
Qed.

Lemma page_and_item_errors_are_contained_witness :
  OtherException "503 Service Unavailable" = KeyboardInterrupt
  \/ exists f, getPhotos service_listing_down (clock fresh) (user_id fresh) 1 = Failure f
               /\ OtherException "503 Service Unavailable" = exn_of f.
Proof.
  apply (page_and_item_errors_are_contained service_listing_down fresh
           (OtherException "503 Service Unavailable")).
  vm_compute. reflexivity.
Defined.

(** X7: when the first listing request fails, [download_library] raises
    that failure; it has loaded the checkpoint and asked for page 1, and has
    touched neither the photos, the metadata nor the checkpoint file. *)
Theorem first_listing_failure_escapes (env : Env) (w : Proc) (f : failure) :
  getPhotos env (clock w) (user_id w) 1 = Failure f ->
  exists w',
    download_library env w = (Raise (exn_of f), w')
    /\ photos_dir w' = photos_dir w
    /\ metadata_dir w' = metadata_dir w
    /\ state_file w' = state_file w
    /\ exists new, events_between w w' new
                   /\ pages_requested new = [1]
                   /\ transfers_requested new = []
                   /\ checkpoints_saved new = []
                   /\ items_attempted new = [].
Proof.
  intros Hl. pose proof (download_library_outcome env w) as Ho. rewrite Hl in Ho.
  eexists. split; [exact Ho|].
  unfold announced. destruct (1 <? last_page (on_disk w) + 1).
  - repeat split.
    exists [EvLog MsgRule; EvLog MsgStarting; EvLog MsgTargetDirectory; EvLog MsgRule;
            EvLoadState; EvLog (MsgResuming (last_page (on_disk w) + 1));
            EvLog (MsgPreviously (length (downloaded (on_disk w))));
            EvLog MsgFetchingList; EvGetPhotos 1].
    repeat split.
  - repeat split.
    exists [EvLog MsgRule; EvLog MsgStarting; EvLog MsgTargetDirectory; EvLog MsgRule;
            EvLoadState; EvLog MsgFetchingList; EvGetPhotos 1].
    repeat split.
Qed.

Lemma first_listing_failure_escapes_witness :
  exists w',
    download_library service_listing_down fresh
    = (Raise (OtherException "503 Service Unavailable"), w')
    /\ photos_dir w' = photos_dir fresh
    /\ metadata_dir w' = metadata_dir fresh
    /\ state_file w' = state_file fresh
    /\ exists new, events_between fresh w' new
                   /\ pages_requested new = [1]
                   /\ transfers_requested new = []
                   /\ checkpoints_saved new = []
                   /\ items_attempted new = [].
Proof.
  apply (first_listing_failure_escapes service_listing_down fresh
           (TransportFailure "503 Service Unavailable")).
  reflexivity.
Defined.

(** ** The exit status *)

Lemma untouched_refl (w : Proc) : untouched w w.
Proof. repeat split. exists []. repeat split. Qed.

Lemma pages_requested_app (a b : list event) :
  pages_requested (a ++ b) = (pages_requested a ++ pages_requested b)%list.
Proof. apply omap_app. Qed.

Lemma untouched_trans (w1 w2 w3 : Proc) :
  untouched w1 w2 -> untouched w2 w3 -> untouched w1 w3.
Proof.
  intros (P1 & M1 & F1 & n1 & E1 & A1 & B1 & C1 & D1)
         (P2 & M2 & F2 & n2 & E2 & A2 & B2 & C2 & D2).
  split; [congruence|]. split; [congruence|]. split; [congruence|].
  exists (n1 ++ n2)%list.
  split; [eapply events_between_trans; eassumption|].
  rewrite pages_requested_app, transfers_requested_app, checkpoints_saved_app,
    items_attempted_app, A1, A2, B1, B2, C1, C2, D1, D2.
  repeat split.
Qed.

Lemma untouched_events (w w' : Proc) (new : list event) :
  events_between w w' new ->
  pages_requested new = [] -> transfers_requested new = [] ->
  checkpoints_saved new = [] -> items_attempted new = [] ->
  photos_dir w' = photos_dir w -> metadata_dir w' = metadata_dir w ->
  state_file w' = state_file w ->
  untouched w w'.
Proof.
  intros E A B C D P Md F. split; [exact P|]. split; [exact Md|]. split; [exact F|].
  exists new. repeat split; assumption.
Qed.

Lemma untouched_log (m : message) :
  (forall a b i t, m <> MsgPhoto a b i t) -> relates untouched (log m).
Proof.
  intros Hm w. apply (untouched_events _ _ [EvLog m]); try reflexivity.
  destruct m; try reflexivity. exfalso; eapply Hm; reflexivity.
Qed.

Lemma untouched_call {A} (ev : event) (oracle : nat -> reply A) :
  pages_requested [ev] = [] -> transfers_requested [ev] = [] ->
  checkpoints_saved [ev] = [] -> items_attempted [ev] = [] ->
  relates untouched (call ev oracle).
Proof.
  intros A1 B1 C1 D1 w. unfold call.
  destruct (oracle (clock w)); apply (untouched_events _ _ [ev]);
    try assumption; reflexivity.
Qed.

Lemma authenticate_untouched (env : Env) (key secret : string) :
  relates untouched (authenticate env key secret).
Proof.
  unfold authenticate.
  apply relates_bind; [exact untouched_trans | apply untouched_log; intros; discriminate |].
  intros _.
  apply relates_bind; [exact untouched_trans | apply untouched_call; reflexivity |].
  intros valid.
  apply relates_bind; [exact untouched_trans | |].
  { apply relates_when; [exact untouched_refl|].
    apply relates_bind; [exact untouched_trans | apply untouched_log; intros; discriminate |].
    intros _. apply untouched_call; reflexivity. }
  intros _.
  apply relates_bind; [exact untouched_trans | apply untouched_log; intros; discriminate |].
  intros _.
  apply relates_bind; [exact untouched_trans | apply untouched_call; reflexivity |].
  intros info.
  apply relates_bind; [exact untouched_trans | |].
  { intros w. apply (untouched_events _ _ []); reflexivity. }
  intros _. apply untouched_log; intros; discriminate.
Qed.

Lemma authenticate_raises_Exception (env : Env) (key secret : string) (w : Proc) (e : exn) :
  fst (authenticate env key secret w) = Raise e -> is_Exception e = true.
Proof.
  unfold authenticate. unfold_statements. simpl.
  destruct (token_valid env (clock w) key secret) as [[|] | f1]; simpl.
  - destruct (test_login env (S (clock w))) as [info | f2]; simpl; [discriminate|].
    intros H. injection H as <-. apply is_Exception_exn_of.
  - destruct (authenticate_via_browser env (S (clock w))) as [[] | f3]; simpl.
    + destruct (test_login env (S (S (clock w)))) as [info | f2]; simpl; [discriminate|].
      intros H. injection H as <-. apply is_Exception_exn_of.
    + intros H. injection H as <-. apply is_Exception_exn_of.
  - intros H. injection H as <-. apply is_Exception_exn_of.
Qed.

Lemma main_runs (env : Env) (key secret : string) (w : Proc) :
  placeholder key secret = false ->
  main env key secret w
  = match (authenticate env key secret;; download_library env) (constructed w) with
    | (Return _, w') => (Return 0, w')
    | (Raise KeyboardInterrupt, w') =>
        (Return 0, logged MsgRunAgain (logged MsgInterrupted w'))
    | (Raise e, w') => (Return 1, logged (MsgTraceback e) (logged (MsgFatal e) w'))
    end.
Proof.
  unfold placeholder. intros H. unfold main. rewrite H.
  unfold bind at 1. unfold modify at 1. unfold bind at 1. unfold modify at 1.
  fold (constructed w).
  destruct ((authenticate env key secret;; download_library env) (constructed w))
    as [[[]|[msg|msg|]] w']; reflexivity.
Qed.

(** X8: [main] lets no exception out and ends with exit status 0 or 1,
    whatever the collaborators answer. *)
Theorem main_exit_status (env : Env) (key secret : string) (w : Proc) :
  exists code w', main env key secret w = (Return code, w') /\ (code = 0 \/ code = 1).
Proof.
  destruct (placeholder key secret) eqn:Hp.
  - unfold placeholder in Hp. unfold main. rewrite Hp.
    eexists; eexists. split; [reflexivity | right; reflexivity].
  - rewrite (main_runs env key secret w Hp).
    destruct ((authenticate env key secret;; download_library env) (constructed w))
      as [[[]|[msg|msg|]] w']; eexists; eexists; (split; [reflexivity|]); auto.
Qed.

(** X9: when authentication raises, [main] logs the error and its
    traceback and exits with status 1 without running the download: no
    listing is requested, no checkpoint read into a run or saved, no file
    touched. *)
Theorem authentication_failure_is_fatal (env : Env) (key secret : string) (w : Proc)
        (e : exn) :
  placeholder key secret = false ->
  fst (authenticate env key secret (constructed w)) = Raise e ->
  exists w',
    main env key secret w = (Return 1, w')
    /\ head (trace w') = Some (EvLog (MsgTraceback e))
    /\ untouched w w'.
Proof.
  intros Hp Hauth. rewrite (main_runs env key secret w Hp).
  pose proof (authenticate_raises_Exception env key secret _ e Hauth) as Hexc.
  pose proof (authenticate_untouched env key secret (constructed w)) as Hun.
  unfold bind at 1.
  destruct (authenticate env key secret (constructed w)) as [r w1].
  simpl in Hauth, Hun. subst r.
  assert (Hfin : untouched w (logged (MsgTraceback e) (logged (MsgFatal e) w1))).
  { eapply untouched_trans; [|eapply untouched_trans; [exact Hun|]].
    - apply (untouched_events _ _ []); reflexivity.
    - apply (untouched_events _ _ [EvLog (MsgFatal e); EvLog (MsgTraceback e)]);
        reflexivity. }
  destruct e as [msg|msg|]; [| |discriminate Hexc];
    (eexists; split; [reflexivity|]; split; [reflexivity | exact Hfin]).
Qed.

Lemma authentication_failure_is_fatal_witness :
  exists w',
    main service_rejecting_key "key" "secret" fresh = (Return 1, w')
    /\ head (trace w')
       = Some (EvLog (MsgTraceback (FlickrError "Error: 100: Invalid API Key")))
    /\ untouched fresh w'.
Proof.
  apply (authentication_failure_is_fatal service_rejecting_key "key" "secret" fresh
           (FlickrError "Error: 100: Invalid API Key")); reflexivity.
Defined.

Lemma authenticate_valid (env : Env) (key secret : string) (w : Proc)
      (info : string * string) :
  token_valid env (clock w) key secret = Answer true ->
  test_login env (S (clock w)) = Answer info ->
  exists w', authenticate env key secret w = (Return tt, w')
             /\ clock w' = S (S (clock w))
             /\ user_id w' = Some (fst info).
Proof.
  intros Hv Hl. unfold authenticate. unfold_statements. simpl.
  rewrite Hv. simpl. rewrite Hl. simpl.
  eexists. split; [reflexivity|]. split; reflexivity.
Qed.

(** X10: once the credentials are accepted and the first listing request
    is answered, [main] ends with exit status 0 whatever fails afterwards:
    later listing requests, metadata queries and transfers, or Ctrl-C. *)
Theorem main_exits_zero_once_listing_starts (env : Env) (key secret : string)
        (w : Proc) (info : string * string) (fp : PhotosPage) :
  placeholder key secret = false ->
  token_valid env (clock w) key secret = Answer true ->
  test_login env (S (clock w)) = Answer info ->
  getPhotos env (S (S (clock w))) (Some (fst info)) 1 = Answer fp ->
  exists w', main env key secret w = (Return 0, w').
Proof.
  intros Hp Hv Hl Hfp. rewrite (main_runs env key secret w Hp).
  destruct (authenticate_valid env key secret (constructed w) info Hv Hl)
    as (w1 & Hauth & Hc & Hu).
  unfold bind at 1. rewrite Hauth.
  pose proof (download_library_outcome env w1) as Ho.
  rewrite Hc, Hu in Ho. change (clock (constructed w)) with (clock w) in Ho.
  rewrite Hfp in Ho.
  destruct (download_library env w1) as [r w2]. simpl in Ho.
  destruct Ho as [-> | ->]; eexists; reflexivity.
Qed.

Lemma main_exits_zero_once_listing_starts_witness :
  exists w', main service_mostly_down "key" "secret" fresh = (Return 0, w').
Proof.
  apply (main_exits_zero_once_listing_starts service_mostly_down "key" "secret" fresh
           ("12345@N00", "owner")
           {| total := 3; pages := 2; photo := two_then_one 1 |}); reflexivity.
Defined.

(** ** Relations that every statement of a run keeps *)

Lemma relates_for_each_elem (R : Proc -> Proc -> Prop) {A} (l : list A)
      (body : A -> M unit) :
  (forall w, R w w) -> (forall w1 w2 w3, R w1 w2 -> R w2 w3 -> R w1 w3) ->
  (forall x, x ∈ l -> relates R (body x)) -> relates R (for_each l body).
Proof.
  intros Hrefl Htrans. induction l as [|x l IH]; intros Hb; simpl.
  - apply relates_ret, Hrefl.
  - apply relates_bind; [exact Htrans | apply Hb, elem_of_cons; left; reflexivity |].
    intros _. apply IH. intros y Hy. apply Hb, elem_of_cons. right; exact Hy.
Qed.

(** Sequencing, when what the first statement returns is known to
    satisfy [Q]. *)
Lemma relates_bind_ensures (R : Proc -> Proc -> Prop) {A B} (m : M A) (k : A -> M B)
      (Q : A -> Prop) :
  (forall w1 w2 w3, R w1 w2 -> R w2 w3 -> R w1 w3) ->
  relates R m -> (forall w a, fst (m w) = Return a -> Q a) ->
  (forall a, Q a -> relates R (k a)) -> relates R (bind m k).
Proof.
  intros Htrans Hm HQ Hk w. unfold bind. specialize (Hm w). specialize (HQ w).
  destruct (m w) as [[a|e] w1]; simpl in *; [|exact Hm].
  eapply Htrans; [exact Hm|]. apply Hk, HQ. reflexivity.
Qed.

Lemma elem_of_enumerate {A} (l : list A) (s : Z) (x : Z * A) :
  x ∈ enumerate s l -> snd x ∈ l.
Proof.
  revert s; induction l as [|y l IH]; intros s H; simpl in H; [inversion H|].
  apply elem_of_cons in H as [-> | H]; apply elem_of_cons;
    [left; reflexivity | right; exact (IH _ H)].
Qed.

Lemma elem_of_range (a b p : Z) : p ∈ range a b -> a <= p < b.
Proof.
  unfold range. intros H. apply list_elem_of_In, in_map_iff in H as (k & <- & Hk).
  apply in_seq in Hk. lia.
Qed.

Section ProgramRelation.

Variable env : Env.
Variable R : Proc -> Proc -> Prop.
Hypothesis R_refl : forall w, R w w.
Hypothesis R_trans : forall w1 w2 w3, R w1 w2 -> R w2 w3 -> R w1 w3.

(** The pages for which the statements of a page keep the relation. *)
Variable Pg : Z -> Prop.

(** What is known of the photos that the listing returns. *)
Variable Ph : Photo -> Prop.

Hypothesis H_listed :
  forall t uid page pg ph,
    getPhotos env t uid page = Answer pg -> ph ∈ photo pg -> Ph ph.
Hypothesis H_log :
  forall m, (forall a b i t, m <> MsgPhoto a b i t) -> relates R (log m).
Hypothesis H_listing :
  forall uid p, relates R (call (EvGetPhotos p) (fun t => getPhotos env t uid p)).
Hypothesis H_total : forall n, relates R (modify (set_stats (set_total n))).
Hypothesis H_photo :
  forall page total_photos entry,
    Pg page -> Ph (snd entry) -> relates R (process_photo env page total_photos entry).
Hypothesis H_rollback : forall page, Pg page -> relates R (rollback env page).

Ltac program_step :=
  first
    [ apply relates_bind; [exact R_trans | | intros ?]
    | apply relates_try_except; [exact R_trans | | intros ?]
    | apply relates_when; [exact R_refl | ]
    | apply relates_gets; exact R_refl
    | apply relates_ret; exact R_refl
    | apply H_listing
    | apply H_total
    | apply H_log; intros; discriminate ].

Lemma program_page (s : Z) (fp : PhotosPage) (p : Z) :
  Pg p -> (forall ph, ph ∈ photo fp -> Ph ph) ->
  relates R (process_page env s fp p).
Proof.
  intros Hp Hfp. unfold process_page.
  program_step; [program_step|].
  program_step; [program_step|].
  program_step.
  - apply (relates_bind_ensures R _ _ (fun pg => forall ph, ph ∈ photo pg -> Ph ph));
      [exact R_trans | | |].
    + destruct ((p =? 1) && (s =? 1))%bool; repeat program_step.
    + intros w0 pd. destruct ((p =? 1) && (s =? 1))%bool.
      * intros H; injection H as <-. exact Hfp.
      * unfold bind, gets, call.
        destruct (getPhotos env (clock w0) (user_id w0) p) as [pg | f] eqn:E; simpl;
          intros H; [injection H as <- | discriminate].
        intros ph Hph. exact (H_listed _ _ _ _ ph E Hph).
    + intros pg Hpg. program_step; [program_step|].
      program_step; [|repeat program_step].
      apply relates_for_each_elem; [exact R_refl | exact R_trans |].
      intros entry Hentry. apply H_photo; [exact Hp|].
      apply Hpg, (elem_of_enumerate _ 1), Hentry.
  - program_step; [program_step|].
    program_step; [program_step|].
    apply (H_rollback p Hp).
Qed.

Lemma program_resume (st : State) :
  (forall p, last_page st + 1 <= p -> Pg p) -> relates R (resume env st).
Proof.
  intros Hpg. unfold resume. cbv zeta.
  program_step; [repeat program_step|].
  program_step; [program_step|].
  program_step; [program_step|].
  apply (relates_bind_ensures R _ _ (fun pg => forall ph, ph ∈ photo pg -> Ph ph));
    [exact R_trans | apply H_listing | |].
  - intros w0 fp. unfold call.
    match goal with |- context [getPhotos env ?t ?u 1] =>
      destruct (getPhotos env t u 1) as [pg | f] eqn:E end; simpl;
      intros H; [injection H as <- | discriminate].
    intros ph Hph. exact (H_listed _ _ _ _ ph E Hph).
  - intros fp Hfp.
    repeat (apply relates_bind; [exact R_trans | | intros ?]);
      try solve [repeat program_step].
    apply relates_for_each_elem; [exact R_refl | exact R_trans |].
    intros p Hp. apply program_page; [|exact Hfp].
    apply Hpg. apply elem_of_range in Hp. lia.
Qed.

End ProgramRelation.

(** ** The checkpoint at the end of a run *)

Lemma rollback_effect (env : Env) (page : Z) (w : Proc) :
  let w' := snd (rollback env page w) in
  events_between w w' [EvSaveState (set_last_page (page - 1) (state w)); EvSleep 5000]
  /\ state w' = set_last_page (page - 1) (state w)
  /\ state_file w' = Some (state w')
  /\ photos_dir w' = photos_dir w
  /\ metadata_dir w' = metadata_dir w
  /\ stats w' = stats w
  /\ user_id w' = user_id w.
Proof.
  unfold rollback, events_between; unfold_statements; simpl.
  destruct (interrupted env (clock w)); simpl; repeat split.
Qed.

(** A relation on the checkpoint that the quiet statements, the attempts
    and the handler of a page error keep is kept by the whole run. *)
Lemma state_relation_resume (env : Env) (R : Proc -> Proc -> Prop) (Pg : Z -> Prop)
      (Ph : Photo -> Prop) :
  (forall w, R w w) -> (forall w1 w2 w3, R w1 w2 -> R w2 w3 -> R w1 w3) ->
  (forall w w', quietly w w' -> R w w') ->
  (forall t uid page pg ph,
      getPhotos env t uid page = Answer pg -> ph ∈ photo pg -> Ph ph) ->
  (forall page total_photos entry,
      Pg page -> Ph (snd entry) -> relates R (process_photo env page total_photos entry)) ->
  (forall page, Pg page -> relates R (rollback env page)) ->
  forall st, (forall p, last_page st + 1 <= p -> Pg p) -> relates R (resume env st).
Proof.
  intros Hrefl Htrans Hquiet Hlisted Hphoto Hroll st Hpg.
  apply (program_resume env R Hrefl Htrans Pg Ph); try assumption.
  - intros m Hm w. apply Hquiet, quiet_log, Hm.
  - intros uid p w. apply Hquiet. apply quiet_call. split; reflexivity.
  - intros n w. apply Hquiet. apply quiet_modify. intros; repeat split.
Qed.

(** The three ways of [process_photo], for a relation on the checkpoint:
    the item is known, it is attempted and recorded, or the file system
    refuses its name and the attempt ends at the existence check. *)
Lemma state_relation_photo (env : Env) (R : Proc -> Proc -> Prop)
      (page total_photos : Z) (entry : Z * Photo) :
  (forall w w', quietly w w' -> R w w') ->
  (forall w w' new,
      photo_id (snd entry) ∉ downloaded (state w) ->
      events_between w w' new ->
      items_attempted new = [photo_id (snd entry)] ->
      attempt_recorded page (photo_id (snd entry)) (state w) (state w') ->
      state_file w' = Some (state w') ->
      R w w') ->
  (forall w w' new,
      ~ recordable env (snd entry) ->
      events_between w w' new ->
      items_attempted new = [photo_id (snd entry)] ->
      state w' = state w ->
      state_file w' = state_file w ->
      R w w') ->
  relates R (process_photo env page total_photos entry).
Proof.
  intros Hquiet Hattempt Hrefused w. destruct entry as [i p].
  destruct (decide (photo_id p ∈ downloaded (state w))) as [Hin | Hnew].
  - rewrite process_photo_known by exact Hin. simpl.
    apply Hquiet, (quiet_log (MsgSkippingProcessed (photo_id p))). intros; discriminate.
  - destruct (recordable_or_refused env p) as [Hok | (Hurl & msg & He)].
    + destruct (process_photo_effect env page total_photos i p w Hnew Hok)
        as (new & E & _ & A & Hrec & Hf & _).
      apply (Hattempt w _ new); assumption.
    + destruct (process_photo_refused env page total_photos i p w msg Hnew Hurl He)
        as (_ & new & E & _ & A & Hs & Hf & _).
      apply (Hrefused w _ new); try assumption.
      intros Hok. specialize (Hok Hurl). simpl in Hok. congruence.
Qed.

Lemma resume_synced (env : Env) (st : State) (w : Proc) :
  on_disk w = state w ->
  on_disk (snd (resume env st w)) = state (snd (resume env st w)).
Proof.
  intros Hsync.
  apply (state_relation_resume env
           (fun w w' => on_disk w = state w -> on_disk w' = state w')
           (fun _ => True) (fun _ => True)); try exact Hsync; try tauto.
  - intros w1 w2 [_ (Hs & Hf & _)] H. unfold on_disk in *. rewrite Hf, Hs. exact H.
  - intros page total_photos entry _ _. apply state_relation_photo.
    + intros w1 w2 [_ (Hs & Hf & _)] H. unfold on_disk in *. rewrite Hf, Hs. exact H.
    + intros w1 w2 new _ _ _ _ Hf _. unfold on_disk. rewrite Hf. reflexivity.
    + intros w1 w2 new _ _ _ Hs Hf H. unfold on_disk in *. rewrite Hf, Hs. exact H.
  - intros page _ w1 _.
    destruct (rollback_effect env page w1) as (_ & _ & Hf & _).
    cbv zeta in Hf. unfold on_disk. rewrite Hf. reflexivity.
Qed.

(** X11: however [download_library] ends (normally, by an exception or by
    Ctrl-C during a pause), the checkpoint file holds exactly the state of
    the run: no recorded progress is lost. *)
Theorem checkpoint_file_holds_the_state (env : Env) (w : Proc) :
  on_disk (snd (download_library env w)) = state (snd (download_library env w)).
Proof.
  rewrite download_library_resume. apply resume_synced. reflexivity.
Qed.

Lemma resume_no_duplicates (env : Env) (st : State) (w : Proc) :
  NoDup (downloaded (state w)) ->
  NoDup (downloaded (state (snd (resume env st w)))).
Proof.
  intros Hnd.
  apply (state_relation_resume env
           (fun w w' => NoDup (downloaded (state w)) -> NoDup (downloaded (state w')))
           (fun _ => True) (fun _ => True)); try exact Hnd; try tauto.
  - intros w1 w2 [_ (Hs & _)] H. rewrite Hs. exact H.
  - intros page total_photos entry _ _. apply state_relation_photo.
    + intros w1 w2 [_ (Hs & _)] H. rewrite Hs. exact H.
    + intros w1 w2 new Hnew _ _ [-> | ->] _ H; simpl; [|exact H].
      apply NoDup_app. split; [exact H|]. split; [|apply NoDup_singleton].
      intros x Hx Hx'. apply list_elem_of_singleton in Hx'. subst x. exact (Hnew Hx).
    + intros w1 w2 new _ _ _ Hs _ H. rewrite Hs. exact H.
  - intros page _ w1 H.
    destruct (rollback_effect env page w1) as (_ & Hs & _).
    cbv zeta in Hs. rewrite Hs. exact H.
Qed.

(** X12: an identifier is put in the complete list only if it is not
    there yet: when the complete list of the checkpoint on disk has no
    duplicates before a run, it has none after it. *)
Theorem complete_list_keeps_no_duplicates (env : Env) (w : Proc) :
  NoDup (downloaded (on_disk w)) ->
  NoDup (downloaded (on_disk (snd (download_library env w)))).
Proof.
  intros Hnd. rewrite download_library_resume.
  rewrite resume_synced by reflexivity.
  apply resume_no_duplicates. exact Hnd.
Qed.

Lemma complete_list_keeps_no_duplicates_witness :
  NoDup (downloaded (on_disk (snd (download_library (service_relisting 4) fresh)))).
Proof.
  apply (complete_list_keeps_no_duplicates (service_relisting 4) fresh).
  apply NoDup_nil_2.
Defined.

Lemma resume_tally (env : Env) (st : State) (w : Proc) :
  names_accepted env ->
  exists new,
    events_between w (snd (resume env st w)) new
    /\ (length (downloaded (state (snd (resume env st w))))
        + length (failed (state (snd (resume env st w))))
        = length (downloaded (state w)) + length (failed (state w))
          + length (items_attempted new))%nat.
Proof.
  intros Hacc.
  apply (state_relation_resume env
           (fun w w' =>
              exists new,
                events_between w w' new
                /\ (length (downloaded (state w')) + length (failed (state w'))
                    = length (downloaded (state w)) + length (failed (state w))
                      + length (items_attempted new))%nat)
           (fun _ => True) (recordable env)); try tauto.
  - intros w1. exists []. split; [reflexivity | simpl; lia].
  - intros w1 w2 w3 (n1 & E1 & H1) (n2 & E2 & H2). exists (n1 ++ n2)%list.
    split; [eapply events_between_trans; eassumption|].
    rewrite items_attempted_app, length_app. lia.
  - intros w1 w2 [(new & E & _ & A) (Hs & _)]. exists new.
    split; [exact E|]. rewrite A, Hs. simpl; lia.
  - intros t uid page pg ph. apply names_accepted_recordable, Hacc.
  - intros page total_photos entry _ Hok. apply state_relation_photo.
    + intros w1 w2 [(new & E & _ & A) (Hs & _)]. exists new.
      split; [exact E|]. rewrite A, Hs. simpl; lia.
    + intros w1 w2 new _ E A Hrec _. exists new. split; [exact E|].
      rewrite A. destruct Hrec as [-> | ->]; simpl; rewrite length_app; simpl; lia.
    + intros w1 w2 new Hno. contradiction.
  - intros page _ w1.
    destruct (rollback_effect env page w1) as (E & Hs & _). cbv zeta in *.
    eexists. split; [exact E|]. rewrite Hs. simpl. lia.
Qed.

(** X13: when the file system accepts the file name of every photo that
    the listing returns, every item that a run starts on is recorded
    exactly once: at the end of the run the two lists together are longer
    than those of the loaded checkpoint by the number of items attempted,
    also when the run was cut short between two items. *)
Theorem every_attempt_is_recorded_once (env : Env) (w : Proc) :
  names_accepted env ->
  let w' := snd (download_library env w) in
  exists new,
    events_between w w' new
    /\ (length (downloaded (state w')) + length (failed (state w'))
        = length (downloaded (on_disk w)) + length (failed (on_disk w))
          + length (items_attempted new))%nat.
Proof.
  intros Hacc. cbv zeta. rewrite download_library_resume.
  destruct (resume_tally env (on_disk w) (loaded w) Hacc) as (new & E & H).
  exists ([EvLog MsgRule; EvLog MsgStarting; EvLog MsgTargetDirectory; EvLog MsgRule;
           EvLoadState] ++ new)%list.
  split; [apply (events_between_trans w (loaded w)); [reflexivity | exact E]|].
  rewrite items_attempted_app. exact H.
Qed.

Lemma every_attempt_is_recorded_once_witness :
  let w' := snd (download_library (service 3 2 two_then_one) fresh) in
  exists new,
    events_between fresh w' new
    /\ (length (downloaded (state w')) + length (failed (state w'))
        = length (downloaded (on_disk fresh)) + length (failed (on_disk fresh))
          + length (items_attempted new))%nat.
Proof.
  apply (every_attempt_is_recorded_once (service 3 2 two_then_one) fresh).
  exact names_accepted_two_then_one.
Defined.

Lemma resume_last_page (env : Env) (st : State) (w : Proc) :
  last_page st <= last_page (state w) ->
  last_page st <= last_page (state (snd (resume env st w))).
Proof.
  intros Hle.
  apply (state_relation_resume env
           (fun w w' => last_page st <= last_page (state w) ->
                        last_page st <= last_page (state w'))
           (fun p => last_page st + 1 <= p) (fun _ => True)); try exact Hle; try tauto.
  - intros w1 w2 [_ (Hs & _)] H. rewrite Hs. exact H.
  - intros page total_photos entry Hpage _. apply state_relation_photo.
    + intros w1 w2 [_ (Hs & _)] H. rewrite Hs. exact H.
    + intros w1 w2 new _ _ _ [-> | ->] _ _; simpl; lia.
    + intros w1 w2 new _ _ _ Hs _ H. rewrite Hs. exact H.
  - intros page Hpage w1 _.
    destruct (rollback_effect env page w1) as (_ & Hs & _).
    cbv zeta in Hs. rewrite Hs. simpl. lia.
Qed.

(** X14: the page at which the next run resumes never moves back: the
    last page of the checkpoint on disk after a run is at least the one
    before it. *)
Theorem last_page_never_moves_back (env : Env) (w : Proc) :
  last_page (on_disk w) <= last_page (on_disk (snd (download_library env w))).
Proof.
  rewrite download_library_resume.
  rewrite resume_synced by reflexivity.
  apply resume_last_page. simpl. lia.
Qed.

(** ** Files and counters *)

Lemma books_events (I : string -> Prop) (w w' : Proc) (new : list event) :
  events_between w w' new ->
  items_attempted new = [] -> transfers_requested new = [] ->
  photos_dir w' = photos_dir w -> metadata_dir w' = metadata_dir w ->
  Stats.downloaded (stats w') = Stats.downloaded (stats w) ->
  Stats.failed (stats w') = Stats.failed (stats w) ->
  Stats.skipped (stats w) <= Stats.skipped (stats w') ->
  books I w w'.
Proof.
  intros E A T Hp Hm Hd Hf Hs. unfold books.
  rewrite Hp, Hm, Hd, Hf. split; [reflexivity|]. split; [left; reflexivity|].
  split; [exact Hs|]. exists new. split; [exact E|].
  rewrite A, T. split; [intros x Hx; inversion Hx | simpl; lia].
Qed.

Lemma books_refl (I : string -> Prop) (w : Proc) : books I w w.
Proof. apply (books_events I w w []); try reflexivity. Qed.

Lemma books_trans (I : string -> Prop) (w1 w2 w3 : Proc) :
  books I w1 w2 -> books I w2 w3 -> books I w1 w3.
Proof.
  intros (Hp1 & Hm1 & Hs1 & n1 & E1 & A1 & T1) (Hp2 & Hm2 & Hs2 & n2 & E2 & A2 & T2).
  split; [etrans; eassumption|].
  split.
  { intros i. destruct (Hm2 i) as [H2 | H2]; [|right; exact H2].
    rewrite H2. destruct (Hm1 i) as [H1 | (Hi & md & p & H1 & Hl)].
    - left; exact H1.
    - right. split; [exact Hi|]. exists md, p. split; [exact H1 | exact Hl]. }
  split; [lia|].
  exists (n1 ++ n2)%list. split; [eapply events_between_trans; eassumption|].
  rewrite items_attempted_app, transfers_requested_app, length_app.
  split; [|lia].
  intros x Hx. apply elem_of_app in Hx as [Hx | Hx]; [apply A1 | apply A2]; exact Hx.
Qed.

Lemma books_weaken (I J : string -> Prop) (w w' : Proc) :
  (forall i, I i -> J i) -> books I w w' -> books J w w'.
Proof.
  intros HIJ (Hp & Hm & Hs & new & E & A & T).
  split; [exact Hp|]. split.
  { intros i. destruct (Hm i) as [H | (Hi & H)]; [left; exact H | right].
    split; [apply HIJ, Hi | exact H]. }
  split; [exact Hs|]. exists new. split; [exact E|]. split; [|exact T].
  intros x Hx. apply HIJ, A, Hx.
Qed.

Lemma books_log (I : string -> Prop) (m : message) :
  (forall a b i t, m <> MsgPhoto a b i t) -> relates (books I) (log m).
Proof.
  intros Hm w. apply (books_events I _ _ [EvLog m]); try reflexivity.
  destruct m; try reflexivity. exfalso. eapply Hm; reflexivity.
Qed.

Lemma books_log_photo (I : string -> Prop) (a b : Z) (i : string) (t : PyStr.text) :
  I i -> relates (books I) (log (MsgPhoto a b i t)).
Proof.
  intros Hi w. split; [reflexivity|]. split; [left; reflexivity|].
  split; [reflexivity|]. exists [EvLog (MsgPhoto a b i t)].
  split; [reflexivity|]. split; [|simpl; lia].
  intros x Hx. apply list_elem_of_singleton in Hx. subst x. exact Hi.
Qed.

Lemma books_call (I : string -> Prop) {A} (ev : event) (oracle : nat -> reply A) :
  items_attempted [ev] = [] -> transfers_requested [ev] = [] ->
  relates (books I) (call ev oracle).
Proof.
  intros Ha Ht w. unfold call.
  destruct (oracle (clock w)); apply (books_events I _ _ [ev]); try reflexivity; assumption.
Qed.

Lemma books_sleep (I : string -> Prop) (env : Env) (ms : Z) :
  relates (books I) (sleep env ms).
Proof.
  intros w. unfold sleep.
  destruct (interrupted env (clock w)); apply (books_events I _ _ [EvSleep ms]);
    reflexivity.
Qed.

Lemma books_modify (I : string -> Prop) (f : Proc -> Proc) :
  (forall w, trace (f w) = trace w /\ photos_dir (f w) = photos_dir w
             /\ metadata_dir (f w) = metadata_dir w
             /\ Stats.downloaded (stats (f w)) = Stats.downloaded (stats w)
             /\ Stats.failed (stats (f w)) = Stats.failed (stats w)
             /\ Stats.skipped (stats (f w)) = Stats.skipped (stats w)) ->
  relates (books I) (modify f).
Proof.
  intros Hf w. destruct (Hf w) as (Ht & Hp & Hm & Hd & Hfl & Hs).
  apply (books_events I _ _ []); try assumption; try reflexivity.
  simpl. lia.
Qed.

Lemma books_save_state (I : string -> Prop) (st : State) :
  relates (books I) (save_state st).
Proof. intros w. apply (books_events I _ _ [EvSaveState st]); reflexivity. Qed.

Lemma books_save_metadata (I : string -> Prop) (i : string) (md : Metadata) (p : Photo) :
  I i -> list_info md = Some p -> photo_id p = i ->
  relates (books I) (save_metadata i md).
Proof.
  intros Hi Hl Hp w. split; [reflexivity|]. split.
  { intros j. simpl. destruct (decide (j = i)) as [-> | Hne].
    - right. split; [exact Hi|]. exists md, p. rewrite lookup_insert_eq. repeat split; assumption.
    - left. apply lookup_insert_ne. congruence. }
  split; [reflexivity|]. exists [EvSaveMetadata i].
  split; [reflexivity|]. split; [intros x Hx; inversion Hx | simpl; lia].
Qed.

Lemma books_download_photo (I : string -> Prop) (env : Env) (i u : string) (fn : PyStr.text) :
  relates (books I) (download_photo env i u fn).
Proof.
  intros w. destruct (exists_error env fn) as [msg|] eqn:He.
  { rewrite (download_photo_refused env i u fn w msg He). apply books_refl. }
  destruct (photos_dir w !! fn) as [body|] eqn:Hfile.
  - rewrite (download_photo_existing env i u fn w He) by (exists body; exact Hfile).
    apply (books_events I _ _ [EvLog (MsgSkippingExisting fn)]); try reflexivity.
    simpl. lia.
  - rewrite (download_photo_absent env i u fn w He Hfile). cbv zeta.
    destruct (requests_get env (clock w) u) as [body | f | partial f].
    + split; [apply insert_subseteq, Hfile|]. split; [left; reflexivity|].
      split; [reflexivity|].
      exists [EvLog (MsgDownloading fn); EvRequestsGet u; EvLog (MsgSuccess fn)].
      split; [reflexivity|]. split; [intros x Hx; inversion Hx | simpl; lia].
    + split; [reflexivity|]. split; [left; reflexivity|].
      split; [reflexivity|].
      exists [EvLog (MsgDownloading fn); EvRequestsGet u;
              EvLog (MsgDownloadFailed fn (exn_of f))].
      split; [reflexivity|]. split; [intros x Hx; inversion Hx | simpl; lia].
    + split; [apply insert_subseteq, Hfile|]. split; [left; reflexivity|].
      split; [reflexivity|].
      exists [EvLog (MsgDownloading fn); EvRequestsGet u;
              EvLog (MsgDownloadFailed fn (exn_of f))].
      split; [reflexivity|]. split; [intros x Hx; inversion Hx | simpl; lia].
Qed.

Ltac books_step :=
  first
    [ apply books_download_photo
    | apply relates_file_exists; apply books_refl
    | apply books_sleep
    | apply books_save_state
    | apply relates_bind; [apply books_trans | | intros ?]
    | apply relates_try_except; [apply books_trans | | intros ?]
    | apply relates_when; [apply books_refl | ]
    | apply relates_gets; apply books_refl
    | apply relates_ret; apply books_refl
    | solve [apply books_log; intros; discriminate]
    | solve [apply books_call; reflexivity]
    | solve [apply books_modify; intros; repeat split] ].

Lemma books_get_photo_metadata (I : string -> Prop) (env : Env) (i : string) :
  relates (books I) (get_photo_metadata env i).
Proof. unfold get_photo_metadata, optional_query. repeat books_step. Qed.

Lemma books_fetch_and_checkpoint (I : string -> Prop) (env : Env) (page : Z) (p : Photo) :
  relates (books I) (fetch_and_checkpoint env page p).
Proof.
  unfold fetch_and_checkpoint. cbv zeta.
  books_step; [|repeat books_step].
  destruct (get_download_url p) as [u|]; [|repeat books_step].
  destruct (PyStr.truthy u); [|repeat books_step].
  books_step; [books_step|].
  books_step; [match goal with |- context [if ?b then _ else _] => destruct b end;
               books_step|].
  match goal with |- context [if ?b then _ else _] => destruct b end; books_step.
Qed.

Lemma books_process_photo (env : Env) (page total_photos : Z) (entry : Z * Photo) :
  relates (books (fun i => i = photo_id (snd entry)))
          (process_photo env page total_photos entry).
Proof.
  destruct entry as [i p]. unfold process_photo. simpl.
  books_step; [books_step|].
  match goal with |- context [decide ?P] => destruct (decide P) end; [books_step|].
  books_step; [apply books_log_photo; reflexivity|].
  books_step; [apply books_get_photo_metadata|].
  books_step; [|apply books_fetch_and_checkpoint].
  match goal with |- context [match ?m with Some _ => _ | None => _ end] =>
    destruct m as [md|] end; [|books_step].
  apply (books_save_metadata _ _ _ p); reflexivity.
Qed.

Lemma books_rollback (I : string -> Prop) (env : Env) (page : Z) :
  relates (books I) (rollback env page).
Proof. unfold rollback. repeat books_step. Qed.

Lemma run_books_refl (w : Proc) : run_books w w.
Proof. split; [reflexivity | apply books_refl]. Qed.

Lemma run_books_trans (w1 w2 w3 : Proc) :
  run_books w1 w2 -> run_books w2 w3 -> run_books w1 w3.
Proof.
  intros [Hd1 Hb1] [Hd2 Hb2]. split; [etrans; eassumption|].
  apply (books_trans _ w1 w2 w3); [exact Hb1|].
  apply (books_weaken (fun i => i ∉ downloaded (state w2))); [|exact Hb2].
  intros i Hi Hin. apply Hi. destruct Hd1 as [k ->]. apply elem_of_app. left; exact Hin.
Qed.

Lemma run_books_same_lists (w w' : Proc) :
  downloaded (state w') = downloaded (state w) ->
  books (fun i => i ∉ downloaded (state w)) w w' -> run_books w w'.
Proof. intros H Hb. split; [rewrite H; reflexivity | exact Hb]. Qed.

Lemma run_books_resume (env : Env) (st : State) : relates run_books (resume env st).
Proof.
  apply (program_resume env run_books run_books_refl run_books_trans (fun _ => True)
           (fun _ => True)); [tauto | | | | | | tauto].
  - intros m Hm w. apply run_books_same_lists; [reflexivity | apply books_log, Hm].
  - intros uid p w. apply run_books_same_lists.
    + unfold call. destruct (getPhotos env (clock w) uid p); reflexivity.
    + apply books_call; reflexivity.
  - intros n w. apply run_books_same_lists; [reflexivity|].
    apply books_modify. intros; repeat split.
  - intros page total_photos entry _ _ w. split.
    + destruct entry as [i p].
      destruct (decide (photo_id p ∈ downloaded (state w))) as [Hin | Hnew].
      * rewrite process_photo_known by exact Hin. reflexivity.
      * destruct (recordable_or_refused env p) as [Hok | (Hurl & msg & He)].
        -- destruct (process_photo_effect env page total_photos i p w Hnew Hok)
             as (new & _ & _ & _ & Hrec & _).
           destruct Hrec as [-> | ->]; simpl; [apply prefix_app_r|]; reflexivity.
        -- destruct (process_photo_refused env page total_photos i p w msg Hnew Hurl He)
             as (_ & new & _ & _ & _ & Hs & _).
           cbv zeta in Hs. rewrite Hs. reflexivity.
    + destruct (decide (photo_id (snd entry) ∈ downloaded (state w))) as [Hin | Hnew].
      * destruct entry as [i p]. rewrite process_photo_known by exact Hin.
        apply (books_log _ (MsgSkippingProcessed (photo_id p))). intros; discriminate.
      * apply (books_weaken (fun i => i = photo_id (snd entry)));
          [intros i ->; exact Hnew | apply books_process_photo].
  - intros page _ w.
    destruct (rollback_effect env page w) as (_ & Hs & _). cbv zeta in Hs.
    apply run_books_same_lists; [rewrite Hs; reflexivity|].
    apply books_rollback.
Qed.

Lemma run_books_download_library (env : Env) (w : Proc) :
  books (fun i => i ∉ downloaded (on_disk w)) w (snd (download_library env w)).
Proof.
  rewrite download_library_resume.
  apply (books_trans _ w (loaded w)).
  - apply (books_events _ _ _ [EvLog MsgRule; EvLog MsgStarting; EvLog MsgTargetDirectory;
                               EvLog MsgRule; EvLoadState]); try reflexivity.
  - apply (run_books_resume env (on_disk w) (loaded w)).
Qed.

(** X15: a run never overwrites or removes a photo file: every file of the
    photo directory is there after the run, with the content it had. *)
Theorem photo_files_are_never_overwritten (env : Env) (w : Proc) :
  photos_dir w ⊆ photos_dir (snd (download_library env w)).
Proof. apply run_books_download_library. Qed.

(** X16: a run leaves alone the items of the complete list that it loads:
    it attempts none of them, and their metadata files stay as they are. *)
Theorem complete_items_are_left_alone (env : Env) (w : Proc) (i : string) :
  i ∈ downloaded (on_disk w) ->
  let w' := snd (download_library env w) in
  metadata_dir w' !! i = metadata_dir w !! i
  /\ exists new, events_between w w' new /\ i ∉ items_attempted new.
Proof.
  intros Hin.
  destruct (run_books_download_library env w) as (_ & Hm & _ & new & E & A & _).
  cbv zeta. split.
  - destruct (Hm i) as [H | [Hi _]]; [exact H | contradiction].
  - exists new. split; [exact E|]. intros Hx. exact (A i Hx Hin).
Qed.

Lemma complete_items_are_left_alone_witness :
  let w' := snd (download_library (service 3 2 two_then_one) checkpointed) in
  metadata_dir w' !! "1" = metadata_dir checkpointed !! "1"
  /\ exists new, events_between checkpointed w' new /\ "1" ∉ items_attempted new.
Proof.
  apply (complete_items_are_left_alone (service 3 2 two_then_one) checkpointed "1").
  refine (bool_decide_unpack _ _). vm_compute. exact I.
Defined.

(** X17: every metadata file that a run writes carries, under
    [list_info], the listing entry of the photo it is named after. *)
Theorem metadata_files_carry_their_listing (env : Env) (w : Proc) (i : string)
        (md : Metadata) :
  metadata_dir (snd (download_library env w)) !! i = Some md ->
  metadata_dir w !! i = Some md
  \/ exists p, list_info md = Some p /\ photo_id p = i.
Proof.
  intros H.
  destruct (run_books_download_library env w) as (_ & Hm & _).
  destruct (Hm i) as [Hsame | (_ & md' & p & Hmd & Hl & Hp)].
  - left. rewrite <- Hsame. exact H.
  - right. exists p. rewrite H in Hmd. injection Hmd as <-. split; assumption.
Qed.

Lemma metadata_files_carry_their_listing_witness :
  let md := {| info := "info of 1"; exif := Some "exif of 1";
               comments := Some "comments of 1"; list_info := Some (listed "1" true) |} in
  metadata_dir fresh !! "1" = Some md
  \/ exists p, list_info md = Some p /\ photo_id p = "1".
Proof.
  apply (metadata_files_carry_their_listing (service 3 2 two_then_one) fresh "1").
  vm_compute. reflexivity.
Defined.

(** X18: every transfer that a run requests is counted exactly once, as a
    download or as a failure; the counter of skipped files never
    decreases. *)
Theorem transfers_are_counted_once (env : Env) (w : Proc) :
  let w' := snd (download_library env w) in
  exists new,
    events_between w w' new
    /\ Z.of_nat (length (transfers_requested new))
       = Stats.downloaded (stats w') - Stats.downloaded (stats w)
         + (Stats.failed (stats w') - Stats.failed (stats w))
    /\ Stats.skipped (stats w) <= Stats.skipped (stats w').
Proof.
  destruct (run_books_download_library env w) as (_ & _ & Hs & new & E & _ & T).
  exists new. repeat split; assumption.
Qed.

(** ** The pages that a run requests *)

Lemma requests_refl (w : Proc) : requests [] w w.
Proof. exists []. split; reflexivity. Qed.

Lemma requests_trans (l1 l2 : list Z) (w1 w2 w3 : Proc) :
  requests l1 w1 w2 -> requests l2 w2 w3 -> requests (l1 ++ l2) w1 w3.
Proof.
  intros (n1 & E1 & H1) (n2 & E2 & H2). exists (n1 ++ n2)%list.
  split; [eapply events_between_trans; eassumption|].
  rewrite pages_requested_app, H1, H2. reflexivity.
Qed.

Lemma requests_nil_trans (w1 w2 w3 : Proc) :
  requests [] w1 w2 -> requests [] w2 w3 -> requests [] w1 w3.
Proof. apply (requests_trans [] []). Qed.

Lemma requests_event (e : event) (w w' : Proc) :
  trace w' = e :: trace w -> requests (pages_requested [e]) w w'.
Proof. intros H. exists [e]. split; [exact H | reflexivity]. Qed.

Lemma requests_same (w w' : Proc) : trace w' = trace w -> requests [] w w'.
Proof. intros H. exists []. split; [exact H | reflexivity]. Qed.

Lemma requests_log (m : message) : relates (requests []) (log m).
Proof. intros w. apply (requests_event (EvLog m)). reflexivity. Qed.

Lemma requests_call {A} (ev : event) (oracle : nat -> reply A) :
  relates (requests (pages_requested [ev])) (call ev oracle).
Proof.
  intros w. apply requests_event. unfold call. destruct (oracle (clock w)); reflexivity.
Qed.

Lemma requests_sleep (env : Env) (ms : Z) : relates (requests []) (sleep env ms).
Proof.
  intros w. apply (requests_event (EvSleep ms)). unfold sleep.
  destruct (interrupted env (clock w)); reflexivity.
Qed.

Lemma requests_modify (f : Proc -> Proc) :
  (forall w, trace (f w) = trace w) -> relates (requests []) (modify f).
Proof. intros Hf w. apply requests_same, Hf. Qed.

Lemma requests_save_state (st : State) : relates (requests []) (save_state st).
Proof. intros w. apply (requests_event (EvSaveState st)). reflexivity. Qed.

Lemma requests_save_metadata (i : string) (md : Metadata) :
  relates (requests []) (save_metadata i md).
Proof. intros w. apply (requests_event (EvSaveMetadata i)). reflexivity. Qed.

Lemma requests_stream_to_file (env : Env) (url : string) (filename : PyStr.text) :
  relates (requests []) (stream_to_file env url filename).
Proof.
  intros w. apply (requests_event (EvRequestsGet url)). unfold stream_to_file.
  destruct (requests_get env (clock w) url); reflexivity.
Qed.

Ltac requests_step :=
  first
    [ apply requests_log
    | apply requests_sleep
    | apply requests_save_state
    | apply requests_save_metadata
    | apply requests_stream_to_file
    | solve [apply relates_file_exists; exact requests_refl]
    | solve [apply (requests_call (A := doc)); reflexivity]
    | apply relates_bind; [exact requests_nil_trans | | intros ?]
    | apply relates_try_except; [exact requests_nil_trans | | intros ?]
    | apply relates_when; [exact requests_refl | ]
    | apply relates_gets; exact requests_refl
    | apply relates_ret; exact requests_refl
    | solve [apply requests_modify; intros; reflexivity] ].

Lemma requests_get_photo_metadata (env : Env) (i : string) :
  relates (requests []) (get_photo_metadata env i).
Proof.
  unfold get_photo_metadata, optional_query.
  repeat first [ apply (requests_call (EvGetInfo i))
               | apply (requests_call (EvGetExif i))
               | apply (requests_call (EvGetComments i))
               | requests_step ].
Qed.

Lemma requests_download_photo (env : Env) (i u : string) (fn : PyStr.text) :
  relates (requests []) (download_photo env i u fn).
Proof.
  unfold download_photo.
  requests_step; [requests_step|].
  match goal with |- context [if ?b then _ else _] => destruct b end;
    repeat requests_step.
Qed.

Lemma requests_fetch_and_checkpoint (env : Env) (page : Z) (p : Photo) :
  relates (requests []) (fetch_and_checkpoint env page p).
Proof.
  unfold fetch_and_checkpoint. cbv zeta.
  requests_step; [|repeat requests_step].
  destruct (get_download_url p) as [u|]; [|repeat requests_step].
  destruct (PyStr.truthy u); [|repeat requests_step].
  requests_step; [apply requests_download_photo|].
  requests_step; [match goal with |- context [if ?b then _ else _] => destruct b end;
                  requests_step|].
  match goal with |- context [if ?b then _ else _] => destruct b end; requests_step.
Qed.

Lemma requests_process_photo (env : Env) (page total_photos : Z) (entry : Z * Photo) :
  relates (requests []) (process_photo env page total_photos entry).
Proof.
  destruct entry as [i p]. unfold process_photo.
  requests_step; [requests_step|].
  match goal with |- context [decide ?P] => destruct (decide P) end; [requests_step|].
  requests_step; [requests_step|].
  requests_step; [apply requests_get_photo_metadata|].
  requests_step; [|apply requests_fetch_and_checkpoint].
  match goal with |- context [match ?m with Some _ => _ | None => _ end] =>
    destruct m as [md|] end; requests_step.
Qed.

(** The statements of a page request its listing once, unless it is the
    first page of a run that starts there, and no other. *)
Lemma process_page_requests (env : Env) (s : Z) (fp : PhotosPage) (p : Z) :
  relates (requests (if ((p =? 1) && (s =? 1))%bool then [] else [p]))
          (process_page env s fp p).
Proof.
  intros w. unfold process_page.
  unfold bind at 1. unfold log at 1, emit at 1, modify at 1.
  unfold bind at 1. unfold log at 1, emit at 1, modify at 1.
  set (w0 := set_trace _ (set_trace _ w)).
  assert (H0 : requests [] w w0).
  { exists [EvLog MsgDashes; EvLog (MsgProcessingPage p (pages fp))].
    split; reflexivity. }
  set (l := if ((p =? 1) && (s =? 1))%bool then [] else [p]).
  change l with ([] ++ l)%list. apply (requests_trans [] l w w0); [exact H0|].
  assert (Hfirst : relates (requests l)
                     (if ((p =? 1) && (s =? 1))%bool then ret fp
                      else uid <- gets user_id;;
                           call (EvGetPhotos p) (fun t => getPhotos env t uid p))).
  { subst l. destruct ((p =? 1) && (s =? 1))%bool.
    - apply relates_ret, requests_refl.
    - intros w1. unfold bind, gets. apply (requests_call (EvGetPhotos p)). }
  unfold try_except. unfold bind at 1.
  pose proof (Hfirst w0) as H1.
  destruct ((if ((p =? 1) && (s =? 1))%bool then ret fp
             else uid <- gets user_id;;
                  call (EvGetPhotos p) (fun t => getPhotos env t uid p)) w0)
    as [[page_data | e] w1]; simpl in H1.
  - match goal with |- context [?rest w1] =>
      assert (H2 : requests [] w1 (snd (rest w1))) end.
    { apply (relates_bind (requests [])); [exact requests_nil_trans | requests_step |].
      intros _.
      apply (relates_bind (requests [])); [exact requests_nil_trans | | intros _].
      - apply relates_for_each; [exact requests_refl | exact requests_nil_trans |].
        intros entry. apply requests_process_photo.
      - repeat requests_step. }
    match type of H2 with requests [] w1 (snd ?r) => destruct r as [[[]|e] w2] end;
      simpl in H2.
    + rewrite <- (app_nil_r l). apply (requests_trans l [] w0 w1); assumption.
    + assert (H3 : requests [] w2
                     (snd ((log (MsgErrorOnPage p e);; log MsgSavingState;;
                            modify (set_state (set_last_page (p - 1)));;
                            st <- gets state;; save_state st;; sleep env 5000) w2))).
      { generalize w2. change (relates (requests [])
                                 (log (MsgErrorOnPage p e);; log MsgSavingState;;
                                  modify (set_state (set_last_page (p - 1)));;
                                  st <- gets state;; save_state st;; sleep env 5000)).
        repeat requests_step. }
      destruct (is_Exception e).
      * rewrite <- (app_nil_r l). apply (requests_trans l [] w0 w1); [exact H1|].
        apply (requests_nil_trans w1 w2); assumption.
      * rewrite <- (app_nil_r l). apply (requests_trans l [] w0 w1); assumption.
  - assert (H3 : requests [] w1
                   (snd ((log (MsgErrorOnPage p e);; log MsgSavingState;;
                          modify (set_state (set_last_page (p - 1)));;
                          st <- gets state;; save_state st;; sleep env 5000) w1))).
    { generalize w1. change (relates (requests [])
                               (log (MsgErrorOnPage p e);; log MsgSavingState;;
                                modify (set_state (set_last_page (p - 1)));;
                                st <- gets state;; save_state st;; sleep env 5000)).
      repeat requests_step. }
    destruct (is_Exception e).
    + rewrite <- (app_nil_r l). apply (requests_trans l [] w0 w1); assumption.
    + exact H1.
Qed.

Lemma requests_logged (l : list Z) (m : message) (w w' : Proc) :
  requests l w w' -> requests l w (logged m w').
Proof.
  intros H. rewrite <- (app_nil_r l). apply (requests_trans l [] w w'); [exact H|].
  apply (requests_event (EvLog m)). reflexivity.
Qed.

Lemma requests_announced (st : State) (w : Proc) : requests [] w (announced st w).
Proof.
  unfold announced. destruct (1 <? last_page st + 1);
    repeat apply requests_logged; apply requests_refl.
Qed.

Lemma requests_counted (fp : PhotosPage) (w : Proc) : requests [1] w (counted fp w).
Proof.
  unfold counted.
  assert (H : requests [1] w (logged (MsgTotalPages (pages fp))
                                (logged (MsgTotalPhotos (total fp))
                                   (called (EvGetPhotos 1) w)))).
  { repeat apply requests_logged. apply (requests_event (EvGetPhotos 1)). reflexivity. }
  destruct H as (new & E & H). exists new. split; [exact E | exact H].
Qed.

Lemma requests_summarized (w : Proc) : requests [] w (summarized w).
Proof. unfold summarized. cbv zeta. repeat apply requests_logged. apply requests_refl. Qed.

Lemma requests_loaded (w : Proc) : requests [] w (loaded w).
Proof.
  exists [EvLog MsgRule; EvLog MsgStarting; EvLog MsgTargetDirectory; EvLog MsgRule;
          EvLoadState].
  split; reflexivity.
Qed.

(** The loop over the pages requests them one after the other, and stops
    where the run is interrupted. *)
Lemma pages_loop_requests (env : Env) (s : Z) (fp : PhotosPage) (a0 : Z) :
  (forall q, a0 <= q -> ((q =? 1) && (s =? 1))%bool = false) ->
  forall (n : nat) (a : Z) (w : Proc),
    a0 <= a ->
    exists stop,
      a <= stop
      /\ requests (range a stop) w
           (snd (for_each (range a (a + Z.of_nat n)) (process_page env s fp) w)).
Proof.
  intros Hq. induction n as [|n IH]; intros a w Ha.
  - exists a. split; [lia|]. rewrite !range_nil by lia. apply requests_refl.
  - rewrite range_nat. cbn [for_each]. unfold bind at 1.
    pose proof (process_page_requests env s fp a w) as H1.
    rewrite (Hq a Ha) in H1.
    destruct (process_page env s fp a w) as [[[]|e] w1]; simpl in H1.
    + destruct (IH (a + 1) w1) as (stop & Hstop & H2); [lia|].
      exists stop. split; [lia|].
      rewrite (range_cons a stop) by lia.
      apply (requests_trans [a] (range (a + 1) stop) w w1); assumption.
    + exists (a + 1). split; [lia|].
      rewrite (range_cons a (a + 1)) by lia. rewrite range_nil by lia. exact H1.
Qed.

Lemma pages_requests (env : Env) (s : Z) (fp : PhotosPage) (w : Proc) :
  exists stop,
    requests (range (first_requested s) stop) w
      (snd (for_each (range s (pages fp + 1)) (process_page env s fp) w)).
Proof.
  unfold first_requested. destruct (s =? 1) eqn:Hs.
  - apply Z.eqb_eq in Hs. subst s.
    destruct (Z_le_gt_dec (pages fp + 1) 1) as [Hle | Hgt].
    + exists 2. rewrite !range_nil by lia. apply requests_refl.
    + rewrite (range_cons 1 (pages fp + 1)) by lia. cbn [for_each]. unfold bind at 1.
      pose proof (process_page_requests env 1 fp 1 w) as H1. simpl in H1.
      destruct (process_page env 1 fp 1 w) as [[[]|e] w1]; simpl in H1.
      * destruct (pages_loop_requests env 1 fp 2) with
          (n := Z.to_nat (pages fp + 1 - 2)) (a := 2) (w := w1)
          as (stop & _ & H2).
        { intros q Hq. replace (q =? 1) with false by (symmetry; apply Z.eqb_neq; lia).
          reflexivity. }
        { lia. }
        exists stop. change (1 + 1) with 2. rewrite (range_span 2 (pages fp + 1)).
        apply (requests_trans [] (range 2 stop) w w1); assumption.
      * exists 2. rewrite range_nil by lia. exact H1.
  - destruct (pages_loop_requests env s fp s) with
      (n := Z.to_nat (pages fp + 1 - s)) (a := s) (w := w) as (stop & _ & H2).
    { intros q _. rewrite Hs. apply andb_false_r. }
    { lia. }
    exists stop. rewrite (range_span s (pages fp + 1)). exact H2.
Qed.

Lemma resume_requests (env : Env) (st : State) (w : Proc) :
  exists stop,
    requests (1 :: range (first_requested (last_page st + 1)) stop) w
             (snd (resume env st w)).
Proof.
  rewrite resume_eq. cbv zeta.
  pose proof (requests_announced st w) as H0.
  destruct (getPhotos env (clock (announced st w)) (user_id (announced st w)) 1)
    as [fp | f].
  - pose proof (requests_counted fp (announced st w)) as H1.
    destruct (pages_requests env (last_page st + 1) fp (counted fp (announced st w)))
      as (stop & H2).
    exists stop.
    assert (H : forall w1, requests (range (first_requested (last_page st + 1)) stop)
                                    (counted fp (announced st w)) w1 ->
                           requests (1 :: range (first_requested (last_page st + 1)) stop)
                                    w w1).
    { intros w1 H. apply (requests_trans [] (1 :: _) w (announced st w)); [exact H0|].
      apply (requests_trans [1] _ _ (counted fp (announced st w))); assumption. }
    destruct (for_each _ _ (counted fp (announced st w))) as [[[]|e] w1]; simpl in H2.
    + simpl. apply H. rewrite <- (app_nil_r (range _ _)).
      apply (requests_trans _ [] _ w1); [exact H2 | apply requests_summarized].
    + simpl. apply H, H2.
  - exists (first_requested (last_page st + 1)). rewrite range_nil by lia. simpl.
    apply (requests_trans [] [1] w (announced st w)); [exact H0|].
    apply (requests_event (EvGetPhotos 1)). reflexivity.
Qed.

(** X19: whatever fails, a run asks for no page of the listing twice after
    its first request: it asks for page 1, then for the pages from the one
    after the loaded last page on (from page 2 when it starts at page 1,
    whose listing it already has), one after the other in increasing
    order, up to where it ends. *)
Theorem pages_are_requested_once_in_order (env : Env) (w : Proc) :
  let w' := snd (download_library env w) in
  exists new stop,
    events_between w w' new
    /\ pages_requested new
       = 1 :: range (first_requested (last_page (on_disk w) + 1)) stop.
Proof.
  cbv zeta. rewrite download_library_resume.
  destruct (resume_requests env (on_disk w) (loaded w)) as (stop & H).
  destruct (requests_trans [] _ w (loaded w) _ (requests_loaded w) H) as (new & E & Hn).
  exists new, stop. split; [exact E | exact Hn].
Qed.

(** ** One call of the content fetcher *)

(** X20: the existence check of [download_photo] is made before its try
    block.  When the file system refuses the name, the OSError of the check
    leaves the method and nothing is changed or counted.  When the check
    answers, the call raises nothing: it returns True or False, True only
    if the file is in the photo directory afterwards, and it adds one to
    exactly one of the three counters. *)
Theorem download_photo_counts_once (env : Env) (i u : string) (fn : PyStr.text)
        (w : Proc) :
  match exists_error env fn with
  | Some msg => download_photo env i u fn w = (Raise (OtherException msg), w)
  | None =>
      let (r, w') := download_photo env i u fn w in
      exists success,
        r = Return success
        /\ (success = true -> is_Some (photos_dir w' !! fn))
        /\ Stats.downloaded (stats w') + Stats.skipped (stats w')
           + Stats.failed (stats w')
           = Stats.downloaded (stats w) + Stats.skipped (stats w)
             + Stats.failed (stats w) + 1
        /\ Stats.total (stats w') = Stats.total (stats w)
  end.
Proof.
  destruct (exists_error env fn) as [msg|] eqn:He.
  { apply download_photo_refused, He. }
  destruct (photos_dir w !! fn) as [body|] eqn:Hfile.
  - rewrite (download_photo_existing env i u fn w He) by (exists body; exact Hfile).
    exists true. split; [reflexivity|]. split; [intros _; exists body; exact Hfile|].
    simpl. split; [lia | reflexivity].
  - rewrite (download_photo_absent env i u fn w He Hfile). cbv zeta.
    destruct (requests_get env (clock w) u) as [body | f | partial f].
    + exists true. split; [reflexivity|]. split.
      * intros _. exists body. simpl. apply lookup_insert_eq.
      * simpl. split; [lia | reflexivity].
    + exists false. split; [reflexivity|]. split; [discriminate|].
      simpl. split; [lia | reflexivity].
    + exists false. split; [reflexivity|]. split; [discriminate|].
      simpl. split; [lia | reflexivity].
Qed.

(** ** Authentication *)

(** X21: [authenticate] opens the browser exactly when the cached token is
    not valid. *)
Theorem browser_opened_only_without_token (env : Env) (key secret : string) (w : Proc)
        (valid : bool) :
  token_valid env (clock w) key secret = Answer valid ->
  exists new,
    events_between w (snd (authenticate env key secret w)) new
    /\ (In EvBrowser new <-> valid = false).
Proof.
  intros Hv. unfold authenticate, events_between. unfold_statements. simpl.
  rewrite Hv. destruct valid; simpl.
  - destruct (test_login env (S (clock w))) as [info | f]; simpl.
    + exists [EvLog MsgAuthenticating; EvTokenValid; EvLog MsgAuthenticated; EvLogin;
              EvLog (MsgLoggedIn (snd info) (fst info))].
      split; [reflexivity|]. simpl. split; [|discriminate].
      intros H; repeat destruct H as [H | H]; try discriminate; contradiction.
    + exists [EvLog MsgAuthenticating; EvTokenValid; EvLog MsgAuthenticated; EvLogin].
      split; [reflexivity|]. simpl. split; [|discriminate].
      intros H; repeat destruct H as [H | H]; try discriminate; contradiction.
  - destruct (authenticate_via_browser env (S (clock w))) as [[] | f]; simpl.
    + destruct (test_login env (S (S (clock w)))) as [info | f]; simpl.
      * exists [EvLog MsgAuthenticating; EvTokenValid; EvLog MsgNoToken; EvBrowser;
                EvLog MsgAuthenticated; EvLogin;
                EvLog (MsgLoggedIn (snd info) (fst info))].
        split; [reflexivity|]. simpl. tauto.
      * exists [EvLog MsgAuthenticating; EvTokenValid; EvLog MsgNoToken; EvBrowser;
                EvLog MsgAuthenticated; EvLogin].
        split; [reflexivity|]. simpl. tauto.
    + exists [EvLog MsgAuthenticating; EvTokenValid; EvLog MsgNoToken; EvBrowser].
      split; [reflexivity|]. simpl. tauto.
Qed.

Lemma browser_opened_only_without_token_witness :
  exists new,
    events_between fresh (snd (authenticate (service 3 2 two_then_one) "key" "secret" fresh))
                   new
    /\ (In EvBrowser new <-> true = false).
Proof.
  apply (browser_opened_only_without_token (service 3 2 two_then_one) "key" "secret"
           fresh true).
  reflexivity.
Defined.
